(** * shop: the product HTTP handlers, embedded in Rocq

    A shallow embedding of [shop.go]: the resource model ([Product],
    [Price], [ProductFilter], [ProductUpdate]), the [Service] contract, the
    five handler operations and the library calls they are built from
    (errors.Is, encoding/json, gorilla/schema, gorilla/mux variables,
    net/http response writer, log/slog).

    Go strings and byte slices are [string]s: sequences of 8-bit [ascii]
    characters, not necessarily valid UTF-8.  A [float64] is a [spec_float].
    Handlers run in a small state monad over the service state, the list of
    service calls made, the log and the response writer.

    The library calls are given as the Go standard library of version 1.22
    and the two gorilla packages define them, cut down to what the handlers
    use of them: encoding/json down to the bytes (the string escapes of the
    encoder, the scanner and the stream decoder, decoding into the two
    structs), errors.Is with [Is] and [Unwrap] methods, the query decoder of
    gorilla/schema on a struct.  Only the conversion between a float64 and
    its decimal text is taken from strconv without being defined.

    The handlers are those of [shop.go]; the older file of the package has
    the same [GetProduct] and [ListProducts] and nothing more.

    The router that [NewHandler] builds is embedded as gorilla/mux defines
    it (release 1.8.1), cut down to routes made of a path template and
    methods: the cleaning of the path with its redirection, the match of a
    template whose variables have no pattern of their own, the order of the
    routes and the two answers of the router itself, 405 and 404.  (The
    releases before 1.8.1 do not clear a method mismatch when a later
    matcher matches; with routes of one path matcher followed by one method
    matcher, as here, the outcome is the same.)  The method [Price.String]
    is the verb [%.2f] of fmt: the exact value of the float rounded to two
    decimals, a tie to the even digit, as strconv rounds it. *)

From Stdlib Require Import ZArith Lia List Bool Ascii String.
From Stdlib Require Import Floats.SpecFloat.
From Stdlib Require DecimalString DecimalN DecimalPos.
From stdpp Require Import base option gmap strings.

Import ListNotations.
Local Open Scope string_scope.
Local Open Scope Z_scope.

(* ===================================================================== *)
(** * Bytes *)
(* ===================================================================== *)

(** The numeric value of a byte, and the conversion [byte(x)] that keeps the
    low eight bits. *)
Definition byteZ (c : ascii) : Z := Z.of_N (N_of_ascii c).
Definition zbyte (z : Z) : ascii := ascii_of_N (Z.to_N (z mod 256)).

(** [s[n:]] for [n <= len(s)]. *)
Fixpoint drop_bytes (n : nat) (s : string) : string :=
  match n, s with
  | O, _ => s
  | S k, String _ rest => drop_bytes k rest
  | S _, EmptyString => EmptyString
  end.

(** An index loop [for i < len(src) { ...; i += n }] whose body looks at
    [src[i:]], appends some output and advances by [n >= 1] bytes.  The
    bytes the body has already consumed are skipped ([pending]).  A body
    that fails makes the whole loop fail. *)
Fixpoint byte_loop (body : string -> option (string * nat))
         (pending : nat) (s : string) : option string :=
  match s with
  | EmptyString => Some EmptyString
  | String _ rest =>
      match pending with
      | S k => byte_loop body k rest
      | O =>
          match body s with
          | None => None
          | Some (out, n) =>
              match byte_loop body (Nat.pred n) rest with
              | None => None
              | Some tl => Some (out +:+ tl)
              end
          end
      end
  end.

(* ===================================================================== *)
(** * unicode/utf8 *)
(* ===================================================================== *)

Module utf8.

Definition RuneError : Z := 0xFFFD.
Definition MaxRune : Z := 0x10FFFF.
Definition RuneSelf : Z := 0x80.
Definition surrogateMin : Z := 0xD800.
Definition surrogateMax : Z := 0xDFFF.

Definition locb : Z := 0x80.
Definition hicb : Z := 0xBF.

(** The table [first] together with [acceptRanges]: for a leading byte,
    the length of the sequence it starts and the range accepted for the
    second byte; [None] for a byte that starts no multi-byte sequence. *)
Definition first (p0 : Z) : option (nat * Z * Z) :=
  if p0 <? 0xC2 then None
  else if p0 <=? 0xDF then Some (2%nat, locb, hicb)
  else if p0 =? 0xE0 then Some (3%nat, 0xA0, hicb)
  else if p0 <=? 0xEC then Some (3%nat, locb, hicb)
  else if p0 =? 0xED then Some (3%nat, locb, 0x9F)
  else if p0 <=? 0xEF then Some (3%nat, locb, hicb)
  else if p0 =? 0xF0 then Some (4%nat, 0x90, hicb)
  else if p0 <=? 0xF3 then Some (4%nat, locb, hicb)
  else if p0 =? 0xF4 then Some (4%nat, locb, 0x8F)
  else None.

Definition cont (b : Z) : bool := (locb <=? b) && (b <=? hicb).

(** [utf8.DecodeRune]: the first rune of [p] and its width in bytes;
    [(RuneError, 1)] for an invalid or truncated encoding, [(RuneError, 0)]
    for the empty input. *)
Definition DecodeRune (p : string) : Z * nat :=
  match p with
  | EmptyString => (RuneError, 0%nat)
  | String c0 p1 =>
      let p0 := byteZ c0 in
      if p0 <? RuneSelf then (p0, 1%nat)
      else
        match first p0 with
        | None => (RuneError, 1%nat)
        | Some (sz, lo, hi) =>
            match p1 with
            | EmptyString => (RuneError, 1%nat)
            | String c1 p2 =>
                let b1 := byteZ c1 in
                if negb ((lo <=? b1) && (b1 <=? hi)) then (RuneError, 1%nat)
                else if (sz <=? 2)%nat then
                  (Z.lor (Z.shiftl (Z.land p0 0x1F) 6) (Z.land b1 0x3F), 2%nat)
                else
                  match p2 with
                  | EmptyString => (RuneError, 1%nat)
                  | String c2 p3 =>
                      let b2 := byteZ c2 in
                      if negb (cont b2) then (RuneError, 1%nat)
                      else if (sz <=? 3)%nat then
                        (Z.lor (Z.lor (Z.shiftl (Z.land p0 0x0F) 12)
                                      (Z.shiftl (Z.land b1 0x3F) 6))
                               (Z.land b2 0x3F), 3%nat)
                      else
                        match p3 with
                        | EmptyString => (RuneError, 1%nat)
                        | String c3 _ =>
                            let b3 := byteZ c3 in
                            if negb (cont b3) then (RuneError, 1%nat)
                            else
                              (Z.lor (Z.lor (Z.lor
                                  (Z.shiftl (Z.land p0 0x07) 18)
                                  (Z.shiftl (Z.land b1 0x3F) 12))
                                  (Z.shiftl (Z.land b2 0x3F) 6))
                                  (Z.land b3 0x3F), 4%nat)
                        end
                  end
            end
        end
  end.

Definition enc3 (r : Z) : string :=
  String (zbyte (Z.lor 0xE0 (Z.shiftr r 12)))
    (String (zbyte (Z.lor 0x80 (Z.land (Z.shiftr r 6) 0x3F)))
       (String (zbyte (Z.lor 0x80 (Z.land r 0x3F))) EmptyString)).

(** [utf8.AppendRune] onto the empty slice: the UTF-8 encoding of [r];
    that of [RuneError] for a surrogate or an out-of-range value. *)
Definition EncodeRune (r : Z) : string :=
  if (0 <=? r) && (r <=? 0x7F) then String (zbyte r) EmptyString
  else if (0 <=? r) && (r <=? 0x7FF) then
    String (zbyte (Z.lor 0xC0 (Z.shiftr r 6)))
      (String (zbyte (Z.lor 0x80 (Z.land r 0x3F))) EmptyString)
  else if (r <? 0) || (MaxRune <? r)
          || ((surrogateMin <=? r) && (r <=? surrogateMax)) then enc3 RuneError
  else if r <=? 0xFFFF then enc3 r
  else
    String (zbyte (Z.lor 0xF0 (Z.shiftr r 18)))
      (String (zbyte (Z.lor 0x80 (Z.land (Z.shiftr r 12) 0x3F)))
         (String (zbyte (Z.lor 0x80 (Z.land (Z.shiftr r 6) 0x3F)))
            (String (zbyte (Z.lor 0x80 (Z.land r 0x3F))) EmptyString))).

(** [utf8.ValidString], as the loop over [DecodeRune] it amounts to. *)
Definition valid_step (s : string) : option (string * nat) :=
  let '(r, size) := DecodeRune s in
  if (r =? RuneError) && (size =? 1)%nat then None
  else Some (EmptyString, size).

Definition ValidString (s : string) : bool :=
  match byte_loop valid_step 0 s with
  | Some _ => true
  | None => false
  end.

End utf8.

(* ===================================================================== *)
(** * errors *)
(* ===================================================================== *)

(** A Go [error] value, as far as [errors.Is (err, ErrNotFound)] observes
    it.  [ErrNotFound] is the package-level sentinel created once by
    [errors.New]: it is equal to itself only, has no [Is] and no [Unwrap]
    method.  Any other error has a message and
    - possibly an [Is (error) bool] method, kept as its answer on the target
      [ErrNotFound] (the only target this package asks about);
    - possibly an [Unwrap] method, returning one error (perhaps nil) or a
      slice of errors (nil elements match nothing and are left out). *)
Inductive error : Type :=
| ErrNotFound : error
| Err (msg : string) (is_method : option bool) (inner : unwrap_method)
with unwrap_method : Type :=
| NoUnwrap : unwrap_method
| UnwrapNil : unwrap_method
| UnwrapOne (e : error)
| UnwrapMany (es : error_list)
with error_list : Type :=
| enil : error_list
| econs (e : error) (es : error_list).

(** [errors.New (msg)] for a message, called anywhere else: a fresh value,
    distinct from the sentinel even when the text is the same. *)
Definition errors_New (msg : string) : error := Err msg None NoUnwrap.

(** [fmt.Errorf ("...: %w", e)]. *)
Definition fmt_Errorf_w (msg : string) (e : error) : error :=
  Err msg None (UnwrapOne e).

Fixpoint error_list_of (l : list error) : error_list :=
  match l with
  | [] => enil
  | e :: l' => econs e (error_list_of l')
  end.

(** [errors.Join]. *)
Definition errors_Join (l : list error) : error :=
  Err "" None (UnwrapMany (error_list_of l)).

(** [errors.Is (err, ErrNotFound)] for a non-nil [err]: at each error of the
    tree, first identity with the target, then the error's own [Is] method,
    then the errors its [Unwrap] method gives, depth first. *)
Fixpoint errors_Is_NotFound (err : error) : bool :=
  match err with
  | ErrNotFound => true
  | Err _ is_method inner =>
      match is_method with
      | Some true => true
      | _ => Is_NotFound_unwrap inner
      end
  end
with Is_NotFound_unwrap (inner : unwrap_method) : bool :=
  match inner with
  | NoUnwrap => false
  | UnwrapNil => false
  | UnwrapOne e => errors_Is_NotFound e
  | UnwrapMany es => Is_NotFound_any es
  end
with Is_NotFound_any (es : error_list) : bool :=
  match es with
  | enil => false
  | econs e es' => errors_Is_NotFound e || Is_NotFound_any es'
  end.

(** The sentinel occurs in the tree that [Unwrap] spans from [err]. *)
Fixpoint chain_contains_NotFound (err : error) : bool :=
  match err with
  | ErrNotFound => true
  | Err _ _ inner => contains_NotFound_unwrap inner
  end
with contains_NotFound_unwrap (inner : unwrap_method) : bool :=
  match inner with
  | NoUnwrap => false
  | UnwrapNil => false
  | UnwrapOne e => chain_contains_NotFound e
  | UnwrapMany es => contains_NotFound_any es
  end
with contains_NotFound_any (es : error_list) : bool :=
  match es with
  | enil => false
  | econs e es' => chain_contains_NotFound e || contains_NotFound_any es'
  end.

(** Some error of the tree has an [Is] method that accepts the sentinel. *)
Fixpoint chain_claims_NotFound (err : error) : bool :=
  match err with
  | ErrNotFound => false
  | Err _ is_method inner =>
      match is_method with
      | Some true => true
      | _ => claims_NotFound_unwrap inner
      end
  end
with claims_NotFound_unwrap (inner : unwrap_method) : bool :=
  match inner with
  | NoUnwrap => false
  | UnwrapNil => false
  | UnwrapOne e => chain_claims_NotFound e
  | UnwrapMany es => claims_NotFound_any es
  end
with claims_NotFound_any (es : error_list) : bool :=
  match es with
  | enil => false
  | econs e es' => chain_claims_NotFound e || claims_NotFound_any es'
  end.

Scheme error_ind' := Induction for error Sort Prop
  with unwrap_method_ind' := Induction for unwrap_method Sort Prop
  with error_list_ind' := Induction for error_list Sort Prop.
Combined Scheme error_mutind from error_ind', unwrap_method_ind', error_list_ind'.

(* ===================================================================== *)
(** * The resource model *)
(* ===================================================================== *)

(** [type Price float64]. *)
Definition Price : Type := spec_float.

(** [type Product struct], with the field names of the source. *)
Module Product.
Record t : Type := mk {
  ID : string;
  Name : string;
  Description : string;
  Price : Price
}.
End Product.
Abbreviation Product := Product.t.

(** The zero value [var p Product]. *)
Definition Product_zero : Product :=
  Product.mk EmptyString EmptyString EmptyString (S754_zero false).

(** [type ProductFilter struct{}] and [type ProductUpdate struct{}]. *)
Record ProductFilter : Type := mkProductFilter {}.
Record ProductUpdate : Type := mkProductUpdate {}.

(* ===================================================================== *)
(** * strconv, as far as encoding/json calls it *)
(* ===================================================================== *)

(** The two conversions between a finite [float64] and its decimal text are
    taken as given: [FormatFloat] is the text encoding/json writes for a
    finite value (strconv.AppendFloat with the shortest precision, in the
    'f' or 'e' layout), [ParseFloat] is strconv.ParseFloat at 64 bits,
    [None] when it reports a range or syntax error. *)
Record Strconv : Type := mkStrconv {
  FormatFloat : spec_float -> string;
  ParseFloat : string -> option spec_float
}.

(* ===================================================================== *)
(** * encoding/json: the encoder *)
(* ===================================================================== *)

Module json.

Definition quote : ascii := "034"%char.
Definition backslash : ascii := "092"%char.
Definition newline : ascii := "010"%char.

Definition hex_digit (z : Z) : ascii :=
  if z <? 10 then zbyte (48 + z) else zbyte (87 + z).

(** [htmlSafeSet]: the ASCII bytes the encoder copies unchanged when HTML
    escaping is on, as it is for a fresh [Encoder]. *)
Definition htmlSafe (b : Z) : bool :=
  (0x20 <=? b) && (b <=? 0x7F)
  && negb ((b =? 0x22) || (b =? 0x26) || (b =? 0x3C) || (b =? 0x3E)
           || (b =? 0x5C)).

(** The escape written for an ASCII byte outside [htmlSafeSet]: a short
    escape for the backslash, the quote and five control characters, the
    [\u00XX] form for the other control characters and for the three
    characters of HTML. *)
Definition escape_ascii (c : ascii) : string :=
  let b := byteZ c in
  if (b =? 0x5C) || (b =? 0x22) then String backslash (String c EmptyString)
  else if b =? 0x08 then String backslash "b"
  else if b =? 0x0C then String backslash "f"
  else if b =? 0x0A then String backslash "n"
  else if b =? 0x0D then String backslash "r"
  else if b =? 0x09 then String backslash "t"
  else
    String backslash
      (String "u" (String "0" (String "0"
         (String (hex_digit (Z.shiftr b 4))
            (String (hex_digit (Z.land b 0xF)) EmptyString))))).

(** One turn of the loop of [appendString] at [src[i:]]: what is appended
    and by how much [i] advances.  Bytes that are no valid UTF-8 become
    the escape of U+FFFD; U+2028 and U+2029 are escaped; every other
    multi-byte rune is copied. *)
Definition appendString_step (s : string) : option (string * nat) :=
  match s with
  | EmptyString => Some (EmptyString, 1%nat)
  | String c _ =>
      let b := byteZ c in
      if b <? utf8.RuneSelf then
        if htmlSafe b then Some (String c EmptyString, 1%nat)
        else Some (escape_ascii c, 1%nat)
      else
        let '(r, size) := utf8.DecodeRune s in
        if (r =? utf8.RuneError) && (size =? 1)%nat then
          Some (String backslash "ufffd", 1%nat)
        else if (r =? 0x2028) || (r =? 0x2029) then
          Some (String backslash "u202"
                  +:+ String (hex_digit (Z.land r 0xF)) EmptyString, size)
        else Some (substring 0 size s, size)
  end.

(** [appendString (nil, src, true)]: the JSON string literal of [src]. *)
Definition appendString (src : string) : string :=
  match byte_loop appendString_step 0 src with
  | Some body => String quote (body +:+ String quote EmptyString)
  | None => EmptyString
  end.

(** [isEmptyValue] at the two kinds of field [Product] has: the empty
    string, and a float that compares equal to zero, of either sign. *)
Definition isEmptyString (s : string) : bool :=
  match s with EmptyString => true | _ => false end.

Definition isEmptyFloat (f : spec_float) : bool :=
  match f with S754_zero _ => true | _ => false end.

(** [floatEncoder]: an infinity or a NaN is an [UnsupportedValueError]. *)
Definition encodeFloat (sc : Strconv) (f : spec_float) : option string :=
  match f with
  | S754_infinity _ | S754_nan => None
  | _ => Some (FormatFloat sc f)
  end.

(** The members the struct encoder writes for a [Product]: the fields in
    the order of the declaration, under the names of their [json] tags,
    a field tagged [omitempty] left out when its value is empty. *)
Definition string_member (name value : string) : list (string * option string) :=
  if isEmptyString value then [] else [(name, Some (appendString value))].

Definition float_member (sc : Strconv) (name : string) (value : spec_float)
  : list (string * option string) :=
  if isEmptyFloat value then [] else [(name, encodeFloat sc value)].

Definition members (sc : Strconv) (p : Product) : list (string * option string) :=
  string_member "id" (Product.ID p)
  ++ string_member "name" (Product.Name p)
  ++ string_member "description" (Product.Description p)
  ++ float_member sc "price" (Product.Price p).

(** The text of the members, comma separated; [None] as soon as one value
    cannot be encoded. *)
Fixpoint write_members (first : bool) (ms : list (string * option string))
  : option string :=
  match ms with
  | [] => Some EmptyString
  | (name, v) :: ms' =>
      match v, write_members false ms' with
      | Some text, Some tl =>
          Some ((if first then EmptyString else ",")
                  +:+ String quote (name +:+ String quote (":" +:+ text)) +:+ tl)
      | _, _ => None
      end
  end.

(** [json.Marshal] of a [Product]. *)
Definition Marshal (sc : Strconv) (p : Product) : option string :=
  match write_members true (members sc p) with
  | Some body => Some ("{" +:+ body +:+ "}")
  | None => None
  end.

(* --------------------------------------------------------------------- *)
(** ** The scanner (scanner.go) *)
(* --------------------------------------------------------------------- *)

(** The step functions of the scanner.  The four states that count the
    hex digits of a [\u] escape are [stateInStringEscU k], and the states
    that spell [true], [false] and [null] are [stateLit rest], [rest]
    being the letters still expected. *)
Inductive step_state : Type :=
| stateBeginValueOrEmpty | stateBeginValue
| stateBeginStringOrEmpty | stateBeginString
| stateEndValue | stateEndTop | stateError
| stateInString | stateInStringEsc | stateInStringEscU (k : nat)
| stateNeg | state1 | state0 | stateDot | stateDot0
| stateE | stateESign | stateE0
| stateLit (rest : string).

Inductive parse_state : Type :=
| parseObjectKey | parseObjectValue | parseArrayValue.

Inductive scan_op : Type :=
| scanContinue | scanBeginLiteral | scanBeginObject | scanObjectKey
| scanObjectValue | scanEndObject | scanBeginArray | scanArrayValue
| scanEndArray | scanSkipSpace | scanEnd | scanError.

Record scanner : Type := mkScanner {
  step : step_state;
  parseState : list parse_state   (* innermost first *)
}.

Definition maxNestingDepth : Z := 10000.

Definition isSpace (c : ascii) : bool :=
  let b := byteZ c in
  (b =? 0x20) || (b =? 0x09) || (b =? 0x0D) || (b =? 0x0A).

Definition isDigit (c : ascii) : bool :=
  let b := byteZ c in (0x30 <=? b) && (b <=? 0x39).

Definition isDigit19 (c : ascii) : bool :=
  let b := byteZ c in (0x31 <=? b) && (b <=? 0x39).

Definition isHex (c : ascii) : bool :=
  let b := byteZ c in
  ((0x30 <=? b) && (b <=? 0x39)) || ((0x61 <=? b) && (b <=? 0x66))
  || ((0x41 <=? b) && (b <=? 0x46)).

Definition byte_is (c : ascii) (x : string) : bool :=
  match x with
  | String d EmptyString => Ascii.eqb c d
  | _ => false
  end.

(** [scanner.error]: the scanner stays in [stateError]. *)
Definition scan_error (s : scanner) : scan_op * scanner :=
  (scanError, mkScanner stateError (parseState s)).

Definition pushParseState (s : scanner) (newParseState : parse_state)
           (next : step_state) (success : scan_op) : scan_op * scanner :=
  let ps := newParseState :: parseState s in
  if Z.of_nat (length ps) <=? maxNestingDepth then (success, mkScanner next ps)
  else scan_error s.

Definition popParseState (s : scanner) : scanner :=
  match parseState s with
  | [] => s
  | [_] => mkScanner stateEndTop []
  | _ :: ps => mkScanner stateEndValue ps
  end.

(** After the top-level value only white space should come: another byte
    is complained about on the next call. *)
Definition do_stateEndTop (s : scanner) (c : ascii) : scan_op * scanner :=
  if isSpace c then (scanEnd, mkScanner stateEndTop (parseState s))
  else (scanEnd, mkScanner stateError (parseState s)).

Definition do_stateEndValue (s : scanner) (c : ascii) : scan_op * scanner :=
  match parseState s with
  | [] => do_stateEndTop s c
  | ps :: rest =>
      if isSpace c then (scanSkipSpace, mkScanner stateEndValue (parseState s))
      else
        match ps with
        | parseObjectKey =>
            if byte_is c ":" then
              (scanObjectKey, mkScanner stateBeginValue (parseObjectValue :: rest))
            else scan_error s
        | parseObjectValue =>
            if byte_is c "," then
              (scanObjectValue, mkScanner stateBeginString (parseObjectKey :: rest))
            else if byte_is c "}" then (scanEndObject, popParseState s)
            else scan_error s
        | parseArrayValue =>
            if byte_is c "," then
              (scanArrayValue, mkScanner stateBeginValue (parseState s))
            else if byte_is c "]" then (scanEndArray, popParseState s)
            else scan_error s
        end
  end.

Definition goto (s : scanner) (next : step_state) (op : scan_op)
  : scan_op * scanner := (op, mkScanner next (parseState s)).

Definition do_stateBeginValue (s : scanner) (c : ascii) : scan_op * scanner :=
  if isSpace c then goto s stateBeginValue scanSkipSpace
  else if byte_is c "{" then
    pushParseState s parseObjectKey stateBeginStringOrEmpty scanBeginObject
  else if byte_is c "[" then
    pushParseState s parseArrayValue stateBeginValueOrEmpty scanBeginArray
  else if Ascii.eqb c quote then goto s stateInString scanBeginLiteral
  else if byte_is c "-" then goto s stateNeg scanBeginLiteral
  else if byte_is c "0" then goto s state0 scanBeginLiteral
  else if byte_is c "t" then goto s (stateLit "rue") scanBeginLiteral
  else if byte_is c "f" then goto s (stateLit "alse") scanBeginLiteral
  else if byte_is c "n" then goto s (stateLit "ull") scanBeginLiteral
  else if isDigit19 c then goto s state1 scanBeginLiteral
  else scan_error s.

Definition do_stateBeginString (s : scanner) (c : ascii) : scan_op * scanner :=
  if isSpace c then goto s stateBeginString scanSkipSpace
  else if Ascii.eqb c quote then goto s stateInString scanBeginLiteral
  else scan_error s.

Definition do_state0 (s : scanner) (c : ascii) : scan_op * scanner :=
  if byte_is c "." then goto s stateDot scanContinue
  else if byte_is c "e" || byte_is c "E" then goto s stateE scanContinue
  else do_stateEndValue s c.

Definition do_stateESign (s : scanner) (c : ascii) : scan_op * scanner :=
  if isDigit c then goto s stateE0 scanContinue else scan_error s.

(** [s.step (s, c)]. *)
Definition scan_step (s : scanner) (c : ascii) : scan_op * scanner :=
  match step s with
  | stateBeginValueOrEmpty =>
      if isSpace c then goto s stateBeginValueOrEmpty scanSkipSpace
      else if byte_is c "]" then do_stateEndValue s c
      else do_stateBeginValue s c
  | stateBeginValue => do_stateBeginValue s c
  | stateBeginStringOrEmpty =>
      if isSpace c then goto s stateBeginStringOrEmpty scanSkipSpace
      else if byte_is c "}" then
        match parseState s with
        | _ :: rest =>
            do_stateEndValue
              (mkScanner stateBeginStringOrEmpty (parseObjectValue :: rest)) c
        | [] => scan_error s
        end
      else do_stateBeginString s c
  | stateBeginString => do_stateBeginString s c
  | stateEndValue => do_stateEndValue s c
  | stateEndTop => do_stateEndTop s c
  | stateError => scan_error s
  | stateInString =>
      if Ascii.eqb c quote then goto s stateEndValue scanContinue
      else if Ascii.eqb c backslash then goto s stateInStringEsc scanContinue
      else if byteZ c <? 0x20 then scan_error s
      else goto s stateInString scanContinue
  | stateInStringEsc =>
      if byte_is c "b" || byte_is c "f" || byte_is c "n" || byte_is c "r" || byte_is c "t"
         || Ascii.eqb c backslash || byte_is c "/" || Ascii.eqb c quote
      then goto s stateInString scanContinue
      else if byte_is c "u" then goto s (stateInStringEscU 0) scanContinue
      else scan_error s
  | stateInStringEscU k =>
      if isHex c then
        if (k <? 3)%nat then goto s (stateInStringEscU (S k)) scanContinue
        else goto s stateInString scanContinue
      else scan_error s
  | stateNeg =>
      if byte_is c "0" then goto s state0 scanContinue
      else if isDigit19 c then goto s state1 scanContinue
      else scan_error s
  | state1 =>
      if isDigit c then goto s state1 scanContinue else do_state0 s c
  | state0 => do_state0 s c
  | stateDot =>
      if isDigit c then goto s stateDot0 scanContinue else scan_error s
  | stateDot0 =>
      if isDigit c then goto s stateDot0 scanContinue
      else if byte_is c "e" || byte_is c "E" then goto s stateE scanContinue
      else do_stateEndValue s c
  | stateE =>
      if byte_is c "+" || byte_is c "-" then goto s stateESign scanContinue
      else do_stateESign s c
  | stateESign => do_stateESign s c
  | stateE0 =>
      if isDigit c then goto s stateE0 scanContinue else do_stateEndValue s c
  | stateLit rest =>
      match rest with
      | String d EmptyString =>
          if Ascii.eqb c d then goto s stateEndValue scanContinue
          else scan_error s
      | String d rest' =>
          if Ascii.eqb c d then goto s (stateLit rest') scanContinue
          else scan_error s
      | EmptyString => scan_error s
      end
  end.

(** [scanner.reset]. *)
Definition scanner_reset : scanner := mkScanner stateBeginValue [].

(** [scanner.eof]. *)
Definition scanner_eof (s : scanner) : scan_op :=
  match step s with
  | stateError => scanError
  | stateEndTop => scanEnd
  | _ =>
      match step (snd (scan_step s " "%char)) with
      | stateEndTop => scanEnd
      | _ => scanError
      end
  end.

(** [checkValid]: the whole of [data] is one JSON value, white space
    around it allowed. *)
Fixpoint checkValid (s : scanner) (data : string) : bool :=
  match data with
  | EmptyString =>
      match scanner_eof s with scanError => false | _ => true end
  | String c rest =>
      let '(op, s') := scan_step s c in
      match op with
      | scanError => false
      | _ => checkValid s' rest
      end
  end.

(** [json.Valid]. *)
Definition Valid (data : string) : bool := checkValid scanner_reset data.

(* --------------------------------------------------------------------- *)
(** ** Reading one value from the stream (stream.go) *)
(* --------------------------------------------------------------------- *)

(** What the decoding pass sees of a value: the brackets and, for each
    literal (string, number, [true], [false], [null]), its bytes. *)
Inductive token : Type :=
| TokBeginObject | TokEndObject | TokBeginArray | TokEndArray
| TokLiteral (item : string).

Inductive DecodeError : Type :=
| EOF                  (* io.EOF: no value at all *)
| ErrUnexpectedEOF     (* io.ErrUnexpectedEOF: the value is cut short *)
| SyntaxError
| UnmarshalTypeError.

Definition snoc (s : string) (c : ascii) : string := s +:+ String c EmptyString.

Definition close_literal (lit : option string) (toks : list token) : list token :=
  match lit with
  | Some item => TokLiteral item :: toks
  | None => toks
  end.

(** [Decoder.readValue], together with the cutting of the value into
    tokens: the bytes are fed to the scanner until it reports the end of
    the first value; what follows that value is not looked at.  At the
    end of the input the scanner is offered a space.  [lit] is the literal
    being read, [toks] the tokens so far, last first; [seen] records that
    a byte other than white space was met. *)
Fixpoint readValue (s : scanner) (lit : option string) (toks : list token)
         (seen : bool) (input : string) : DecodeError + list token :=
  match input with
  | EmptyString =>
      match fst (scan_step s " "%char) with
      | scanEnd => inr (rev (close_literal lit toks))
      | _ => inl (if seen then ErrUnexpectedEOF else EOF)
      end
  | String c rest =>
      let '(op, s') := scan_step s c in
      match op with
      | scanError => inl SyntaxError
      | scanEnd => inr (rev (close_literal lit toks))
      | scanContinue =>
          let lit' := option_map (fun item => snoc item c) lit in
          match step s' with
          | stateEndValue => readValue s' None (close_literal lit' toks) true rest
          | _ => readValue s' lit' toks true rest
          end
      | scanBeginLiteral =>
          readValue s' (Some (String c EmptyString)) toks true rest
      | scanBeginObject =>
          readValue s' None (TokBeginObject :: toks) true rest
      | scanBeginArray =>
          readValue s' None (TokBeginArray :: toks) true rest
      | scanEndObject =>
          let toks' := TokEndObject :: close_literal lit toks in
          match parseState s' with
          | [] => inr (rev toks')
          | _ => readValue s' None toks' true rest
          end
      | scanEndArray =>
          let toks' := TokEndArray :: close_literal lit toks in
          match parseState s' with
          | [] => inr (rev toks')
          | _ => readValue s' None toks' true rest
          end
      | scanSkipSpace =>
          readValue s' None (close_literal lit toks) seen rest
      | scanObjectKey | scanObjectValue | scanArrayValue =>
          readValue s' None (close_literal lit toks) true rest
      end
  end.

(* --------------------------------------------------------------------- *)
(** ** Decoding a value into a struct (decode.go) *)
(* --------------------------------------------------------------------- *)

Definition hexval (c : ascii) : option Z :=
  let b := byteZ c in
  if (0x30 <=? b) && (b <=? 0x39) then Some (b - 0x30)
  else if (0x61 <=? b) && (b <=? 0x66) then Some (b - 0x61 + 10)
  else if (0x41 <=? b) && (b <=? 0x46) then Some (b - 0x41 + 10)
  else None.

(** [getu4]: the value of a leading [\uXXXX]; [None] stands for -1. *)
Definition getu4 (s : string) : option Z :=
  match s with
  | String b (String u (String h1 (String h2 (String h3 (String h4 _))))) =>
      if Ascii.eqb b backslash && byte_is u "u" then
        match hexval h1, hexval h2, hexval h3, hexval h4 with
        | Some v1, Some v2, Some v3, Some v4 =>
            Some (((v1 * 16 + v2) * 16 + v3) * 16 + v4)
        | _, _, _, _ => None
        end
      else None
  | _ => None
  end.

(** [utf16.IsSurrogate] and [utf16.DecodeRune]. *)
Definition utf16_IsSurrogate (r : Z) : bool := (0xD800 <=? r) && (r <? 0xE000).

Definition utf16_DecodeRune (r1 r2 : Z) : Z :=
  if (0xD800 <=? r1) && (r1 <? 0xDC00) && (0xDC00 <=? r2) && (r2 <? 0xE000)
  then Z.lor (Z.shiftl (r1 - 0xD800) 10) (r2 - 0xDC00) + 0x10000
  else utf8.RuneError.

(** One turn of the loop of [unquoteBytes] at [s[r:]]. *)
Definition unquote_step (s : string) : option (string * nat) :=
  match s with
  | EmptyString => None
  | String c rest =>
      if Ascii.eqb c backslash then
        match rest with
        | EmptyString => None
        | String e _ =>
            if Ascii.eqb e quote || Ascii.eqb e backslash || byte_is e "/"
               || byte_is e "'"
            then Some (String e EmptyString, 2%nat)
            else if byte_is e "b" then Some (String (zbyte 0x08) EmptyString, 2%nat)
            else if byte_is e "f" then Some (String (zbyte 0x0C) EmptyString, 2%nat)
            else if byte_is e "n" then Some (String (zbyte 0x0A) EmptyString, 2%nat)
            else if byte_is e "r" then Some (String (zbyte 0x0D) EmptyString, 2%nat)
            else if byte_is e "t" then Some (String (zbyte 0x09) EmptyString, 2%nat)
            else if byte_is e "u" then
              match getu4 s with
              | None => None
              | Some rr =>
                  if utf16_IsSurrogate rr then
                    let dec :=
                      match getu4 (drop_bytes 6 s) with
                      | Some rr1 => utf16_DecodeRune rr rr1
                      | None => utf8.RuneError
                      end in
                    if negb (dec =? utf8.RuneError)
                    then Some (utf8.EncodeRune dec, 12%nat)
                    else Some (utf8.EncodeRune utf8.RuneError, 6%nat)
                  else Some (utf8.EncodeRune rr, 6%nat)
              end
            else None
        end
      else if Ascii.eqb c quote || (byteZ c <? 0x20) then None
      else if byteZ c <? utf8.RuneSelf then Some (String c EmptyString, 1%nat)
      else
        let '(rr, size) := utf8.DecodeRune s in
        Some (utf8.EncodeRune rr, size)
  end.

(** The bytes of [s] but the last, and the last. *)
Fixpoint split_last (s : string) : option (string * ascii) :=
  match s with
  | EmptyString => None
  | String c EmptyString => Some (EmptyString, c)
  | String c rest =>
      match split_last rest with
      | Some (front, l) => Some (String c front, l)
      | None => None
      end
  end.

(** [unquote]: the Go string a quoted JSON string literal stands for,
    bytes that are no valid UTF-8 replaced by U+FFFD.  (The fast path of
    the source, for a literal that needs no change, gives the same
    result.) *)
Definition unquote (item : string) : option string :=
  match item with
  | String q body =>
      match split_last body with
      | Some (content, l) =>
          if Ascii.eqb q quote && Ascii.eqb l quote
          then byte_loop unquote_step 0 content
          else None
      | None => None
      end
  | EmptyString => None
  end.

(** The fields of [Product] as the decoder knows them. *)
Inductive field : Type := fID | fName | fDescription | fPrice.

Definition field_name (f : field) : string :=
  match f with
  | fID => "id"
  | fName => "name"
  | fDescription => "description"
  | fPrice => "price"
  end.

Definition fields : list field := [fID; fName; fDescription; fPrice].

(** [foldName]: ASCII letters in upper case, any other rune replaced by
    the least rune of its class under simple case folding.  [foldRune] is
    given here on the two classes that reach into ASCII (U+017F with S,
    U+212A with K) and as the identity on every other rune: such a rune
    folds to a rune outside ASCII, so the comparison with the ASCII field
    names of [Product] comes out the same. *)
Definition foldRune (r : Z) : Z :=
  if r =? 0x17F then 0x53 else if r =? 0x212A then 0x4B else r.

Definition upper (c : ascii) : ascii :=
  let b := byteZ c in
  if (0x61 <=? b) && (b <=? 0x7A) then zbyte (b - 0x20) else c.

Definition foldName_step (s : string) : option (string * nat) :=
  match s with
  | EmptyString => None
  | String c _ =>
      if byteZ c <? utf8.RuneSelf then Some (String (upper c) EmptyString, 1%nat)
      else
        let '(r, n) := utf8.DecodeRune s in
        Some (utf8.EncodeRune (foldRune r), n)
  end.

Definition foldName (s : string) : string :=
  match byte_loop foldName_step 0 s with
  | Some t => t
  | None => EmptyString
  end.

(** The field a key selects: the one of that exact name, else the one
    whose name is equal to it under case folding. *)
Definition lookup_field (key : string) : option field :=
  match List.find (fun f => String.eqb (field_name f) key) fields with
  | Some f => Some f
  | None =>
      List.find (fun f => String.eqb (foldName (field_name f)) (foldName key))
                fields
  end.

Definition set_field_string (f : field) (v : string) (p : Product) : Product :=
  match f with
  | fID => Product.mk v (Product.Name p) (Product.Description p) (Product.Price p)
  | fName => Product.mk (Product.ID p) v (Product.Description p) (Product.Price p)
  | fDescription => Product.mk (Product.ID p) (Product.Name p) v (Product.Price p)
  | fPrice => p
  end.

Definition set_Price (v : spec_float) (p : Product) : Product :=
  Product.mk (Product.ID p) (Product.Name p) (Product.Description p) v.

(** [literalStore] into a field of [Product]: the new value and whether
    an [UnmarshalTypeError] was saved.  [null] leaves a string or a float
    as it is; a string literal fits the three string fields, a number the
    price, provided strconv can parse it. *)
Definition literalStore (sc : Strconv) (item : string) (f : field) (p : Product)
  : Product * bool :=
  match item with
  | EmptyString => (p, true)
  | String c _ =>
      if byte_is c "n" then (p, false)
      else if byte_is c "t" || byte_is c "f" then (p, true)
      else if Ascii.eqb c quote then
        match f with
        | fPrice => (p, true)
        | _ =>
            match unquote item with
            | Some v => (set_field_string f v p, false)
            | None => (p, true)
            end
        end
      else
        match f with
        | fPrice =>
            match ParseFloat sc item with
            | Some v => (set_Price v p, false)
            | None => (p, true)
            end
        | _ => (p, true)
        end
  end.

(** [decodeState.object] on a struct: the members of the object, one
    after the other.  [key] is [None] where a key is expected and
    [Some fo] where the value of the key is, [fo] being the field the key
    selected, if any; [depth] counts the brackets open inside a value
    that is skipped.  An object or array met where a field is a string or
    a float saves an [UnmarshalTypeError]; the value of an unknown key is
    skipped. *)
Fixpoint object (sc : Strconv) (toks : list token) (depth : nat)
         (key : option (option field)) (p : Product) (bad : bool)
  : Product * bool :=
  match toks with
  | [] => (p, bad)
  | t :: toks' =>
      match depth with
      | S d =>
          match t with
          | TokBeginObject | TokBeginArray => object sc toks' (S depth) None p bad
          | TokEndObject | TokEndArray => object sc toks' d None p bad
          | TokLiteral _ => object sc toks' depth None p bad
          end
      | O =>
          match key, t with
          | None, TokLiteral item =>
              match unquote item with
              | Some k => object sc toks' O (Some (lookup_field k)) p bad
              | None => (p, true)
              end
          | None, TokEndObject => (p, bad)
          | None, _ => (p, true)
          | Some (Some f), TokLiteral item =>
              let '(p', b) := literalStore sc item f p in
              object sc toks' O None p' (bad || b)
          | Some None, TokLiteral _ => object sc toks' O None p bad
          | Some (Some _), (TokBeginObject | TokBeginArray) =>
              object sc toks' 1%nat None p true
          | Some None, (TokBeginObject | TokBeginArray) =>
              object sc toks' 1%nat None p bad
          | Some _, _ => (p, true)
          end
      end
  end.

Definition is_null (item : string) : bool :=
  match item with
  | String c _ => byte_is c "n"
  | EmptyString => false
  end.

(** [decodeState.value] on a [Product]: an object fills the fields,
    [null] changes nothing, anything else is an [UnmarshalTypeError]. *)
Definition unmarshal_Product (sc : Strconv) (toks : list token) (p : Product)
  : Product * bool :=
  match toks with
  | TokBeginObject :: toks' => object sc toks' O None p false
  | TokLiteral item :: _ => (p, negb (is_null item))
  | _ => (p, true)
  end.

(** The same on a [ProductUpdate], a struct without fields: every key of
    an object is unknown and its value skipped. *)
Definition unmarshal_ProductUpdate (toks : list token) : bool :=
  match toks with
  | TokBeginObject :: _ => false
  | TokLiteral item :: _ => negb (is_null item)
  | _ => true
  end.

(** [json.NewDecoder (body).Decode (&p)] for [p] a [Product]. *)
Definition Decode_Product (sc : Strconv) (body : string) (p : Product)
  : Product * option DecodeError :=
  match readValue scanner_reset None [] false body with
  | inl e => (p, Some e)
  | inr toks =>
      let '(p', bad) := unmarshal_Product sc toks p in
      (p', if bad then Some UnmarshalTypeError else None)
  end.

(** [json.NewDecoder (body).Decode (&upd)] for [upd] a [ProductUpdate]. *)
Definition Decode_ProductUpdate (body : string) (upd : ProductUpdate)
  : ProductUpdate * option DecodeError :=
  match readValue scanner_reset None [] false body with
  | inl e => (upd, Some e)
  | inr toks =>
      (upd, if unmarshal_ProductUpdate toks then Some UnmarshalTypeError else None)
  end.

(** [json.NewEncoder (w).Encode (v)] for [v] a [Product]: the bytes handed
    to [w.Write], the encoding and a newline, or the error, in which case
    nothing is written. *)
Definition Encode_Product (sc : Strconv) (p : Product) : option string :=
  match Marshal sc p with
  | Some text => Some (text +:+ String newline EmptyString)
  | None => None
  end.

(** The same for a slice of [Product]: [null] for the nil slice. *)
Fixpoint Marshal_elems (sc : Strconv) (first : bool) (ps : list Product)
  : option string :=
  match ps with
  | [] => Some EmptyString
  | p :: ps' =>
      match Marshal sc p, Marshal_elems sc false ps' with
      | Some text, Some tl =>
          Some ((if first then EmptyString else ",") +:+ text +:+ tl)
      | _, _ => None
      end
  end.

Definition Encode_Products (sc : Strconv) (ps : option (list Product))
  : option string :=
  match ps with
  | None => Some ("null" +:+ String newline EmptyString)
  | Some l =>
      match Marshal_elems sc true l with
      | Some body => Some ("[" +:+ body +:+ "]" +:+ String newline EmptyString)
      | None => None
      end
  end.

End json.

(* ===================================================================== *)
(** * gorilla/schema: decoding a query into a struct *)
(* ===================================================================== *)

Module schema.

Record Decoder : Type := mkDecoder { ignoreUnknownKeys : bool }.

(** [schema.NewDecoder ()] and [decoder.IgnoreUnknownKeys (i)]. *)
Definition NewDecoder : Decoder := mkDecoder false.
Definition IgnoreUnknownKeys (i : bool) (d : Decoder) : Decoder := mkDecoder i.

Inductive FieldError : Type :=
| UnknownKeyError (key : string)
| ConversionError (key : string).

(** [MultiError], a map from the path to its error. *)
Definition MultiError : Type := gmap string FieldError.

(** The part of a path before its first dot. *)
Fixpoint first_key (path : string) : string :=
  match path with
  | EmptyString => EmptyString
  | String c rest =>
      if Ascii.eqb c "."%char then EmptyString else String c (first_key rest)
  end.

(** [cache.parsePath]: a path is valid only if the struct has a field for
    its first key; [struc_get] tells whether the struct has a field of
    that alias. *)
Definition parsePath (struc_get : string -> bool) (path : string) : bool :=
  struc_get (first_key path).

(** [Decoder.Decode (dst, src)] for a [dst] that points to a struct:
    every path of [src] that is valid is decoded by
    [decode_field], which may fail; a path that is not valid is an
    [UnknownKeyError] unless unknown keys are ignored.  The result is the
    map of the errors, and the call fails when the map is not empty. *)
Definition Decode_errors (d : Decoder) (struc_get : string -> bool)
           (decode_field : string -> list string -> bool)
           (src : gmap string (list string)) : MultiError :=
  map_imap (fun path values =>
              if parsePath struc_get path then
                if decode_field path values then None
                else Some (ConversionError path)
              else if ignoreUnknownKeys d then None
              else Some (UnknownKeyError path)) src.

(** [ProductFilter] has no field, whatever the alias. *)
Definition ProductFilter_get (alias : string) : bool := false.

(** [decoder.Decode (&f, src)] for [f] a [ProductFilter]: with no field
    to fill, [f] is returned as it was. *)
Definition Decode_ProductFilter (d : Decoder) (f : ProductFilter)
           (src : gmap string (list string)) : ProductFilter * option MultiError :=
  let errs := Decode_errors d ProductFilter_get (fun _ _ => true) src in
  (f, if decide (errs = ∅) then None else Some errs).

End schema.

(* ===================================================================== *)
(** * net/http, gorilla/mux and log/slog *)
(* ===================================================================== *)

Definition StatusOK : Z := 200.
Definition StatusCreated : Z := 201.
Definition StatusNoContent : Z := 204.
Definition StatusBadRequest : Z := 400.
Definition StatusNotFound : Z := 404.
Definition StatusInternalServerError : Z := 500.

(** What a handler reads of an [*http.Request]: the body, the query of the
    URL as [r.URL.Query ()] gives it, and the variables the router attached
    ([mux.Vars (r)], empty when there is none). *)
Record Request : Type := mkRequest {
  Body : string;
  URL_Query : gmap string (list string);
  mux_Vars : gmap string string
}.

(** An [http.ResponseWriter]: the header map the handler edits, and what
    has gone out: the status, the header as it was when the status was
    written, and the body. *)
Record ResponseWriter : Type := mkResponseWriter {
  Header : gmap string (list string);
  wroteHeader : bool;
  status : Z;
  sentHeader : gmap string (list string);
  written : string
}.

Definition NewResponseWriter : ResponseWriter :=
  mkResponseWriter ∅ false 0 ∅ EmptyString.

(** [w.Header ().Set (key, value)]; the two keys the handlers set are in
    canonical form already. *)
Definition Header_Set (key value : string) (w : ResponseWriter) : ResponseWriter :=
  mkResponseWriter (<[key := [value]]> (Header w)) (wroteHeader w) (status w)
                   (sentHeader w) (written w).

(** [w.WriteHeader (code)]: only the first call counts. *)
Definition WriteHeader (code : Z) (w : ResponseWriter) : ResponseWriter :=
  if wroteHeader w then w
  else mkResponseWriter (Header w) true code (Header w) (written w).

Definition bodyAllowedForStatus (code : Z) : bool :=
  negb (((100 <=? code) && (code <=? 199)) || (code =? 204) || (code =? 304)).

(** [w.Write (b)]: writes the status 200 first if none was written. *)
Definition Write (b : string) (w : ResponseWriter) : ResponseWriter :=
  let w := WriteHeader StatusOK w in
  if bodyAllowedForStatus (status w) then
    mkResponseWriter (Header w) (wroteHeader w) (status w) (sentHeader w)
                     (written w +:+ b)
  else w.

(** log/slog: a record has a level, a message and attributes. *)
Inductive Level : Type := LevelDebug | LevelInfo | LevelWarn | LevelError.

Inductive any : Type :=
| AnyString (s : string)
| AnyError (e : error)
| AnyMultiError (e : schema.MultiError).

Record LogRecord : Type := mkLogRecord {
  level : Level;
  message : string;
  attrs : list (string * any)
}.

(** [mux.Vars (r)["productID"]]: the zero value of a string when the map
    has no such key. *)
Definition idFromRequest (r : Request) : string :=
  default EmptyString (mux_Vars r !! "productID").

(* ===================================================================== *)
(** * The service contract and the handlers *)
(* ===================================================================== *)

(** A call of a method of [Service], with its arguments. *)
Inductive Call : Type :=
| CallCreateProduct (p : Product)
| CallGetProduct (id : string)
| CallListProducts (f : ProductFilter)
| CallUpdateProduct (id : string) (upd : ProductUpdate)
| CallDeleteProduct (id : string).

(** [type Service interface]: an implementation has a state of its own,
    which each method may read and change; a method returns its results,
    the error being [None] for nil, and so the slice of [ListProducts]. *)
Record Service (S : Type) : Type := mkService {
  svc_CreateProduct : Product -> S -> (Product * option error) * S;
  svc_GetProduct : string -> S -> (Product * option error) * S;
  svc_ListProducts : ProductFilter -> S -> (option (list Product) * option error) * S;
  svc_UpdateProduct : string -> ProductUpdate -> S -> (Product * option error) * S;
  svc_DeleteProduct : string -> S -> option error * S
}.
Arguments svc_CreateProduct {S}.
Arguments svc_GetProduct {S}.
Arguments svc_ListProducts {S}.
Arguments svc_UpdateProduct {S}.
Arguments svc_DeleteProduct {S}.

(** What a request runs against: the state of the service, the calls made
    on it, the records handed to the logger and the response writer. *)
Record World (S : Type) : Type := mkWorld {
  service_state : S;
  calls : list Call;
  log : list LogRecord;
  w : ResponseWriter
}.
Arguments mkWorld {S}.
Arguments service_state {S}.
Arguments calls {S}.
Arguments log {S}.
Arguments w {S}.

Definition NewWorld {S : Type} (s : S) : World S :=
  mkWorld s [] [] NewResponseWriter.

Section Handler.

Context {S : Type}.

(** The collaborators given to [NewHandler], and strconv. *)
Variable service : Service S.
Variable strconv : Strconv.

(** A handler is a computation on the world of its request. *)
Definition M (A : Type) : Type := World S -> A * World S.

#[local] Instance M_ret : MRet M := fun A x st => (x, st).
#[local] Instance M_bind : MBind M :=
  fun A B f m st => let '(x, st') := m st in f x st'.

Definition on_writer (f : ResponseWriter -> ResponseWriter) : M unit :=
  fun st => (tt, mkWorld (service_state st) (calls st) (log st) (f (w st))).

(** [h.logger.Info (msg, args...)]. *)
Definition logger_Info (msg : string) (args : list (string * any)) : M unit :=
  fun st =>
    (tt, mkWorld (service_state st) (calls st)
                 (log st ++ [mkLogRecord LevelInfo msg args]) (w st)).

(** A call of a method of [h.service], recorded. *)
Definition call {A : Type} (c : Call) (method : S -> A * S) : M A :=
  fun st =>
    let '(res, s') := method (service_state st) in
    (res, mkWorld s' (calls st ++ [c]) (log st) (w st)).

(** The error of [Encode] is dropped by every handler. *)
Definition encode_to_writer (out : option string) : M unit :=
  match out with
  | Some b => on_writer (Write b)
  | None => mret tt
  end.

(** POST /products *)
Definition CreateProduct (r : Request) : M unit :=
  let '(p, err) := json.Decode_Product strconv (Body r) Product_zero in
  match err with
  | Some _ => on_writer (WriteHeader StatusBadRequest)
  | None =>
      '(product, err) ← call (CallCreateProduct p) (svc_CreateProduct service p);
      match err with
      | Some err =>
          logger_Info "failed to create product" [("error", AnyError err)];;
          on_writer (WriteHeader StatusInternalServerError)
      | None =>
          let url := "/products/" +:+ Product.ID product in
          on_writer (Header_Set "Location" url);;
          on_writer (Header_Set "Content-Type" "application/json");;
          on_writer (WriteHeader StatusCreated);;
          encode_to_writer (json.Encode_Product strconv product)
      end
  end.

(** GET /products/{productID} *)
Definition GetProduct (r : Request) : M unit :=
  let id := idFromRequest r in
  '(product, err) ← call (CallGetProduct id) (svc_GetProduct service id);
  match err with
  | Some err =>
      if errors_Is_NotFound err then on_writer (WriteHeader StatusNotFound)
      else
        logger_Info "failed to get product"
                    [("id", AnyString id); ("error", AnyError err)];;
        on_writer (WriteHeader StatusInternalServerError)
  | None =>
      on_writer (Header_Set "Content-Type" "application/json");;
      on_writer (WriteHeader StatusOK);;
      encode_to_writer (json.Encode_Product strconv product)
  end.

(** GET /products.  The decoder is made once, when the handler function
    is built. *)
Definition ListProducts : Request -> M unit :=
  let decoder := schema.IgnoreUnknownKeys true schema.NewDecoder in
  fun r =>
    let '(f, err) :=
      schema.Decode_ProductFilter decoder mkProductFilter (URL_Query r) in
    match err with
    | Some err =>
        logger_Info "failed to decode request" [("error", AnyMultiError err)];;
        on_writer (WriteHeader StatusBadRequest)
    | None =>
        '(products, err) ← call (CallListProducts f) (svc_ListProducts service f);
        match err with
        | Some err =>
            logger_Info "failed to list products" [("error", AnyError err)];;
            on_writer (WriteHeader StatusInternalServerError)
        | None =>
            on_writer (Header_Set "Content-Type" "application/json");;
            on_writer (WriteHeader StatusOK);;
            encode_to_writer (json.Encode_Products strconv products)
        end
    end.

(** PATCH /products/{productID} *)
Definition UpdateProduct (r : Request) : M unit :=
  let id := idFromRequest r in
  let '(upd, err) := json.Decode_ProductUpdate (Body r) mkProductUpdate in
  match err with
  | Some _ => on_writer (WriteHeader StatusBadRequest)
  | None =>
      '(product, err) ← call (CallUpdateProduct id upd)
                             (svc_UpdateProduct service id upd);
      match err with
      | Some err =>
          if errors_Is_NotFound err then on_writer (WriteHeader StatusNotFound)
          else
            logger_Info "failed to update product"
                        [("id", AnyString id); ("error", AnyError err)];;
            on_writer (WriteHeader StatusInternalServerError)
      | None =>
          on_writer (Header_Set "Content-Type" "application/json");;
          on_writer (WriteHeader StatusOK);;
          encode_to_writer (json.Encode_Product strconv product)
      end
  end.

(** DELETE /products/{productID} *)
Definition DeleteProduct (r : Request) : M unit :=
  let id := idFromRequest r in
  err ← call (CallDeleteProduct id) (svc_DeleteProduct service id);
  match err with
  | Some err =>
      if errors_Is_NotFound err then on_writer (WriteHeader StatusNotFound)
      else
        logger_Info "failed to delete product"
                    [("id", AnyString id); ("error", AnyError err)];;
        on_writer (WriteHeader StatusInternalServerError)
  | None => on_writer (WriteHeader StatusNoContent)
  end.

(** A handler served on a fresh response writer, the service being in
    state [s]: the world the request leaves behind. *)
Definition serve (h : Request -> M unit) (r : Request) (s : S) : World S :=
  snd (h r (NewWorld s)).

End Handler.

(* ===================================================================== *)
(** * Implementations used in the examples *)
(* ===================================================================== *)

(** 1.5 as a [float64]. *)
Definition price_1_5 : Price := S754_finite false 6755399441055744 (-52).

(** A strconv that covers the one non-zero price of the examples. *)
Definition example_strconv : Strconv :=
  mkStrconv (fun _ => "1.5")
            (fun text => if String.eqb text "1.5" then Some price_1_5 else None).

(** A service that keeps its products in a map from the identifier.  It
    gives every product it creates the identifier 42, and reports a missing
    product by an error that wraps [ErrNotFound]. *)
Definition memory_service : Service (gmap string Product) :=
  mkService (gmap string Product)
    (fun p m =>
       let product :=
         Product.mk "42" (Product.Name p) (Product.Description p) (Product.Price p) in
       ((product, None), <["42" := product]> m))
    (fun id m =>
       match m !! id with
       | Some p => ((p, None), m)
       | None => ((Product_zero, Some (fmt_Errorf_w "get product" ErrNotFound)), m)
       end)
    (fun f m => ((Some (snd <$> map_to_list m), None), m))
    (fun id upd m =>
       match m !! id with
       | Some p => ((p, None), m)
       | None => ((Product_zero, Some ErrNotFound), m)
       end)
    (fun id m =>
       match m !! id with
       | Some _ => (None, delete id m)
       | None => (Some (fmt_Errorf_w "delete product" ErrNotFound), m)
       end).

(** A service whose every call fails with the error [err]; its state counts
    the calls. *)
Definition failing_service (err : error) : Service nat :=
  mkService nat
    (fun _ n => ((Product_zero, Some err), Datatypes.S n))
    (fun _ n => ((Product_zero, Some err), Datatypes.S n))
    (fun _ n => ((None, Some err), Datatypes.S n))
    (fun _ _ n => ((Product_zero, Some err), Datatypes.S n))
    (fun _ n => (Some err, Datatypes.S n)).

(** A service that answers every call with the product [p]. *)
Definition constant_service (p : Product) : Service unit :=
  mkService unit
    (fun _ u => ((p, None), u))
    (fun _ u => ((p, None), u))
    (fun _ u => ((Some [p], None), u))
    (fun _ _ u => ((p, None), u))
    (fun _ u => (None, u)).

(** An error of a type with a method [Is] that accepts [ErrNotFound], and
    no [Unwrap] method. *)
Definition err_no_such_product : error := Err "no such product" (Some true) NoUnwrap.

(** A request with the body [b] on a route without variables, and one on a
    route whose variable [productID] is [id]. *)
Definition request_with_body (b : string) : Request := mkRequest b ∅ ∅.
Definition request_for (id : string) (b : string) : Request :=
  mkRequest b ∅ {["productID" := id]}.

(* ===================================================================== *)
(** * The three operations on one product *)
(* ===================================================================== *)

(** Get, Update and Delete share the classification of the service's
    error; the statements about it range over the three. *)
Inductive Operation : Type := OpGet | OpUpdate | OpDelete.

Section Operations.

Context {S : Type}.
Variable service : Service S.
Variable strconv : Strconv.

Definition handler (op : Operation) : Request -> M unit :=
  match op with
  | OpGet => GetProduct service strconv
  | OpUpdate => UpdateProduct service strconv
  | OpDelete => DeleteProduct service
  end.

(** The call an operation makes for the request [r] (Update makes none
    when the body does not decode), and the error the service returns
    from it in state [s], if any. *)
Definition service_call (op : Operation) (r : Request) : option Call :=
  match op with
  | OpGet => Some (CallGetProduct (idFromRequest r))
  | OpUpdate =>
      match json.Decode_ProductUpdate (Body r) mkProductUpdate with
      | (upd, None) => Some (CallUpdateProduct (idFromRequest r) upd)
      | (_, Some _) => None
      end
  | OpDelete => Some (CallDeleteProduct (idFromRequest r))
  end.

Definition service_error (op : Operation) (r : Request) (s : S) : option error :=
  match service_call op r with
  | Some (CallGetProduct id) => snd (fst (svc_GetProduct service id s))
  | Some (CallUpdateProduct id upd) => snd (fst (svc_UpdateProduct service id upd s))
  | Some (CallDeleteProduct id) => fst (svc_DeleteProduct service id s)
  | _ => None
  end.

(** The message each operation logs with an unexpected failure. *)
Definition failure_message (op : Operation) : string :=
  match op with
  | OpGet => "failed to get product"
  | OpUpdate => "failed to update product"
  | OpDelete => "failed to delete product"
  end.

End Operations.

(** The call of an operation on one product for the identifier [id], the
    update being the one decoded from the body of [r]; and the error the
    service returns from a call in the state [s], if any. *)
Definition call_with_id (op : Operation) (id : string) (r : Request) : Call :=
  match op with
  | OpGet => CallGetProduct id
  | OpUpdate =>
      CallUpdateProduct id (fst (json.Decode_ProductUpdate (Body r) mkProductUpdate))
  | OpDelete => CallDeleteProduct id
  end.

Definition call_error {S : Type} (service : Service S) (c : Call) (s : S)
  : option error :=
  match c with
  | CallCreateProduct p => snd (fst (svc_CreateProduct service p s))
  | CallGetProduct id => snd (fst (svc_GetProduct service id s))
  | CallListProducts f => snd (fst (svc_ListProducts service f s))
  | CallUpdateProduct id upd => snd (fst (svc_UpdateProduct service id upd s))
  | CallDeleteProduct id => fst (svc_DeleteProduct service id s)
  end.

(** The response writer after the encoder has run on it, the response of
    a success with a body, and the record of an unexpected failure. *)
Definition write_encoded (out : option string) (rw : ResponseWriter) : ResponseWriter :=
  match out with
  | Some b => Write b rw
  | None => rw
  end.

Definition json_response (code : Z) (out : option string) : ResponseWriter :=
  write_encoded out
    (WriteHeader code (Header_Set "Content-Type" "application/json" NewResponseWriter)).

Definition failure_record (msg id : string) (e : error) : LogRecord :=
  mkLogRecord LevelInfo msg [("id", AnyString id); ("error", AnyError e)].

(** The two routes that read a body, their handlers, and the error, if
    any, that decoding the body of a request gives there. *)
Inductive BodyRoute : Type := PostProducts | PatchProduct.

Definition body_handler {S : Type} (service : Service S) (strconv : Strconv)
           (route : BodyRoute) : Request -> M unit :=
  match route with
  | PostProducts => CreateProduct service strconv
  | PatchProduct => UpdateProduct service strconv
  end.

Definition body_decode_error (strconv : Strconv) (route : BodyRoute) (body : string)
  : option json.DecodeError :=
  match route with
  | PostProducts => snd (json.Decode_Product strconv body Product_zero)
  | PatchProduct => snd (json.Decode_ProductUpdate body mkProductUpdate)
  end.

(** Whether a field of a product is empty in the sense of [omitempty]. *)
Definition field_is_empty (f : json.field) (p : Product) : bool :=
  match f with
  | json.fID => json.isEmptyString (Product.ID p)
  | json.fName => json.isEmptyString (Product.Name p)
  | json.fDescription => json.isEmptyString (Product.Description p)
  | json.fPrice => json.isEmptyFloat (Product.Price p)
  end.

(** A text between double quotes, to write the JSON of the examples. *)
Definition quoted (text : string) : string :=
  String json.quote (text +:+ String json.quote EmptyString).

(** The body of the Create example, the entity with the name X alone, and
    the JSON text expected back once the service has assigned 42. *)
Definition body_name_X : string := "{" +:+ quoted "name" +:+ ":" +:+ quoted "X" +:+ "}".
Definition json_id_42_name_X : string :=
  "{" +:+ quoted "id" +:+ ":" +:+ quoted "42" +:+ ","
      +:+ quoted "name" +:+ ":" +:+ quoted "X" +:+ "}".

(** A price that JSON can carry: neither an infinity nor a NaN. *)
Definition price_is_finite (x : Price) : bool :=
  match x with
  | S754_infinity _ | S754_nan => false
  | _ => true
  end.

(* ===================================================================== *)
(** * Notions used in the proofs about the wire form *)
(* ===================================================================== *)

(** Every byte, for proofs that go through all of them. *)
Definition all_bytes : list ascii :=
  List.map (fun n => ascii_of_nat n) (List.seq 0 256).

Definition is_lead (sz : nat) (c0 c1 : ascii) : bool :=
  match utf8.first (byteZ c0) with
  | Some (n, lo, hi) => (n =? sz)%nat && (lo <=? byteZ c1) && (byteZ c1 <=? hi)
  | None => false
  end.

Definition rune2 (c0 c1 : ascii) : Z :=
  Z.lor (Z.shiftl (Z.land (byteZ c0) 0x1F) 6) (Z.land (byteZ c1) 0x3F).
Definition rune3 (c0 c1 c2 : ascii) : Z :=
  Z.lor (Z.lor (Z.shiftl (Z.land (byteZ c0) 0x0F) 12)
               (Z.shiftl (Z.land (byteZ c1) 0x3F) 6))
        (Z.land (byteZ c2) 0x3F).
Definition rune4 (c0 c1 c2 c3 : ascii) : Z :=
  Z.lor (Z.lor (Z.lor (Z.shiftl (Z.land (byteZ c0) 0x07) 18)
                      (Z.shiftl (Z.land (byteZ c1) 0x3F) 12))
               (Z.shiftl (Z.land (byteZ c2) 0x3F) 6))
        (Z.land (byteZ c3) 0x3F).

(** What the leading two bytes of a sequence of three or four bytes give:
    the bits they contribute, in the range the encoder expects, and the
    bytes the encoder writes back for these bits. *)
Definition lead3_facts (c0 c1 : ascii) : bool :=
  let a := Z.land (byteZ c0) 0x0F in
  let b := Z.land (byteZ c1) 0x3F in
  (0 <=? a) && (a <=? 15) && (0 <=? b) && (b <? 64)
  && implb (a =? 0) (0x20 <=? b) && implb (a =? 13) (b <? 0x20)
  && Ascii.eqb (zbyte (Z.lor 0xE0 a)) c0 && Ascii.eqb (zbyte (Z.lor 0x80 b)) c1.

Definition lead4_facts (c0 c1 : ascii) : bool :=
  let a := Z.land (byteZ c0) 0x07 in
  let b := Z.land (byteZ c1) 0x3F in
  (0 <=? a) && (a <=? 4) && (0 <=? b) && (b <? 64)
  && implb (a =? 0) (0x10 <=? b) && implb (a =? 4) (b <? 0x10)
  && Ascii.eqb (zbyte (Z.lor 0xF0 a)) c0 && Ascii.eqb (zbyte (Z.lor 0x80 b)) c1.

Definition leads_at (c0 c1 : ascii) : bool :=
  implb (is_lead 2 c0 c1)
        (String.eqb (utf8.EncodeRune (rune2 c0 c1)) (String c0 (String c1 "")))
  && implb (is_lead 3 c0 c1) (lead3_facts c0 c1)
  && implb (is_lead 4 c0 c1) (lead4_facts c0 c1).

Definition cont_at (c : ascii) : bool :=
  implb (utf8.cont (byteZ c))
    (let d := Z.land (byteZ c) 0x3F in
     (0 <=? d) && (d <? 64) && Ascii.eqb (zbyte (Z.lor 0x80 d)) c).

Fixpoint high_bytes (s : string) : bool :=
  match s with
  | EmptyString => true
  | String c rest => (utf8.RuneSelf <=? byteZ c) && high_bytes rest
  end.

(** [bs] is the encoding of the rune [r] in two to four bytes. *)
Definition multi_byte (bs : string) (r : Z) : Prop :=
  utf8.EncodeRune r = bs
  /\ (forall t, utf8.DecodeRune (bs +:+ t) = (r, String.length bs))
  /\ high_bytes bs = true
  /\ (2 <= String.length bs)%nat.

Definition ascii_out (c : ascii) : string :=
  if json.htmlSafe (byteZ c) then String c "" else json.escape_ascii c.

Definition in_string (ps : list json.parse_state) : json.scanner :=
  json.mkScanner json.stateInString ps.

(** The scanner, inside a string literal, reads [out] and is inside the
    literal still, [out] added to what it has read of it. *)
Definition scans_in_string (out : string) : Prop :=
  forall ps lit toks rest,
    json.readValue (in_string ps) (Some lit) toks true (out +:+ rest)
    = json.readValue (in_string ps) (Some (lit +:+ out)) toks true rest.

(** A byte that is neither the quote, nor the backslash, nor a control
    character. *)
Definition plain_byte (c : ascii) : bool :=
  negb (Ascii.eqb c json.quote) && negb (Ascii.eqb c json.backslash)
  && negb (byteZ c <? 0x20).

Definition simple_escape (c : ascii) : bool :=
  json.byte_is c "b" || json.byte_is c "f" || json.byte_is c "n"
  || json.byte_is c "r" || json.byte_is c "t"
  || Ascii.eqb c json.backslash || json.byte_is c "/" || Ascii.eqb c json.quote.

(** The states in which a quote begins a string literal. *)
Definition begins_string (st : json.step_state) : bool :=
  match st with
  | json.stateBeginValue | json.stateBeginValueOrEmpty
  | json.stateBeginString | json.stateBeginStringOrEmpty => true
  | _ => false
  end.

(** The states of the scanner inside a number, and those in which the
    number may end. *)
Definition number_state (st : json.step_state) : bool :=
  match st with
  | json.stateNeg | json.state1 | json.state0 | json.stateDot | json.stateDot0
  | json.stateE | json.stateESign | json.stateE0 => true
  | _ => false
  end.

Definition number_end (st : json.step_state) : bool :=
  match st with
  | json.state1 | json.state0 | json.stateDot0 | json.stateE0 => true
  | _ => false
  end.

(** The scanner, inside a number in the state [st], reads [text] as the
    rest of the number. *)
Fixpoint scans_number_from (st : json.step_state) (text : string) : bool :=
  match text with
  | EmptyString => number_end st
  | String c rest =>
      match json.scan_step (json.mkScanner st []) c with
      | (json.scanContinue, s') =>
          number_state (json.step s') && scans_number_from (json.step s') rest
      | _ => false
      end
  end.

(** [text] is a JSON number: the scanner, where a value begins, reads all
    of it as one number. *)
Definition is_number (text : string) : bool :=
  match text with
  | EmptyString => false
  | String c rest =>
      match json.scan_step (json.mkScanner json.stateBeginValue []) c with
      | (json.scanBeginLiteral, s') =>
          number_state (json.step s') && scans_number_from (json.step s') rest
      | _ => false
      end
  end.

(** In an object, [text] followed by a comma or by the closing brace is
    read as one literal, the value of the key before it. *)
Definition reads_as_value (text : string) : Prop :=
  (forall ps toks rest,
      json.readValue (json.mkScanner json.stateBeginValue (json.parseObjectValue :: ps))
                     None toks true (text +:+ String "," rest)
      = json.readValue (json.mkScanner json.stateBeginString (json.parseObjectKey :: ps))
                       None (json.TokLiteral text :: toks) true rest)
  /\ (forall toks rest,
         json.readValue (json.mkScanner json.stateBeginValue [json.parseObjectValue])
                        None toks true (text +:+ String "}" rest)
         = inr (rev (json.TokEndObject :: json.TokLiteral text :: toks))).

(** The members written for a product, each with the field it comes from
    and the text of its value, when the price can be written. *)
Definition field_members (sc : Strconv) (p : Product) : list (json.field * string) :=
  ((if json.isEmptyString (Product.ID p) then []
    else [(json.fID, json.appendString (Product.ID p))])
   ++ (if json.isEmptyString (Product.Name p) then []
       else [(json.fName, json.appendString (Product.Name p))])
   ++ (if json.isEmptyString (Product.Description p) then []
       else [(json.fDescription, json.appendString (Product.Description p))])
   ++ (if json.isEmptyFloat (Product.Price p) then []
       else [(json.fPrice, FormatFloat sc (Product.Price p))]))%list.

Definition member_text (m : json.field * string) : string :=
  String json.quote (json.field_name (fst m) +:+ String json.quote (":" +:+ snd m)).

Fixpoint members_text (first : bool) (fm : list (json.field * string)) : string :=
  match fm with
  | [] => ""
  | m :: fm' =>
      (if first then "" else ",") +:+ member_text m +:+ members_text false fm'
  end.

Definition member_tokens (fm : list (json.field * string)) : list json.token :=
  flat_map (fun m => [json.TokLiteral (quoted (json.field_name (fst m)));
                      json.TokLiteral (snd m)]) fm.

(** [literalStore] of the value of a member into its field, the saved
    error carried along. *)
Definition store (sc : Strconv) (acc : Product * bool) (m : json.field * string)
  : Product * bool :=
  let '(p', b) := json.literalStore sc (snd m) (fst m) (fst acc) in
  (p', snd acc || b).

(** The text strconv writes for a price that is written is a JSON number
    that strconv parses back to that price. *)
Definition price_round_trips (sc : Strconv) (x : Price) : Prop :=
  json.isEmptyFloat x = false ->
  is_number (FormatFloat sc x) = true /\ ParseFloat sc (FormatFloat sc x) = Some x.

(** The product decoded from the encoding of [p]: [p] itself, but for a
    price that is a zero, which is left out and read as the zero value. *)
Definition decoded (p : Product) : Product :=
  Product.mk (Product.ID p) (Product.Name p) (Product.Description p)
             (if json.isEmptyFloat (Product.Price p) then S754_zero false
              else Product.Price p).

(* ===================================================================== *)
(** * The five operations together *)
(* ===================================================================== *)

(** The five handler functions [NewHandler] registers, and for each the
    statuses its source text writes. *)
Inductive Endpoint : Type :=
| EpCreateProduct | EpListProducts | EpGetProduct | EpUpdateProduct | EpDeleteProduct.

Definition endpoint {S : Type} (service : Service S) (strconv : Strconv)
           (ep : Endpoint) : Request -> M unit :=
  match ep with
  | EpCreateProduct => CreateProduct service strconv
  | EpListProducts => ListProducts service strconv
  | EpGetProduct => GetProduct service strconv
  | EpUpdateProduct => UpdateProduct service strconv
  | EpDeleteProduct => DeleteProduct service
  end.

Definition statuses (ep : Endpoint) : list Z :=
  match ep with
  | EpCreateProduct => [StatusCreated; StatusBadRequest; StatusInternalServerError]
  | EpListProducts => [StatusOK; StatusInternalServerError]
  | EpGetProduct => [StatusOK; StatusNotFound; StatusInternalServerError]
  | EpUpdateProduct =>
      [StatusOK; StatusBadRequest; StatusNotFound; StatusInternalServerError]
  | EpDeleteProduct => [StatusNoContent; StatusNotFound; StatusInternalServerError]
  end.

(** The message an operation logs when the service fails unexpectedly. *)
Definition endpoint_message (ep : Endpoint) : string :=
  match ep with
  | EpCreateProduct => "failed to create product"
  | EpListProducts => "failed to list products"
  | EpGetProduct => "failed to get product"
  | EpUpdateProduct => "failed to update product"
  | EpDeleteProduct => "failed to delete product"
  end.

(** A call of the method of the service that belongs to an operation. *)
Definition call_of (ep : Endpoint) (c : Call) : bool :=
  match ep, c with
  | EpCreateProduct, CallCreateProduct _
  | EpListProducts, CallListProducts _
  | EpGetProduct, CallGetProduct _
  | EpUpdateProduct, CallUpdateProduct _ _
  | EpDeleteProduct, CallDeleteProduct _ => true
  | _, _ => false
  end.

(** The attributes of the record an operation logs with a failure of the
    service: the identifier, for the three operations on one product, and
    the error. *)
Definition endpoint_attrs (ep : Endpoint) (r : Request) (e : error)
  : list (string * any) :=
  match ep with
  | EpCreateProduct | EpListProducts => [("error", AnyError e)]
  | _ => [("id", AnyString (idFromRequest r)); ("error", AnyError e)]
  end.

(** The product the service returns to Get or Update when it succeeds on
    the request [r] in state [s]. *)
Definition service_product {S : Type} (service : Service S) (op : Operation)
           (r : Request) (s : S) : option Product :=
  match service_call op r with
  | Some (CallGetProduct id) =>
      match svc_GetProduct service id s with
      | ((product, None), _) => Some product
      | _ => None
      end
  | Some (CallUpdateProduct id upd) =>
      match svc_UpdateProduct service id upd s with
      | ((product, None), _) => Some product
      | _ => None
      end
  | _ => None
  end.

(* ===================================================================== *)
(** * The router: path cleaning, gorilla/mux and [NewHandler] *)
(* ===================================================================== *)

Definition StatusMovedPermanently : Z := 301.
Definition StatusMethodNotAllowed : Z := 405.

Definition MethodGet : string := "GET".
Definition MethodPost : string := "POST".
Definition MethodPatch : string := "PATCH".
Definition MethodDelete : string := "DELETE".

(** [strings.Split (p, "/")]: the path_elements of a path, the empty ones
    included. *)
Fixpoint path_elements (p : string) : list string :=
  match p with
  | EmptyString => [EmptyString]
  | String c rest =>
      if Ascii.eqb c "/" then EmptyString :: path_elements rest
      else
        match path_elements rest with
        | el :: els => String c el :: els
        | [] => [String c EmptyString]
        end
  end.

(** [path.Clean] on a rooted path, by the rules of its documentation: an
    empty element (from a doubled or a final slash) and the element [.] are
    dropped, an element [..] takes away the element before it, and does
    nothing at the root; the result is rooted and has no final slash. *)
Definition clean_step (out : list string) (el : string) : list string :=
  if String.eqb el EmptyString || String.eqb el "." then out
  else if String.eqb el ".." then removelast out
  else (out ++ [el])%list.

Definition path_Clean (p : string) : string :=
  "/" +:+ String.concat "/" (fold_left clean_step (path_elements p) []).

Fixpoint ends_with_slash (p : string) : bool :=
  match p with
  | EmptyString => false
  | String c EmptyString => Ascii.eqb c "/"
  | String _ rest => ends_with_slash rest
  end.

(** [cleanPath] of gorilla/mux: the canonical form of a path, rooted,
    cleaned, its final slash kept. *)
Definition cleanPath (p : string) : string :=
  match p with
  | EmptyString => "/"
  | String c _ =>
      let p := if Ascii.eqb c "/" then p else String "/" p in
      let np := path_Clean p in
      if ends_with_slash p && negb (String.eqb np "/") then np +:+ "/" else np
  end.

Module mux.

(** A path template, cut at its variables.  Only a variable without a
    pattern of its own is covered, which stands for one or more bytes
    other than the slash. *)
Inductive part : Type :=
| Raw (text : string)
| Var (name : string).

(** The parts of a template; [None] for unbalanced braces or an empty
    name, as for a variable with a pattern ([{name:pattern}]) and for
    nested braces, which are left out here.  [raw] is the raw text read so
    far, [name] the name read so far inside braces. *)
Fixpoint parse_template (tpl : string) (raw : string) (name : option string)
  : option (list part) :=
  match tpl with
  | EmptyString =>
      match name with
      | None => Some [Raw raw]
      | Some _ => None
      end
  | String c rest =>
      match name with
      | None =>
          if Ascii.eqb c "{" then
            match parse_template rest EmptyString (Some EmptyString) with
            | Some ps => Some (Raw raw :: ps)
            | None => None
            end
          else if Ascii.eqb c "}" then None
          else parse_template rest (raw +:+ String c EmptyString) None
      | Some n =>
          if Ascii.eqb c "}" then
            match n with
            | EmptyString => None
            | _ =>
                match parse_template rest EmptyString None with
                | Some ps => Some (Var n :: ps)
                | None => None
                end
            end
          else if Ascii.eqb c "{" || Ascii.eqb c ":" then None
          else parse_template rest raw (Some (n +:+ String c EmptyString))
      end
  end.

(** The length of the longest prefix without a slash. *)
Fixpoint no_slash_run (s : string) : nat :=
  match s with
  | EmptyString => O
  | String c rest => if Ascii.eqb c "/" then O else Datatypes.S (no_slash_run rest)
  end.

(** The first success of [try] on [k], [k - 1], ..., [1]. *)
Fixpoint longest_first {A : Type} (k : nat) (try : nat -> option A) : option A :=
  match k with
  | O => None
  | Datatypes.S k' =>
      match try k with
      | Some x => Some x
      | None => longest_first k' try
      end
  end.

(** The match of the regular expression of a template, anchored at both
    ends, against a path: the variables with the text each one matched.  A
    variable is greedy: it takes the longest run of bytes other than the
    slash with which the rest of the template still matches. *)
Fixpoint match_parts (ps : list part) (path : string) : option (list (string * string)) :=
  match ps with
  | [] =>
      match path with
      | EmptyString => Some []
      | _ => None
      end
  | Raw text :: ps' =>
      if String.prefix text path
      then match_parts ps' (drop_bytes (String.length text) path)
      else None
  | Var name :: ps' =>
      longest_first (no_slash_run path)
        (fun k =>
           match match_parts ps' (drop_bytes k path) with
           | Some vars => Some ((name, substring 0 k path) :: vars)
           | None => None
           end)
  end.

(** A route as [router.HandleFunc (tpl, f).Methods (methods...)] makes it:
    a path matcher, then a method matcher, and the handler.  [regexp] is
    [None] for a route whose template is in error. *)
Record Route (H : Type) : Type := mkRoute {
  regexp : option (list part);
  methods : list string;
  handler : H
}.
Arguments mkRoute {H}.
Arguments regexp {H}.
Arguments methods {H}.
Arguments handler {H}.

Definition Router (H : Type) : Type := list (Route H).

Definition NewRouter {H : Type} : Router H := [].

(** [router.HandleFunc (tpl, f).Methods (methods...)]: the route is added
    after those already there.  (The method names of net/http are in upper
    case already.) *)
Definition HandleFunc {H : Type} (tpl : string) (f : H) (methods : list string)
           (router : Router H) : Router H :=
  (router ++ [mkRoute (parse_template tpl EmptyString None) methods f])%list.

Inductive MatchError : Type := ErrMethodMismatch | ErrNotFound.

(** [RouteMatch]: the handler and the variables of the route that matched,
    and the error of the match. *)
Record RouteMatch (H : Type) : Type := mkRouteMatch {
  Handler : option H;
  Vars : option (gmap string string);
  MatchErr : option MatchError
}.
Arguments mkRouteMatch {H}.
Arguments Handler {H}.
Arguments Vars {H}.
Arguments MatchErr {H}.

Definition is_mismatch (e : option MatchError) : bool :=
  match e with
  | Some ErrMethodMismatch => true
  | _ => false
  end.

(** [match.MatchErr = nil] when it is [ErrMethodMismatch]: done each time
    a matcher of a route matches. *)
Definition clear_mismatch {H : Type} (m : RouteMatch H) : RouteMatch H :=
  if is_mismatch (MatchErr m) then mkRouteMatch (Handler m) (Vars m) None else m.

(** [extractVars]: each variable is stored under its name. *)
Definition extractVars (vars : list (string * string)) (output : gmap string string)
  : gmap string string :=
  fold_left (fun out nv => <[fst nv := snd nv]> out) vars output.

(** [Route.Match]: the path matcher, then the method matcher.  A path that
    does not match ends the attempt; a method that does not match is
    remembered as [ErrMethodMismatch]. *)
Definition Route_Match {H : Type} (r : Route H) (method path : string)
           (m : RouteMatch H) : bool * RouteMatch H :=
  match regexp r with
  | None => (false, m)
  | Some parts =>
      match match_parts parts path with
      | None =>
          (false,
           match MatchErr m with
           | Some ErrNotFound => mkRouteMatch (Handler m) (Vars m) None
           | _ => m
           end)
      | Some vars =>
          let m := clear_mismatch m in
          if existsb (String.eqb method) (methods r) then
            let m := clear_mismatch m in
            (true,
             mkRouteMatch
               (match Handler m with
                | None => Some (handler r)
                | Some h => Some h
                end)
               (Some (extractVars vars (default ∅ (Vars m))))
               (MatchErr m))
          else (false, mkRouteMatch (Handler m) (Vars m) (Some ErrMethodMismatch))
      end
  end.

(** [Router.Match]: the routes in the order they were added, the first
    that matches wins.  With no route matching, and neither a
    MethodNotAllowedHandler nor a NotFoundHandler set on the router, the
    error of the match is [ErrMethodMismatch] if some route matched but
    for the method, and [ErrNotFound] otherwise. *)
Fixpoint match_routes {H : Type} (routes : list (Route H)) (method path : string)
         (m : RouteMatch H) : bool * RouteMatch H :=
  match routes with
  | [] => (false, m)
  | r :: routes' =>
      let '(ok, m') := Route_Match r method path m in
      if ok then (true, m') else match_routes routes' method path m'
  end.

Definition Router_Match {H : Type} (router : Router H) (method path : string)
           (m : RouteMatch H) : bool * RouteMatch H :=
  let '(ok, m') := match_routes router method path m in
  if ok then (true, m')
  else if is_mismatch (MatchErr m') then (false, m')
  else (false, mkRouteMatch (Handler m') (Vars m') (Some ErrNotFound)).

End mux.

(** An [*http.Request] as the router receives it: the method, the path of
    the URL ([r.URL.Path]) and what the handlers read.  [URL_String p] is
    the text [url.String ()] gives for the URL of the request once its path
    is set to [p]; net/url is not defined here. *)
Record ServerRequest : Type := mkServerRequest {
  Method : string;
  URL_Path : string;
  URL_String : string -> string;
  request : Request
}.

(** [requestWithVars]: the request with the variables of the match
    attached, in the place of any it carried. *)
Definition requestWithVars (r : Request) (vars : option (gmap string string))
  : Request :=
  mkRequest (Body r) (URL_Query r) (default ∅ vars).

Section Router.

Context {S : Type}.
Variable service : Service S.
Variable strconv : Strconv.

#[local] Existing Instances M_ret M_bind.

(** [http.Error (w, error, code)] and [http.NotFound]. *)
Definition http_Error (error : string) (code : Z) : M (S := S) unit :=
  on_writer (Header_Set "Content-Type" "text/plain; charset=utf-8");;
  on_writer (Header_Set "X-Content-Type-Options" "nosniff");;
  on_writer (WriteHeader code);;
  on_writer (Write (error +:+ String json.newline EmptyString)).

Definition http_NotFound : M (S := S) unit :=
  http_Error "404 page not found" StatusNotFound.

(** The handler gorilla/mux answers a method mismatch with. *)
Definition methodNotAllowed : M (S := S) unit :=
  on_writer (WriteHeader StatusMethodNotAllowed).

(** [Router.ServeHTTP]: a path that is not in canonical form is answered
    by a redirection to its canonical form; otherwise the handler of the
    route that matches is run on the request with the variables of the
    match, and without a match the answer is 405 or 404. *)
Definition ServeHTTP (router : mux.Router (Request -> M (S := S) unit))
           (req : ServerRequest) : M (S := S) unit :=
  let p := cleanPath (URL_Path req) in
  if negb (String.eqb p (URL_Path req)) then
    on_writer (Header_Set "Location" (URL_String req p));;
    on_writer (WriteHeader StatusMovedPermanently)
  else
    let '(ok, m) :=
      mux.Router_Match router (Method req) (URL_Path req)
                       (mux.mkRouteMatch None None None) in
    match (if ok then mux.Handler m else None) with
    | Some h => h (requestWithVars (request req) (mux.Vars m))
    | None =>
        if mux.is_mismatch (mux.MatchErr m) then methodNotAllowed
        else http_NotFound
    end.

(** [NewHandler (s, l)]: the router with the five routes; it is the
    [http.Handler] embedded in the [Handler] the function returns. *)
Definition NewHandler : mux.Router (Request -> M (S := S) unit) :=
  let router := mux.NewRouter in
  let router :=
    mux.HandleFunc "/products" (CreateProduct service strconv) [MethodPost] router in
  let router :=
    mux.HandleFunc "/products" (ListProducts service strconv) [MethodGet] router in
  let router :=
    mux.HandleFunc "/products/{productID}" (GetProduct service strconv)
                   [MethodGet] router in
  let router :=
    mux.HandleFunc "/products/{productID}" (UpdateProduct service strconv)
                   [MethodPatch] router in
  let router :=
    mux.HandleFunc "/products/{productID}" (DeleteProduct service)
                   [MethodDelete] router in
  router.

(** The handler [NewHandler] returns, serving one request on a fresh
    response writer, the service being in state [s]. *)
Definition serve_http (req : ServerRequest) (s : S) : World S :=
  snd (ServeHTTP NewHandler req (NewWorld s)).

End Router.

(** The identifier in a path of the form [/products/{productID}]: what
    follows [/products/], when it is not empty and has no slash. *)
Definition productID_of_path (path : string) : option string :=
  if String.prefix "/products/" path then
    let id := drop_bytes 10 path in
    match id with
    | EmptyString => None
    | _ => if (mux.no_slash_run id =? String.length id)%nat then Some id else None
    end
  else None.

(** The worlds the router leaves behind when it answers by itself. *)
Definition redirected {S : Type} (s : S) (location : string) : World S :=
  mkWorld s [] []
    (WriteHeader StatusMovedPermanently
       (Header_Set "Location" location NewResponseWriter)).

Definition not_allowed {S : Type} (s : S) : World S :=
  mkWorld s [] [] (WriteHeader StatusMethodNotAllowed NewResponseWriter).

Definition not_found {S : Type} (s : S) : World S :=
  mkWorld s [] []
    (Write ("404 page not found" +:+ String json.newline EmptyString)
       (WriteHeader StatusNotFound
          (Header_Set "X-Content-Type-Options" "nosniff"
             (Header_Set "Content-Type" "text/plain; charset=utf-8"
                NewResponseWriter)))).

(** An identifier that a path can carry to a handler: not empty, without
    a slash, and neither of the two path_elements that cleaning removes. *)
Fixpoint has_slash (s : string) : bool :=
  match s with
  | EmptyString => false
  | String c rest => Ascii.eqb c "/" || has_slash rest
  end.

Definition routable_id (id : string) : Prop :=
  id <> EmptyString /\ has_slash id = false /\ id <> "." /\ id <> "..".

(** The method and the path of each of the five routes, and the variables
    the router attaches on it; [id] counts for the three routes on one
    product only. *)
Definition endpoint_method (ep : Endpoint) : string :=
  match ep with
  | EpCreateProduct => MethodPost
  | EpListProducts | EpGetProduct => MethodGet
  | EpUpdateProduct => MethodPatch
  | EpDeleteProduct => MethodDelete
  end.

Definition on_one_product (ep : Endpoint) : bool :=
  match ep with
  | EpCreateProduct | EpListProducts => false
  | _ => true
  end.

Definition endpoint_path (ep : Endpoint) (id : string) : string :=
  if on_one_product ep then "/products/" +:+ id else "/products".

Definition endpoint_vars (ep : Endpoint) (id : string) : gmap string string :=
  if on_one_product ep then {["productID" := id]} else ∅.

(** The identifier a call of the service carries, if it carries one. *)
Definition call_id (c : Call) : option string :=
  match c with
  | CallGetProduct id | CallUpdateProduct id _ | CallDeleteProduct id => Some id
  | _ => None
  end.

(* ===================================================================== *)
(** * [Price.String]: fmt and strconv at the verb [%.2f] *)
(* ===================================================================== *)

(** The decimal text of a natural number, as strconv writes the digits
    before the point. *)
Definition decimal (n : Z) : string :=
  DecimalString.NilZero.string_of_uint (N.to_uint (Z.to_N n)).

Definition digit (d : Z) : ascii := zbyte (48 + d).

(** [num / den] rounded to the nearest integer, a tie going to the even
    one, for [0 <= num] and [0 < den]: strconv rounds the exact decimal
    expansion of the float so. *)
Definition round_half_even (num den : Z) : Z :=
  let q := num / den in
  let r := num mod den in
  if 2 * r <? den then q
  else if den <? 2 * r then q + 1
  else if Z.even q then q else q + 1.

(** The number of hundredths nearest to [m * 2 ^ e]. *)
Definition hundredths (m : positive) (e : Z) : Z :=
  if 0 <=? e then Z.pos m * 2 ^ e * 100
  else round_half_even (Z.pos m * 100) (2 ^ (- e)).

(** The layout [%.2f] of [n] hundredths: the sign if the sign bit is set,
    the digits before the point, at least one, and two digits after
    it. *)
Definition fixed2 (neg : bool) (n : Z) : string :=
  (if neg then "-" else EmptyString)
    +:+ decimal (n / 100)
    +:+ String "." (String (digit (n mod 100 / 10))
                      (String (digit (n mod 10)) EmptyString)).

(** [func (p Price) String () string], that is [fmt.Sprintf ("%.2f", p)]:
    the verb [%f] formats the float itself (the method [String] is not
    called back), with two digits after the point.  A NaN and the
    infinities are written by name, the positive infinity with its
    sign. *)
Definition Price_String (p : Price) : string :=
  match p with
  | S754_nan => "NaN"
  | S754_infinity neg => if neg then "-Inf" else "+Inf"
  | S754_zero neg => fixed2 neg 0
  | S754_finite neg m e => fixed2 neg (hundredths m e)
  end.

(** Reading a text in the layout [%.2f] back: the sign and the number of
    hundredths. *)
Fixpoint split_at_point (s : string) : option (string * string) :=
  match s with
  | EmptyString => None
  | String c rest =>
      if Ascii.eqb c "." then Some (EmptyString, rest)
      else
        match split_at_point rest with
        | Some (front, back) => Some (String c front, back)
        | None => None
        end
  end.

Definition digit_value (c : ascii) : option Z :=
  if json.isDigit c then Some (byteZ c - 48) else None.

Definition read_fixed2 (text : string) : option (bool * Z) :=
  let '(neg, rest) :=
    match text with
    | String c rest => if Ascii.eqb c "-" then (true, rest) else (false, text)
    | EmptyString => (false, text)
    end in
  match split_at_point rest with
  | Some (front, String d1 (String d2 EmptyString)) =>
      match DecimalString.NilZero.uint_of_string front, digit_value d1, digit_value d2 with
      | Some u, Some a, Some b => Some (neg, Z.of_N (N.of_uint u) * 100 + a * 10 + b)
      | _, _, _ => None
      end
  | _ => None
  end.

(* ===================================================================== *)
(** * Notions used in the statements about the JSON texts *)
(* ===================================================================== *)

(** A text of white space alone, the empty text included. *)
Fixpoint all_space (s : string) : bool :=
  match s with
  | EmptyString => true
  | String c rest => json.isSpace c && all_space rest
  end.

(** A byte that can stand in a page of HTML as it is: no control
    character and none of [<], [>] and [&]. *)
Definition html_safe_byte (c : ascii) : bool :=
  let b := byteZ c in
  (0x20 <=? b) && negb ((b =? 0x3C) || (b =? 0x3E) || (b =? 0x26)).

Fixpoint html_safe (s : string) : bool :=
  match s with
  | EmptyString => true
  | String c rest => html_safe_byte c && html_safe rest
  end.

(** [s] is made of whole UTF-8 sequences: checking a text that starts
    with [s] comes down to checking what follows [s]. *)
Definition whole_runes (s : string) : Prop :=
  forall t, byte_loop utf8.valid_step 0 (s +:+ t) = byte_loop utf8.valid_step 0 t.

(** What the decoder gives back for a string the encoder wrote: each
    byte that is no part of a valid UTF-8 sequence replaced by the encoding
    of U+FFFD, the valid sequences kept. *)
Definition coerce_step (s : string) : option (string * nat) :=
  let '(r, size) := utf8.DecodeRune s in
  if (r =? utf8.RuneError) && (size =? 1)%nat
  then Some (utf8.EncodeRune utf8.RuneError, 1%nat)
  else Some (substring 0 size s, size).

Definition coerced (s : string) : string :=
  match byte_loop coerce_step 0 s with
  | Some t => t
  | None => EmptyString
  end.

(** The bytes a JSON number is made of. *)
Definition number_byte (c : ascii) : bool :=
  json.isDigit c || json.isDigit19 c || json.byte_is c "0" || json.byte_is c "."
  || json.byte_is c "e" || json.byte_is c "E" || json.byte_is c "+"
  || json.byte_is c "-".

Fixpoint number_bytes (s : string) : bool :=
  match s with
  | EmptyString => true
  | String c rest => number_byte c && number_bytes rest
  end.

(** A text that is safe as it is: valid UTF-8 made of whole sequences,
    without control character and without [<], [>] and [&]. *)
Definition safe_text (s : string) : Prop :=
  html_safe s = true /\ whole_runes s.

(** The product the decoder gives back for the encoding of [p]: the
    strings coerced to valid UTF-8, and a price that is a zero, which is
    left out of the encoding, read as the zero value. *)
Definition coerced_product (p : Product) : Product :=
  Product.mk (coerced (Product.ID p)) (coerced (Product.Name p))
             (coerced (Product.Description p))
             (if json.isEmptyFloat (Product.Price p) then S754_zero false
              else Product.Price p).

(** Members of an object for the string fields, written as the encoder
    writes a member: the field and the string that is its value. *)
Definition string_members (ms : list (json.field * string))
  : list (json.field * string) :=
  List.map (fun m => (fst m, json.appendString (snd m))) ms.

(** Storing the members in turn, each string coerced to valid UTF-8. *)
Definition stored (ms : list (json.field * string)) (p : Product) : Product :=
  fold_left (fun p m => json.set_field_string (fst m) (coerced (snd m)) p) ms p.

(** The scanner fed all of [data], from the state [s]: the state it ends
    in, [None] if it reports an error on the way. *)
Fixpoint scan_all (s : json.scanner) (data : string) : option json.scanner :=
  match data with
  | EmptyString => Some s
  | String c rest =>
      let '(op, s') := json.scan_step s c in
      match op with
      | json.scanError => None
      | _ => scan_all s' rest
      end
  end.

(** Inside a string literal the scanner reads [out] and is inside the
    literal still. *)
Definition scans_inside (out : string) : Prop :=
  forall ps, scan_all (in_string ps) out = Some (in_string ps).

(** The states in which a value has just ended: after a string or an
    object, and in a number that may end. *)
Definition at_value_end (st : json.step_state) : bool :=
  match st with
  | json.stateEndValue => true
  | _ => number_end st
  end.

(** The scanner once the value it is in has ended: back in the enclosing
    value, or at the end of the top-level value. *)
Definition after_value (ps : list json.parse_state) : json.scanner :=
  match ps with
  | [] => json.mkScanner json.stateEndTop []
  | _ => json.mkScanner json.stateEndValue ps
  end.

(** Where a value may begin, the scanner reads [text] as one value. *)
Definition scans_as_value (text : string) : Prop :=
  forall ps, exists st,
    scan_all (json.mkScanner json.stateBeginValue ps) text
    = Some (json.mkScanner st ps)
    /\ at_value_end st = true.

(** strconv writes every finite price that is not a zero as a JSON
    number. *)
Definition writes_numbers (sc : Strconv) : Prop :=
  forall x, json.isEmptyFloat x = false -> price_is_finite x = true ->
            is_number (FormatFloat sc x) = true.

(** The first byte of a body that is no white space: the byte its first
    JSON value begins with. *)
Fixpoint first_value_byte (body : string) : option ascii :=
  match body with
  | EmptyString => None
  | String c rest => if json.isSpace c then first_value_byte rest else Some c
  end.

(** The states of the scanner inside a literal: a string, a number or one
    of [true], [false] and [null]. *)
Definition in_literal (st : json.step_state) : bool :=
  match st with
  | json.stateInString | json.stateInStringEsc | json.stateInStringEscU _
  | json.stateLit _ => true
  | _ => number_state st
  end.

(** A key made of ASCII letters, its letters in upper case, and the field
    of [Product] whose name is the key without regard to case. *)
Definition ascii_letter (c : ascii) : bool :=
  let b := byteZ c in
  ((0x41 <=? b) && (b <=? 0x5A)) || ((0x61 <=? b) && (b <=? 0x7A)).

Fixpoint ascii_letters (s : string) : bool :=
  match s with
  | EmptyString => true
  | String c rest => ascii_letter c && ascii_letters rest
  end.

Fixpoint to_upper (s : string) : string :=
  match s with
  | EmptyString => EmptyString
  | String c rest => String (json.upper c) (to_upper rest)
  end.

Definition field_of_key (key : string) : option json.field :=
  List.find (fun f => String.eqb (to_upper (json.field_name f)) (to_upper key))
            json.fields.

(* ===================================================================== *)
(** * What each handler leaves behind *)
(* ===================================================================== *)

Section Runs.

Context {S : Type}.
Variable service : Service S.
Variable strconv : Strconv.

Lemma CreateProduct_run r s :
  serve (CreateProduct service strconv) r s =
  match json.Decode_Product strconv (Body r) Product_zero with
  | (_, Some _) => mkWorld s [] [] (WriteHeader StatusBadRequest NewResponseWriter)
  | (p, None) =>
      match svc_CreateProduct service p s with
      | ((_, Some e), s') =>
          mkWorld s' [CallCreateProduct p]
            [mkLogRecord LevelInfo "failed to create product" [("error", AnyError e)]]
            (WriteHeader StatusInternalServerError NewResponseWriter)
      | ((product, None), s') =>
          mkWorld s' [CallCreateProduct p] []
            (write_encoded (json.Encode_Product strconv product)
               (WriteHeader StatusCreated
                  (Header_Set "Content-Type" "application/json"
                     (Header_Set "Location" ("/products/" +:+ Product.ID product)
                        NewResponseWriter))))
      end
  end.
Proof.
  unfold serve, CreateProduct, call, mbind, M_bind.
  destruct (json.Decode_Product strconv (Body r) Product_zero) as [p [e|]]; simpl.
  - reflexivity.
  - destruct (svc_CreateProduct service p s) as [[product [e|]] s']; simpl.
    + reflexivity.
    + destruct (json.Encode_Product strconv product); reflexivity.
Qed.

Lemma GetProduct_run r s :
  serve (GetProduct service strconv) r s =
  let id := idFromRequest r in
  match svc_GetProduct service id s with
  | ((_, Some e), s') =>
      if errors_Is_NotFound e
      then mkWorld s' [CallGetProduct id] []
             (WriteHeader StatusNotFound NewResponseWriter)
      else mkWorld s' [CallGetProduct id]
             [failure_record "failed to get product" id e]
             (WriteHeader StatusInternalServerError NewResponseWriter)
  | ((product, None), s') =>
      mkWorld s' [CallGetProduct id] []
        (json_response StatusOK (json.Encode_Product strconv product))
  end.
Proof.
  unfold serve, GetProduct, call, mbind, M_bind; simpl.
  destruct (svc_GetProduct service (idFromRequest r) s) as [[product [e|]] s']; simpl.
  - destruct (errors_Is_NotFound e); reflexivity.
  - unfold json_response.
    destruct (json.Encode_Product strconv product); reflexivity.
Qed.

Lemma ListProducts_run r s :
  serve (ListProducts service strconv) r s =
  match schema.Decode_ProductFilter (schema.IgnoreUnknownKeys true schema.NewDecoder)
          mkProductFilter (URL_Query r) with
  | (_, Some err) =>
      mkWorld s []
        [mkLogRecord LevelInfo "failed to decode request" [("error", AnyMultiError err)]]
        (WriteHeader StatusBadRequest NewResponseWriter)
  | (f, None) =>
      match svc_ListProducts service f s with
      | ((_, Some e), s') =>
          mkWorld s' [CallListProducts f]
            [mkLogRecord LevelInfo "failed to list products" [("error", AnyError e)]]
            (WriteHeader StatusInternalServerError NewResponseWriter)
      | ((products, None), s') =>
          mkWorld s' [CallListProducts f] []
            (json_response StatusOK (json.Encode_Products strconv products))
      end
  end.
Proof.
  unfold serve, ListProducts, call, mbind, M_bind.
  destruct (schema.Decode_ProductFilter _ mkProductFilter (URL_Query r)) as [f [err|]];
    simpl.
  - reflexivity.
  - destruct (svc_ListProducts service f s) as [[products [e|]] s']; simpl.
    + reflexivity.
    + unfold json_response.
      destruct (json.Encode_Products strconv products); reflexivity.
Qed.

Lemma UpdateProduct_run r s :
  serve (UpdateProduct service strconv) r s =
  let id := idFromRequest r in
  match json.Decode_ProductUpdate (Body r) mkProductUpdate with
  | (_, Some _) => mkWorld s [] [] (WriteHeader StatusBadRequest NewResponseWriter)
  | (upd, None) =>
      match svc_UpdateProduct service id upd s with
      | ((_, Some e), s') =>
          if errors_Is_NotFound e
          then mkWorld s' [CallUpdateProduct id upd] []
                 (WriteHeader StatusNotFound NewResponseWriter)
          else mkWorld s' [CallUpdateProduct id upd]
                 [failure_record "failed to update product" id e]
                 (WriteHeader StatusInternalServerError NewResponseWriter)
      | ((product, None), s') =>
          mkWorld s' [CallUpdateProduct id upd] []
            (json_response StatusOK (json.Encode_Product strconv product))
      end
  end.
Proof.
  unfold serve, UpdateProduct, call, mbind, M_bind; simpl.
  destruct (json.Decode_ProductUpdate (Body r) mkProductUpdate) as [upd [e|]]; simpl.
  - reflexivity.
  - destruct (svc_UpdateProduct service (idFromRequest r) upd s)
      as [[product [e|]] s']; simpl.
    + destruct (errors_Is_NotFound e); reflexivity.
    + unfold json_response.
      destruct (json.Encode_Product strconv product); reflexivity.
Qed.

Lemma DeleteProduct_run r s :
  serve (DeleteProduct service) r s =
  let id := idFromRequest r in
  match svc_DeleteProduct service id s with
  | (Some e, s') =>
      if errors_Is_NotFound e
      then mkWorld s' [CallDeleteProduct id] []
             (WriteHeader StatusNotFound NewResponseWriter)
      else mkWorld s' [CallDeleteProduct id]
             [failure_record "failed to delete product" id e]
             (WriteHeader StatusInternalServerError NewResponseWriter)
  | (None, s') =>
      mkWorld s' [CallDeleteProduct id] []
        (WriteHeader StatusNoContent NewResponseWriter)
  end.
Proof.
  unfold serve, DeleteProduct, call, mbind, M_bind; simpl.
  destruct (svc_DeleteProduct service (idFromRequest r) s) as [[e|] s']; simpl.
  - destruct (errors_Is_NotFound e); reflexivity.
  - reflexivity.
Qed.

(** An operation whose service call fails with [e] answers by the
    classification of [e] alone. *)
Lemma failed_operation_run op r s e :
  service_error service op r s = Some e ->
  let st := serve (handler service strconv op) r s in
  calls st = option_list (service_call op r)
  /\ w st = WriteHeader (if errors_Is_NotFound e then StatusNotFound
                         else StatusInternalServerError) NewResponseWriter
  /\ log st = if errors_Is_NotFound e then []
              else [failure_record (failure_message op) (idFromRequest r) e].
Proof.
  unfold service_error, service_call.
  destruct op; simpl.
  - rewrite GetProduct_run; simpl.
    destruct (svc_GetProduct service (idFromRequest r) s) as [[product [e'|]] s'];
      simpl; intros H; inversion H; subst.
    destruct (errors_Is_NotFound e); auto.
  - rewrite UpdateProduct_run; simpl.
    destruct (json.Decode_ProductUpdate (Body r) mkProductUpdate) as [upd [d|]];
      [discriminate|].
    destruct (svc_UpdateProduct service (idFromRequest r) upd s)
      as [[product [e'|]] s']; simpl; intros H; inversion H; subst.
    destruct (errors_Is_NotFound e); auto.
  - rewrite DeleteProduct_run; simpl.
    destruct (svc_DeleteProduct service (idFromRequest r) s) as [[e'|] s'];
      simpl; intros H; inversion H; subst.
    destruct (errors_Is_NotFound e); auto.
Qed.

End Runs.

(* ===================================================================== *)
(** * Classification of the service's error: Get, Update, Delete *)
(* ===================================================================== *)

(** C2.  When the service answers Get, Update or Delete with an error of
    the NotFound kind (an error that [errors.Is] matches with
    [ErrNotFound]), the handler writes the status 404, no body, and hands
    nothing to the logger. *)
Theorem not_found_is_404_and_not_logged
        {S : Type} (service : Service S) (strconv : Strconv)
        (op : Operation) (r : Request) (s : S) (e : error) :
  service_error service op r s = Some e ->
  errors_Is_NotFound e = true ->
  let st := serve (handler service strconv op) r s in
  wroteHeader (w st) = true /\ status (w st) = StatusNotFound
  /\ written (w st) = EmptyString /\ log st = [].
Proof.
  intros Herr Hnf st.
  destruct (failed_operation_run service strconv op r s e Herr) as (_ & Hw & Hlog).
  fold st in Hw, Hlog. rewrite Hnf in Hw, Hlog.
  rewrite Hw, Hlog. repeat split.
Qed.

Lemma not_found_is_404_and_not_logged_witness :
  let r := request_for "7" EmptyString in
  let e := fmt_Errorf_w "get product" ErrNotFound in
  service_error memory_service OpGet r ∅ = Some e
  /\ errors_Is_NotFound e = true
  /\ status (w (serve (handler memory_service example_strconv OpGet) r ∅))
     = StatusNotFound
  /\ log (serve (handler memory_service example_strconv OpGet) r ∅) = [].
Proof.
  intros r e.
  assert (H1 : service_error memory_service OpGet r ∅ = Some e)
    by (vm_compute; reflexivity).
  assert (H2 : errors_Is_NotFound e = true) by reflexivity.
  pose proof (not_found_is_404_and_not_logged
                memory_service example_strconv OpGet r ∅ e H1 H2) as H.
  destruct H as (_ & Hs & _ & Hl).
  exact (conj H1 (conj H2 (conj Hs Hl))).
Defined.

(** C3.  When the service answers Get, Update or Delete with an error that
    is not of the NotFound kind, the handler writes the status 500 and
    hands the logger exactly one record: at the level Info, with the
    message that names the operation and, as attributes, the identifier
    and the error. *)
Theorem other_failure_is_500_and_logged_once
        {S : Type} (service : Service S) (strconv : Strconv)
        (op : Operation) (r : Request) (s : S) (e : error) :
  service_error service op r s = Some e ->
  errors_Is_NotFound e = false ->
  let st := serve (handler service strconv op) r s in
  wroteHeader (w st) = true /\ status (w st) = StatusInternalServerError
  /\ log st = [mkLogRecord LevelInfo (failure_message op)
                 [("id", AnyString (idFromRequest r)); ("error", AnyError e)]].
Proof.
  intros Herr Hnf st.
  destruct (failed_operation_run service strconv op r s e Herr) as (_ & Hw & Hlog).
  fold st in Hw, Hlog. rewrite Hnf in Hw, Hlog.
  rewrite Hw, Hlog. repeat split.
Qed.

Lemma other_failure_is_500_and_logged_once_witness :
  let r := request_for "7" "{}" in
  let e := errors_New "connection refused" in
  let st := serve (handler (failing_service e) example_strconv OpUpdate) r 0%nat in
  service_error (failing_service e) OpUpdate r 0%nat = Some e
  /\ errors_Is_NotFound e = false
  /\ status (w st) = StatusInternalServerError
  /\ log st = [mkLogRecord LevelInfo "failed to update product"
                 [("id", AnyString "7"); ("error", AnyError e)]].
Proof.
  intros r e st.
  assert (H1 : service_error (failing_service e) OpUpdate r 0%nat = Some e)
    by (vm_compute; reflexivity).
  assert (H2 : errors_Is_NotFound e = false) by reflexivity.
  pose proof (other_failure_is_500_and_logged_once
                (failing_service e) example_strconv OpUpdate r 0%nat e H1 H2) as H.
  destruct H as (_ & Hs & Hl).
  exact (conj H1 (conj H2 (conj Hs Hl))).
Defined.

(** [errors.Is] finds the sentinel exactly when the tree of the error
    contains it or contains an error whose [Is] method accepts it. *)
Lemma errors_Is_NotFound_mutual :
  (forall e, errors_Is_NotFound e
             = chain_contains_NotFound e || chain_claims_NotFound e)
  /\ (forall u, Is_NotFound_unwrap u
                = contains_NotFound_unwrap u || claims_NotFound_unwrap u)
  /\ (forall es, Is_NotFound_any es
                 = contains_NotFound_any es || claims_NotFound_any es).
Proof.
  apply error_mutind; simpl; intros; try reflexivity; try assumption.
  - destruct is_method as [[|]|]; try assumption.
    symmetry. apply orb_true_r.
  - rewrite H, H0.
    destruct (chain_contains_NotFound e), (chain_claims_NotFound e),
      (contains_NotFound_any es), (claims_NotFound_any es); reflexivity.
Qed.

Lemma errors_Is_NotFound_spec (e : error) :
  errors_Is_NotFound e = chain_contains_NotFound e || chain_claims_NotFound e.
Proof. apply errors_Is_NotFound_mutual. Qed.

(** C10, as amended.  The classification is that of [errors.Is]: an error
    of the service on Get, Update or Delete is answered by 404, without a
    log record, as soon as the tree its [Unwrap] methods span contains the
    sentinel [ErrNotFound] or an error whose own [Is] method accepts the
    sentinel; it is answered by 500, with the log record of the failure,
    when the tree contains neither. *)
Theorem classification_is_closed_under_wrapping
        {S : Type} (service : Service S) (strconv : Strconv)
        (op : Operation) (r : Request) (s : S) (e : error) :
  service_error service op r s = Some e ->
  let st := serve (handler service strconv op) r s in
  (chain_contains_NotFound e || chain_claims_NotFound e = true ->
   status (w st) = StatusNotFound /\ log st = [])
  /\ (chain_contains_NotFound e = false -> chain_claims_NotFound e = false ->
      status (w st) = StatusInternalServerError
      /\ log st = [failure_record (failure_message op) (idFromRequest r) e]).
Proof.
  intros Herr st.
  destruct (failed_operation_run service strconv op r s e Herr) as (_ & Hw & Hlog).
  fold st in Hw, Hlog. rewrite errors_Is_NotFound_spec in Hw, Hlog.
  split.
  - intros H. rewrite H in Hw, Hlog. rewrite Hw, Hlog. split; reflexivity.
  - intros H1 H2. rewrite H1, H2 in Hw, Hlog. rewrite Hw, Hlog. split; reflexivity.
Qed.

Lemma classification_is_closed_under_wrapping_witness :
  let r := request_for "7" EmptyString in
  let e := fmt_Errorf_w "lookup" (errors_Join [errors_New "timeout"; ErrNotFound]) in
  let st := serve (handler (failing_service e) example_strconv OpDelete) r 0%nat in
  service_error (failing_service e) OpDelete r 0%nat = Some e
  /\ chain_contains_NotFound e || chain_claims_NotFound e = true
  /\ status (w st) = StatusNotFound /\ log st = [].
Proof.
  intros r e st.
  assert (H1 : service_error (failing_service e) OpDelete r 0%nat = Some e)
    by (vm_compute; reflexivity).
  assert (H2 : chain_contains_NotFound e || chain_claims_NotFound e = true)
    by reflexivity.
  pose proof (classification_is_closed_under_wrapping
                (failing_service e) example_strconv OpDelete r 0%nat e H1) as H.
  destruct H as (H & _). destruct (H H2) as (Hs & Hl).
  exact (conj H1 (conj H2 (conj Hs Hl))).
Defined.

(** C10 as it is written fails in its second half: an error whose [Is]
    method accepts [ErrNotFound] has no sentinel in its chain, and yet Get
    answers 404 and logs nothing. *)
Lemma error_with_Is_method_is_404 :
  let r := request_for "7" EmptyString in
  let st := serve (handler (failing_service err_no_such_product) example_strconv OpGet)
                  r 0%nat in
  service_error (failing_service err_no_such_product) OpGet r 0%nat
  = Some err_no_such_product
  /\ chain_contains_NotFound err_no_such_product = false
  /\ status (w st) = StatusNotFound
  /\ status (w st) <> StatusInternalServerError
  /\ log st = [].
Proof. vm_compute. repeat split; discriminate. Qed.

(* ===================================================================== *)
(** * The identifier of the request *)
(* ===================================================================== *)

(** C9, as amended.  When the route attached no [productID] to the
    request, [idFromRequest] gives the empty string, and each of the three
    operations that read it, Get, Update and Delete, hands it to the
    service like any other identifier.  The answer is 400 on Update alone,
    and exactly when the body of the request does not decode: never for
    the identifier.  In every other case the service is called once, with
    the empty identifier, and the answer is 404 exactly when the service
    returns from that call an error of the NotFound kind. *)
Theorem absent_id_is_the_empty_string
        {S : Type} (service : Service S) (strconv : Strconv)
        (op : Operation) (r : Request) (s : S) :
  mux_Vars r !! "productID" = None ->
  let st := serve (handler service strconv op) r s in
  idFromRequest r = EmptyString
  /\ (status (w st) = StatusBadRequest <->
      op = OpUpdate /\ body_decode_error strconv PatchProduct (Body r) <> None)
  /\ (status (w st) <> StatusBadRequest ->
      calls st = [call_with_id op EmptyString r]
      /\ (status (w st) = StatusNotFound <->
          exists e, call_error service (call_with_id op EmptyString r) s = Some e
                    /\ errors_Is_NotFound e = true)).
Proof.
  intros Hvars st. subst st.
  assert (Hid : idFromRequest r = EmptyString)
    by (unfold idFromRequest; rewrite Hvars; reflexivity).
  split; [exact Hid|].
  destruct op; cbn [handler call_with_id call_error body_decode_error].
  - rewrite GetProduct_run, Hid; cbv zeta.
    destruct (svc_GetProduct service EmptyString s) as [[product [e|]] s']; simpl.
    + destruct (errors_Is_NotFound e) eqn:He; simpl.
      * split; [split; [discriminate|intros [H _]; discriminate H]|].
        intros _. split; [reflexivity|]. split; [|reflexivity].
        intros _. exists e. auto.
      * split; [split; [discriminate|intros [H _]; discriminate H]|].
        intros _. split; [reflexivity|]. split; [discriminate|].
        intros (e' & He' & Hnf). inversion He'; subst. congruence.
    + unfold json_response, write_encoded.
      destruct (json.Encode_Product strconv product); simpl;
        (split; [split; [discriminate|intros [H _]; discriminate H]|];
         intros _; split; [reflexivity|]; split; [discriminate|];
         intros (e' & He' & _); discriminate).
  - rewrite UpdateProduct_run, Hid; cbv zeta.
    destruct (json.Decode_ProductUpdate (Body r) mkProductUpdate) as [upd [d|]];
      cbn [fst snd].
    + simpl. split; [split; [intros _; split; [reflexivity|discriminate]|reflexivity]|].
      intros H. exfalso. apply H. reflexivity.
    + destruct (svc_UpdateProduct service EmptyString upd s) as [[product [e|]] s'];
        simpl.
      * destruct (errors_Is_NotFound e) eqn:He; simpl.
        -- split; [split; [discriminate|intros [_ H]; exfalso; apply H; reflexivity]|].
           intros _. split; [reflexivity|]. split; [|reflexivity].
           intros _. exists e. auto.
        -- split; [split; [discriminate|intros [_ H]; exfalso; apply H; reflexivity]|].
           intros _. split; [reflexivity|]. split; [discriminate|].
           intros (e' & He' & Hnf). inversion He'; subst. congruence.
      * unfold json_response, write_encoded.
        destruct (json.Encode_Product strconv product); simpl;
          (split; [split; [discriminate|intros [_ H]; exfalso; apply H; reflexivity]|];
           intros _; split; [reflexivity|]; split; [discriminate|];
           intros (e' & He' & _); discriminate).
  - rewrite DeleteProduct_run, Hid; cbv zeta.
    destruct (svc_DeleteProduct service EmptyString s) as [[e|] s']; simpl.
    + destruct (errors_Is_NotFound e) eqn:He; simpl.
      * split; [split; [discriminate|intros [H _]; discriminate H]|].
        intros _. split; [reflexivity|]. split; [|reflexivity].
        intros _. exists e. auto.
      * split; [split; [discriminate|intros [H _]; discriminate H]|].
        intros _. split; [reflexivity|]. split; [discriminate|].
        intros (e' & He' & Hnf). inversion He'; subst. congruence.
    + split; [split; [discriminate|intros [H _]; discriminate H]|].
      intros _. split; [reflexivity|]. split; [discriminate|].
      intros (e' & He' & _). discriminate.
Qed.

Lemma absent_id_is_the_empty_string_witness :
  let r := request_with_body "{}" in
  let st := serve (handler memory_service example_strconv OpUpdate) r ∅ in
  mux_Vars r !! "productID" = None
  /\ idFromRequest r = EmptyString
  /\ status (w st) <> StatusBadRequest
  /\ calls st = [CallUpdateProduct EmptyString mkProductUpdate]
  /\ status (w st) = StatusNotFound.
Proof.
  intros r st.
  assert (H1 : mux_Vars r !! "productID" = None) by reflexivity.
  assert (H2 : status (w st) <> StatusBadRequest) by (vm_compute; discriminate).
  pose proof (absent_id_is_the_empty_string memory_service example_strconv
                OpUpdate r ∅ H1) as H.
  destruct H as (Hid & _ & Hrest).
  destruct (Hrest H2) as (Hcalls & Hnf).
  refine (conj H1 (conj Hid (conj H2 (conj Hcalls _)))).
  apply Hnf. exists ErrNotFound. split; reflexivity.
Defined.

(** C9 as it is written fails: the empty identifier is not treated as
    always not found.  With a service that holds a product under the empty
    identifier, Get on a request without [productID] answers 200. *)
Lemma empty_id_can_be_found :
  let r := request_with_body EmptyString in
  let st := serve (GetProduct memory_service example_strconv) r
                  {[EmptyString := Product_zero]} in
  mux_Vars r !! "productID" = None
  /\ idFromRequest r = EmptyString
  /\ status (w st) = StatusOK
  /\ status (w st) <> StatusNotFound.
Proof. vm_compute. repeat split; discriminate. Qed.

(* ===================================================================== *)
(** * Delete *)
(* ===================================================================== *)

(** C6.  When the service's [DeleteProduct] succeeds, whatever the service
    and its state, hence whatever the product deleted, the response is the
    status 204 with no header and an empty body. *)
Theorem delete_success_is_204_with_empty_body
        {S : Type} (service : Service S) (r : Request) (s s' : S) :
  svc_DeleteProduct service (idFromRequest r) s = (None, s') ->
  let st := serve (DeleteProduct service) r s in
  wroteHeader (w st) = true /\ status (w st) = StatusNoContent
  /\ written (w st) = EmptyString /\ sentHeader (w st) = ∅
  /\ log st = [] /\ service_state st = s'.
Proof.
  intros Hdel st. subst st. rewrite DeleteProduct_run; simpl.
  rewrite Hdel. simpl. repeat split.
Qed.

Lemma delete_success_is_204_with_empty_body_witness :
  let r := request_for "7" EmptyString in
  let p := Product.mk "7" "Lamp" "A desk lamp" price_1_5 in
  let st := serve (DeleteProduct memory_service) r {["7" := p]} in
  svc_DeleteProduct memory_service (idFromRequest r) {["7" := p]} = (None, ∅)
  /\ status (w st) = StatusNoContent /\ written (w st) = EmptyString.
Proof.
  intros r p st.
  assert (H1 : svc_DeleteProduct memory_service (idFromRequest r) {["7" := p]}
               = (None, ∅)) by (vm_compute; reflexivity).
  pose proof (delete_success_is_204_with_empty_body
                memory_service r {["7" := p]} ∅ H1) as H.
  destruct H as (_ & Hs & Hb & _).
  exact (conj H1 (conj Hs Hb)).
Defined.

(* ===================================================================== *)
(** * Decoding the request *)
(* ===================================================================== *)

(** C1, as amended.  On POST /products and PATCH /products/{id}, when the
    decoder reports an error for the body (no JSON value in it, a first
    value that is cut short or not well-formed, or one that does not fit the
    struct), the handler writes the status 400 and does not call the
    service, whose state stays as it was. *)
Theorem decode_error_is_400_and_service_not_called
        {S : Type} (service : Service S) (strconv : Strconv)
        (route : BodyRoute) (r : Request) (s : S) (err : json.DecodeError) :
  body_decode_error strconv route (Body r) = Some err ->
  let st := serve (body_handler service strconv route) r s in
  wroteHeader (w st) = true /\ status (w st) = StatusBadRequest
  /\ written (w st) = EmptyString
  /\ calls st = [] /\ service_state st = s.
Proof.
  intros Herr st. subst st. destruct route; simpl in *.
  - rewrite CreateProduct_run.
    destruct (json.Decode_Product strconv (Body r) Product_zero) as [p [e|]];
      [|discriminate].
    repeat split.
  - rewrite UpdateProduct_run; simpl.
    destruct (json.Decode_ProductUpdate (Body r) mkProductUpdate) as [upd [e|]];
      [|discriminate].
    repeat split.
Qed.

Lemma decode_error_is_400_and_service_not_called_witness :
  let r := request_with_body ("{" +:+ quoted "name" +:+ ":12}") in
  let st := serve (body_handler memory_service example_strconv PostProducts) r ∅ in
  body_decode_error example_strconv PostProducts (Body r) = Some json.UnmarshalTypeError
  /\ status (w st) = StatusBadRequest /\ calls st = [].
Proof.
  intros r st.
  assert (H1 : body_decode_error example_strconv PostProducts (Body r)
               = Some json.UnmarshalTypeError) by (vm_compute; reflexivity).
  pose proof (decode_error_is_400_and_service_not_called
                memory_service example_strconv PostProducts r ∅ _ H1) as H.
  destruct H as (_ & Hs & _ & Hc & _).
  exact (conj H1 (conj Hs Hc)).
Defined.

(** C1 as it is written fails: the decoder reads the first JSON value of
    the body and leaves the rest unread.  The body [{}]] is no well-formed
    JSON, and yet Create calls the service and answers 201, and Update
    calls the service and answers 200. *)
Lemma body_with_trailing_bytes_is_accepted :
  let r := request_for "7" "{}]" in
  let created := serve (CreateProduct memory_service example_strconv) r ∅ in
  let updated := serve (UpdateProduct memory_service example_strconv) r
                       {["7" := Product_zero]} in
  json.Valid (Body r) = false
  /\ calls created = [CallCreateProduct Product_zero]
  /\ status (w created) = StatusCreated
  /\ calls updated = [CallUpdateProduct "7" mkProductUpdate]
  /\ status (w updated) = StatusOK.
Proof. vm_compute. repeat split. Qed.

(** C4.  The body routes do not log a decode failure: on the body [{],
    which is cut short, Create and Update answer 400 and hand nothing to
    the logger. *)
Lemma body_decode_failure_is_not_logged :
  let r := request_for "7" "{" in
  let created := serve (CreateProduct memory_service example_strconv) r ∅ in
  let updated := serve (UpdateProduct memory_service example_strconv) r ∅ in
  body_decode_error example_strconv PostProducts (Body r) = Some json.ErrUnexpectedEOF
  /\ body_decode_error example_strconv PatchProduct (Body r) = Some json.ErrUnexpectedEOF
  /\ status (w created) = StatusBadRequest /\ log created = []
  /\ status (w updated) = StatusBadRequest /\ log updated = [].
Proof. vm_compute. repeat split. Qed.

(** A query decoder that ignores unknown keys finds nothing wrong with any
    query when the struct has no field. *)
Lemma Decode_ProductFilter_ignoring (f : ProductFilter) (src : gmap string (list string)) :
  schema.Decode_ProductFilter (schema.IgnoreUnknownKeys true schema.NewDecoder) f src
  = (f, None).
Proof.
  unfold schema.Decode_ProductFilter, schema.MultiError.
  assert (H : schema.Decode_errors (schema.IgnoreUnknownKeys true schema.NewDecoder)
                schema.ProductFilter_get (fun _ _ => true) src
              = (∅ : gmap string schema.FieldError)).
  { apply map_eq. intros path. unfold schema.Decode_errors.
    rewrite map_lookup_imap. rewrite lookup_empty.
    destruct (src !! path); reflexivity. }
  rewrite H. case_decide; [reflexivity|]. congruence.
Qed.

(** C7.  [ProductFilter] has no field, so no key of a query corresponds to
    one: whatever the query, List does not fail on decoding it.  The
    service's [ListProducts] is called, once, with the filter that
    constrains nothing; the status is not 400 and no record about decoding
    is logged. *)
Theorem unknown_query_keys_are_ignored
        {S : Type} (service : Service S) (strconv : Strconv) (r : Request) (s : S) :
  let st := serve (ListProducts service strconv) r s in
  (forall key, schema.parsePath schema.ProductFilter_get key = false)
  /\ schema.Decode_ProductFilter (schema.IgnoreUnknownKeys true schema.NewDecoder)
       mkProductFilter (URL_Query r) = (mkProductFilter, None)
  /\ calls st = [CallListProducts mkProductFilter]
  /\ status (w st) <> StatusBadRequest
  /\ (forall rec, In rec (log st) -> message rec <> "failed to decode request").
Proof.
  intros st. subst st. split; [reflexivity|].
  split; [apply Decode_ProductFilter_ignoring|].
  rewrite ListProducts_run, Decode_ProductFilter_ignoring.
  destruct (svc_ListProducts service mkProductFilter s) as [[products [e|]] s']; simpl.
  - repeat split; try discriminate.
    intros rec [<-|[]]. discriminate.
  - unfold json_response, write_encoded.
    destruct (json.Encode_Products strconv products); simpl;
      (repeat split; try discriminate; intros rec []).
Qed.

(** Without [IgnoreUnknownKeys (true)] the same decoder rejects a key the
    struct has no field for. *)
Example strict_decoder_rejects_unknown_key :
  snd (schema.Decode_ProductFilter schema.NewDecoder mkProductFilter
         {["colour" := ["red"]]})
  = Some {["colour" := schema.UnknownKeyError "colour"]}.
Proof. vm_compute. reflexivity. Qed.

(* ===================================================================== *)
(** * Create *)
(* ===================================================================== *)

(** The members written for a product are those of its fields that are
    not empty. *)
Lemma members_are_the_fields_set (strconv : Strconv) (p : Product) (f : json.field) :
  In (json.field_name f) (map fst (json.members strconv p))
  <-> field_is_empty f p = false.
Proof.
  destruct p as [id name desc price].
  unfold json.members, json.string_member, json.float_member, field_is_empty; simpl.
  destruct (json.isEmptyString id), (json.isEmptyString name),
    (json.isEmptyString desc), (json.isEmptyFloat price), f; simpl;
    split; intros H; try reflexivity; try discriminate;
    try (repeat destruct H as [H|H]; try discriminate; try contradiction; fail);
    auto 6.
Qed.

(** [json.Marshal] fails on a product exactly when its price is an infinity
    or a NaN. *)
Lemma Marshal_fails_iff_price_not_finite (strconv : Strconv) (p : Product) :
  json.Marshal strconv p = None <-> price_is_finite (Product.Price p) = false.
Proof.
  destruct p as [id name desc price].
  unfold json.Marshal, json.members, json.string_member, json.float_member; simpl.
  destruct (json.isEmptyString id), (json.isEmptyString name),
    (json.isEmptyString desc), price; simpl;
    split; intros H; try reflexivity; try discriminate.
Qed.

(** C5, as amended.  When the body of a Create request decodes and the
    service succeeds, the response has the status 201 and the two headers
    Location, [/products/] followed by the identifier of the product the
    service returned, and Content-Type, [application/json].  Its body is
    the JSON text of that product followed by a newline; the members of the
    text are the fields of the product that are not empty.  When the price
    of the product is an infinity or a NaN there is no such text and the
    body is empty. *)
Theorem create_success_is_201_with_location_and_json
        {S : Type} (service : Service S) (strconv : Strconv)
        (r : Request) (s s' : S) (p product : Product) :
  json.Decode_Product strconv (Body r) Product_zero = (p, None) ->
  svc_CreateProduct service p s = ((product, None), s') ->
  let st := serve (CreateProduct service strconv) r s in
  wroteHeader (w st) = true /\ status (w st) = StatusCreated
  /\ sentHeader (w st)
     = <["Content-Type" := ["application/json"]]>
         (<["Location" := ["/products/" +:+ Product.ID product]]> ∅)
  /\ written (w st)
     = match json.Marshal strconv product with
       | Some text => text +:+ String json.newline EmptyString
       | None => EmptyString
       end
  /\ (json.Marshal strconv product = None
      <-> price_is_finite (Product.Price product) = false)
  /\ (forall f, In (json.field_name f) (map fst (json.members strconv product))
                <-> field_is_empty f product = false).
Proof.
  intros Hdec Hsvc st. subst st.
  rewrite CreateProduct_run, Hdec, Hsvc.
  split; [|split; [|split; [|split; [|split]]]].
  - unfold json.Encode_Product, write_encoded.
    destruct (json.Marshal strconv product); reflexivity.
  - unfold json.Encode_Product, write_encoded.
    destruct (json.Marshal strconv product); reflexivity.
  - unfold json.Encode_Product, write_encoded.
    destruct (json.Marshal strconv product); reflexivity.
  - unfold json.Encode_Product, write_encoded.
    destruct (json.Marshal strconv product); reflexivity.
  - apply Marshal_fails_iff_price_not_finite.
  - intros f. apply members_are_the_fields_set.
Qed.

Lemma create_success_is_201_with_location_and_json_witness :
  let r := request_with_body body_name_X in
  let p := Product.mk EmptyString "X" EmptyString (S754_zero false) in
  let product := Product.mk "42" "X" EmptyString (S754_zero false) in
  let st := serve (CreateProduct memory_service example_strconv) r ∅ in
  json.Decode_Product example_strconv (Body r) Product_zero = (p, None)
  /\ svc_CreateProduct memory_service p ∅ = ((product, None), {["42" := product]})
  /\ status (w st) = StatusCreated
  /\ sentHeader (w st) !! "Location" = Some ["/products/42"]
  /\ sentHeader (w st) !! "Content-Type" = Some ["application/json"]
  /\ written (w st) = json_id_42_name_X +:+ String json.newline EmptyString.
Proof.
  intros r p product st.
  assert (H1 : json.Decode_Product example_strconv (Body r) Product_zero = (p, None))
    by (vm_compute; reflexivity).
  assert (H2 : svc_CreateProduct memory_service p ∅
               = ((product, None), {["42" := product]}))
    by (vm_compute; reflexivity).
  pose proof (create_success_is_201_with_location_and_json
                memory_service example_strconv r ∅ _ p product H1 H2) as H.
  destruct H as (_ & Hs & Hh & Hb & _).
  refine (conj H1 (conj H2 (conj Hs _))).
  fold st in Hh, Hb. rewrite Hh, Hb.
  repeat split.
Defined.

(** C5 as it is written fails on the bytes of the body.  In the example of
    the specification the body is the JSON text and a newline, not the text
    alone; and when the service returns a product whose price is a NaN, the
    status 201 and the headers are written and the body is empty. *)
Lemma create_body_is_not_the_bare_json :
  let r := request_with_body body_name_X in
  let st := serve (CreateProduct memory_service example_strconv) r ∅ in
  let nan_product := Product.mk "42" "X" EmptyString S754_nan in
  let st' := serve (CreateProduct (constant_service nan_product) example_strconv) r tt in
  status (w st) = StatusCreated
  /\ written (w st) = json_id_42_name_X +:+ String json.newline EmptyString
  /\ written (w st) <> json_id_42_name_X
  /\ status (w st') = StatusCreated
  /\ written (w st') = EmptyString.
Proof. vm_compute. repeat split. discriminate. Qed.

(* ===================================================================== *)
(** * The wire form of a product, encoded and decoded *)
(* ===================================================================== *)

Lemma all_bytes_complete (c : ascii) : In c all_bytes.
Proof.
  unfold all_bytes. rewrite <- (ascii_nat_embedding c).
  apply in_map, in_seq. pose proof (nat_ascii_bounded c). lia.
Qed.

Lemma forall_bytes (P : ascii -> bool) :
  forallb P all_bytes = true -> forall c, P c = true.
Proof.
  intros H c. rewrite forallb_forall in H. apply H, all_bytes_complete.
Qed.

Lemma check_leads_ok :
  forallb (fun c0 => forallb (fun c1 => leads_at c0 c1) all_bytes) all_bytes = true.
Proof. vm_compute. reflexivity. Qed.

Lemma check_cont_ok : forallb cont_at all_bytes = true.
Proof. vm_compute. reflexivity. Qed.

Lemma leads_checked c0 c1 : leads_at c0 c1 = true.
Proof.
  pose proof check_leads_ok as H. rewrite forallb_forall in H.
  specialize (H c0 (all_bytes_complete c0)). rewrite forallb_forall in H.
  exact (H c1 (all_bytes_complete c1)).
Qed.

Lemma cont_checked c : cont_at c = true.
Proof.
  pose proof check_cont_ok as H. rewrite forallb_forall in H.
  exact (H c (all_bytes_complete c)).
Qed.

Lemma land_shiftl_low (hi d k : Z) :
  0 <= k -> 0 <= d < 2 ^ k -> Z.land (Z.shiftl hi k) d = 0.
Proof.
  intros Hk Hd. apply Z.bits_inj'. intros n Hn.
  rewrite Z.land_spec, Z.bits_0.
  destruct (Z.lt_ge_cases n k) as [Hlt|Hge].
  - rewrite Z.shiftl_spec_low by lia. reflexivity.
  - rewrite <- (Z.mod_small d (2 ^ k)) by lia.
    rewrite Z.mod_pow2_bits_high by lia. apply andb_false_r.
Qed.

Lemma lor_shiftl_low (hi d k : Z) :
  0 <= k -> 0 <= d < 2 ^ k ->
  Z.lor (Z.shiftl hi k) d = hi * 2 ^ k + d.
Proof.
  intros Hk Hd.
  pose proof (land_shiftl_low hi d k Hk Hd) as H0.
  rewrite <- Z.lxor_lor by exact H0.
  rewrite <- Z.add_nocarry_lxor by exact H0.
  rewrite Z.shiftl_mul_pow2 by lia. reflexivity.
Qed.

Lemma split6 (hi d : Z) :
  0 <= hi -> 0 <= d < 64 ->
  let x := Z.lor (Z.shiftl hi 6) d in
  x = hi * 64 + d /\ Z.shiftr x 6 = hi /\ Z.land x 0x3F = d.
Proof.
  intros Hhi Hd x. subst x.
  rewrite (lor_shiftl_low hi d 6) by (simpl; lia).
  change (2 ^ 6) with 64.
  split; [reflexivity|]. split.
  - rewrite Z.shiftr_div_pow2 by lia. change (2 ^ 6) with 64.
    symmetry. apply (Z.div_unique _ _ _ d); lia.
  - change 0x3F with (Z.ones 6). rewrite Z.land_ones by lia.
    change (2 ^ 6) with 64. symmetry. apply (Z.mod_unique _ _ hi); lia.
Qed.

Lemma enc2 c0 c1 :
  is_lead 2 c0 c1 = true ->
  utf8.EncodeRune (rune2 c0 c1) = String c0 (String c1 "").
Proof.
  intros H. pose proof (leads_checked c0 c1) as Hc. unfold leads_at in Hc.
  rewrite H in Hc. cbn [implb] in Hc.
  apply andb_prop in Hc as [Hc _]. apply andb_prop in Hc as [Hc _].
  apply String.eqb_eq in Hc. exact Hc.
Qed.

Lemma cont_low6 c :
  utf8.cont (byteZ c) = true ->
  let d := Z.land (byteZ c) 0x3F in
  0 <= d < 64 /\ zbyte (Z.lor 0x80 d) = c.
Proof.
  intros H. pose proof (cont_checked c) as Hc. unfold cont_at in Hc.
  rewrite H in Hc. cbn [implb] in Hc. cbv zeta in Hc.
  apply andb_prop in Hc as [Hc Hb]. apply andb_prop in Hc as [H0 H1].
  apply Ascii.eqb_eq in Hb. split; [lia|exact Hb].
Qed.

Ltac split_andb H :=
  repeat match type of H with
         | _ && _ = true => let H' := fresh H in apply andb_prop in H as [H H']
         end.

Ltac encode_branch :=
  repeat match goal with
         | |- context [if ?b then _ else _] =>
             replace b with false
               by (symmetry;
                   rewrite ?orb_false_iff, ?andb_false_iff,
                     ?Z.leb_gt, ?Z.ltb_ge; lia)
         end.

Lemma implb_true_elim (b c : bool) : implb b c = true -> b = true -> c = true.
Proof. destruct b, c; simpl; congruence. Qed.

Lemma enc3 c0 c1 c2 :
  is_lead 3 c0 c1 = true -> utf8.cont (byteZ c2) = true ->
  utf8.EncodeRune (rune3 c0 c1 c2) = String c0 (String c1 (String c2 "")).
Proof.
  intros H H2. pose proof (leads_checked c0 c1) as Hc. unfold leads_at in Hc.
  rewrite H in Hc. cbn [implb] in Hc.
  apply andb_prop in Hc as [Hc _]. apply andb_prop in Hc as [_ Hc].
  unfold lead3_facts in Hc. cbv zeta in Hc.
  destruct (cont_low6 c2 H2) as (Hd & Hb2).
  unfold rune3.
  set (a := Z.land (byteZ c0) 15) in *. set (b := Z.land (byteZ c1) 63) in *.
  set (d := Z.land (byteZ c2) 63) in *.
  split_andb Hc.
  apply Ascii.eqb_eq in Hc0, Hc1.
  pose proof (implb_true_elim _ _ Hc3) as Ha0.
  pose proof (implb_true_elim _ _ Hc2) as Ha13.
  rewrite Z.eqb_eq in Ha0, Ha13.
  replace (Z.shiftl a 12) with (Z.shiftl (Z.shiftl a 6) 6)
    by (rewrite Z.shiftl_shiftl by lia; reflexivity).
  rewrite <- Z.shiftl_lor.
  destruct (split6 a b ltac:(lia) ltac:(lia)) as (Hx1 & Hs1 & Hl1).
  set (hi := Z.lor (Z.shiftl a 6) b) in *.
  destruct (split6 hi d ltac:(lia) Hd) as (Hx & Hs & Hl).
  set (x := Z.lor (Z.shiftl hi 6) d) in *.
  assert (Hr : 0x800 <= x <= 0xFFFF /\ (x < 0xD800 \/ 0xDFFF < x)) by lia.
  unfold utf8.EncodeRune, utf8.enc3, utf8.MaxRune, utf8.surrogateMin,
    utf8.surrogateMax.
  encode_branch.
  replace (x <=? 65535) with true by (symmetry; apply Z.leb_le; lia).
  replace (Z.shiftr x 12) with a
    by (rewrite <- Hs1, <- Hs, Z.shiftr_shiftr by lia; reflexivity).
  rewrite Hs, Hl, Hl1. congruence.
Qed.

Lemma enc4 c0 c1 c2 c3 :
  is_lead 4 c0 c1 = true -> utf8.cont (byteZ c2) = true ->
  utf8.cont (byteZ c3) = true ->
  utf8.EncodeRune (rune4 c0 c1 c2 c3)
  = String c0 (String c1 (String c2 (String c3 ""))).
Proof.
  intros H H2 H3. pose proof (leads_checked c0 c1) as Hc. unfold leads_at in Hc.
  rewrite H in Hc. cbn [implb] in Hc.
  apply andb_prop in Hc as [_ Hc].
  unfold lead4_facts in Hc. cbv zeta in Hc.
  destruct (cont_low6 c2 H2) as (Hc2r & Hb2).
  destruct (cont_low6 c3 H3) as (Hd & Hb3).
  unfold rune4.
  set (a := Z.land (byteZ c0) 7) in *. set (b := Z.land (byteZ c1) 63) in *.
  set (c := Z.land (byteZ c2) 63) in *. set (d := Z.land (byteZ c3) 63) in *.
  split_andb Hc.
  apply Ascii.eqb_eq in Hc0, Hc1.
  pose proof (implb_true_elim _ _ Hc3) as Ha0.
  pose proof (implb_true_elim _ _ Hc2) as Ha4.
  rewrite Z.eqb_eq in Ha0, Ha4.
  replace (Z.shiftl a 18) with (Z.shiftl (Z.shiftl (Z.shiftl a 6) 6) 6)
    by (rewrite !Z.shiftl_shiftl by lia; reflexivity).
  replace (Z.shiftl b 12) with (Z.shiftl (Z.shiftl b 6) 6)
    by (rewrite !Z.shiftl_shiftl by lia; reflexivity).
  rewrite <- !Z.shiftl_lor.
  destruct (split6 a b ltac:(lia) ltac:(lia)) as (Hx1 & Hs1 & Hl1).
  set (h2 := Z.lor (Z.shiftl a 6) b) in *.
  destruct (split6 h2 c ltac:(lia) Hc2r) as (Hx2 & Hs2 & Hl2).
  set (h3 := Z.lor (Z.shiftl h2 6) c) in *.
  destruct (split6 h3 d ltac:(lia) Hd) as (Hx & Hs & Hl).
  set (x := Z.lor (Z.shiftl h3 6) d) in *.
  assert (Hr : 0x10000 <= x <= 0x10FFFF) by lia.
  unfold utf8.EncodeRune, utf8.MaxRune, utf8.surrogateMin, utf8.surrogateMax.
  encode_branch.
  replace (Z.shiftr x 18) with a
    by (rewrite <- Hs1, <- Hs2, <- Hs, !Z.shiftr_shiftr by lia; reflexivity).
  replace (Z.shiftr x 12) with h2
    by (rewrite <- Hs2, <- Hs, !Z.shiftr_shiftr by lia; reflexivity).
  rewrite Hs, Hl, Hl1, Hl2. congruence.
Qed.

Lemma first_sizes p0 sz lo hi :
  utf8.first p0 = Some (sz, lo, hi) ->
  (sz = 2 \/ sz = 3 \/ sz = 4)%nat /\ utf8.RuneSelf <= lo /\ utf8.RuneSelf <= p0.
Proof.
  unfold utf8.first, utf8.RuneSelf, utf8.locb, utf8.hicb.
  repeat match goal with
         | |- context [if ?b then _ else _] => destruct b eqn:?
         end; intros H; inversion H; subst; repeat split; auto; lia.
Qed.

Lemma is_lead_intro sz c0 c1 lo hi :
  utf8.first (byteZ c0) = Some (sz, lo, hi) ->
  (lo <=? byteZ c1) && (byteZ c1 <=? hi) = true ->
  is_lead sz c0 c1 = true.
Proof.
  intros Hf Hr. unfold is_lead. rewrite Hf, Nat.eqb_refl. exact Hr.
Qed.

Lemma cont_high c : utf8.cont (byteZ c) = true -> (utf8.RuneSelf <=? byteZ c) = true.
Proof.
  unfold utf8.cont, utf8.locb, utf8.hicb, utf8.RuneSelf. intros H.
  apply andb_prop in H as [H _]. exact H.
Qed.

(** A rune that [DecodeRune] reads from a byte outside ASCII without
    reporting an error comes from two to four bytes, which are the
    encoding of that rune. *)
Lemma DecodeRune_multi_byte c0 rest r n :
  (byteZ c0 <? utf8.RuneSelf) = false ->
  utf8.DecodeRune (String c0 rest) = (r, n) ->
  (r =? utf8.RuneError) && (n =? 1)%nat = false ->
  exists bs t, String c0 rest = bs +:+ t /\ String.length bs = n /\ multi_byte bs r.
Proof.
  intros Hhigh Hdec Hok.
  unfold utf8.DecodeRune in Hdec. rewrite Hhigh in Hdec.
  assert (Herr : (utf8.RuneError, 1%nat) = (r, n) -> False).
  { intros E. inversion E; subst. rewrite Z.eqb_refl in Hok. discriminate. }
  destruct (utf8.first (byteZ c0)) as [[[sz lo] hi]|] eqn:Hfirst;
    [|exfalso; auto].
  destruct (first_sizes _ _ _ _ Hfirst) as (Hsz & Hlo & Hp0).
  destruct rest as [|c1 p2]; [exfalso; auto|].
  destruct ((lo <=? byteZ c1) && (byteZ c1 <=? hi)) eqn:Hrange;
    simpl in Hdec; [|exfalso; auto].
  pose proof (is_lead_intro _ _ _ _ _ Hfirst Hrange) as Hlead.
  assert (Hc1 : (utf8.RuneSelf <=? byteZ c1) = true).
  { apply andb_prop in Hrange as [Hr _]. apply Z.leb_le in Hr. apply Z.leb_le. lia. }
  assert (Hc0 : (utf8.RuneSelf <=? byteZ c0) = true) by (apply Z.leb_le; lia).
  destruct (sz <=? 2)%nat eqn:Hsz2.
  { (* two bytes *)
    apply Nat.leb_le in Hsz2. assert (sz = 2%nat) by lia. subst sz.
    inversion Hdec; subst.
    exists (String c0 (String c1 "")), p2. split; [reflexivity|]. split; [reflexivity|].
    split; [apply enc2; exact Hlead|]. split; [|split].
    - intros t. simpl. unfold utf8.DecodeRune.
      rewrite Hhigh, Hfirst, Hrange. reflexivity.
    - simpl. rewrite Hc0, Hc1. reflexivity.
    - simpl. lia. }
  destruct p2 as [|c2 p3]; [exfalso; auto|].
  destruct (utf8.cont (byteZ c2)) eqn:Hcont2; simpl in Hdec; [|exfalso; auto].
  destruct (sz <=? 3)%nat eqn:Hsz3.
  { (* three bytes *)
    apply Nat.leb_le in Hsz3. apply Nat.leb_gt in Hsz2.
    assert (sz = 3%nat) by lia. subst sz.
    inversion Hdec; subst.
    exists (String c0 (String c1 (String c2 ""))), p3.
    split; [reflexivity|]. split; [reflexivity|].
    split; [apply enc3; assumption|]. split; [|split].
    - intros t. simpl. unfold utf8.DecodeRune.
      rewrite Hhigh, Hfirst, Hrange, Hcont2. reflexivity.
    - simpl. rewrite Hc0, Hc1, (cont_high _ Hcont2). reflexivity.
    - simpl. lia. }
  destruct p3 as [|c3 p4]; [exfalso; auto|].
  destruct (utf8.cont (byteZ c3)) eqn:Hcont3; simpl in Hdec; [|exfalso; auto].
  apply Nat.leb_gt in Hsz2, Hsz3. assert (sz = 4%nat) by lia. subst sz.
  inversion Hdec; subst.
  exists (String c0 (String c1 (String c2 (String c3 "")))), p4.
  split; [reflexivity|]. split; [reflexivity|].
  split; [apply enc4; assumption|]. split; [|split].
  - intros t. simpl. unfold utf8.DecodeRune.
    rewrite Hhigh, Hfirst, Hrange, Hcont2, Hcont3. reflexivity.
  - simpl. rewrite Hc0, Hc1, (cont_high _ Hcont2), (cont_high _ Hcont3). reflexivity.
  - simpl. lia.
Qed.

(* ---------- strings ---------- *)

Lemma append_cons (x : ascii) (a b : string) : String x a +:+ b = String x (a +:+ b).
Proof. reflexivity. Qed.

Lemma append_nil_l (b : string) : "" +:+ b = b.
Proof. reflexivity. Qed.

Lemma append_assoc (a b c : string) : (a +:+ b) +:+ c = a +:+ (b +:+ c).
Proof.
  induction a as [|x a IH]; [reflexivity|].
  rewrite !append_cons, IH. reflexivity.
Qed.

Lemma append_nil_r (a : string) : a +:+ "" = a.
Proof.
  induction a as [|x a IH]; [reflexivity|]. rewrite append_cons, IH. reflexivity.
Qed.

Lemma length_append (a b : string) :
  String.length (a +:+ b) = (String.length a + String.length b)%nat.
Proof.
  induction a as [|x a IH]; [reflexivity|].
  rewrite append_cons. simpl. rewrite IH. reflexivity.
Qed.

Lemma drop_bytes_append (a t : string) : drop_bytes (String.length a) (a +:+ t) = t.
Proof.
  induction a as [|x a IH]; [reflexivity|]. rewrite append_cons. simpl. exact IH.
Qed.

Lemma substring_append (a t : string) : substring 0 (String.length a) (a +:+ t) = a.
Proof.
  induction a as [|x a IH].
  - rewrite append_nil_l. destruct t; reflexivity.
  - rewrite append_cons. simpl. rewrite IH. reflexivity.
Qed.

(* ---------- the index loop ---------- *)

Lemma byte_loop_pending body k s :
  byte_loop body k s = byte_loop body 0 (drop_bytes k s).
Proof.
  revert k. induction s as [|c rest IH]; intros [|k]; simpl; try reflexivity.
  apply IH.
Qed.

Lemma byte_loop_cons body c rest :
  byte_loop body 0 (String c rest)
  = match body (String c rest) with
    | None => None
    | Some (out, n) =>
        match byte_loop body 0 (drop_bytes (Nat.pred n) rest) with
        | None => None
        | Some tl => Some (out +:+ tl)
        end
    end.
Proof.
  simpl. destruct (body (String c rest)) as [[out n]|]; [|reflexivity].
  rewrite byte_loop_pending. reflexivity.
Qed.

(** One turn of a loop over a chunk: the body gives [out] for the input
    that starts with [chunk] and advances by the length of the chunk. *)
Lemma byte_loop_chunk body chunk t out :
  (1 <= String.length chunk)%nat ->
  body (chunk +:+ t) = Some (out, String.length chunk) ->
  byte_loop body 0 (chunk +:+ t)
  = match byte_loop body 0 t with
    | None => None
    | Some tl => Some (out +:+ tl)
    end.
Proof.
  intros Hlen Hbody. destruct chunk as [|c chunk]; [simpl in Hlen; lia|].
  rewrite append_cons in *.
  rewrite byte_loop_cons, Hbody. simpl Nat.pred.
  rewrite drop_bytes_append. reflexivity.
Qed.

(* ---------- one turn of appendString, read back by unquote ---------- *)

Lemma appendString_step_ascii c rest :
  (byteZ c <? utf8.RuneSelf) = true ->
  json.appendString_step (String c rest) = Some (ascii_out c, 1%nat).
Proof.
  intros H. unfold json.appendString_step, ascii_out. rewrite H.
  destruct (json.htmlSafe (byteZ c)); reflexivity.
Qed.

Lemma unquote_step_ascii c t :
  (byteZ c <? utf8.RuneSelf) = true ->
  json.unquote_step (ascii_out c +:+ t)
  = Some (String c "", String.length (ascii_out c)).
Proof.
  destruct c as [[] [] [] [] [] [] [] []]; intros H;
    first [discriminate H | vm_compute; reflexivity].
Qed.

Lemma high_byte_not_ascii c :
  (utf8.RuneSelf <=? byteZ c) = true -> (byteZ c <? utf8.RuneSelf) = false.
Proof. intros H. apply Z.leb_le in H. apply Z.ltb_ge. exact H. Qed.

(** A byte outside ASCII is none of the bytes the decoder treats apart. *)
Lemma high_byte_plain c :
  (byteZ c <? utf8.RuneSelf) = false ->
  Ascii.eqb c json.backslash = false /\ Ascii.eqb c json.quote = false
  /\ (byteZ c <? 0x20) = false.
Proof.
  destruct c as [[] [] [] [] [] [] [] []]; intros H;
    first [discriminate H | repeat split].
Qed.

Lemma unquote_step_multi_byte bs r t :
  multi_byte bs r ->
  json.unquote_step (bs +:+ t) = Some (bs, String.length bs).
Proof.
  intros (Henc & Hdec & Hhigh & Hlen).
  destruct bs as [|c0 bs']; [simpl in Hlen; lia|].
  simpl in Hhigh. apply andb_prop in Hhigh as [Hc0 _].
  pose proof (high_byte_not_ascii _ Hc0) as Hna.
  destruct (high_byte_plain _ Hna) as (Hb & Hq & Hctl).
  specialize (Hdec t). rewrite append_cons in *.
  unfold json.unquote_step. rewrite Hb, Hq, Hctl, Hna. simpl orb. cbv iota.
  rewrite Hdec, Henc. reflexivity.
Qed.

(** What one turn of [appendString] writes for a valid rune, [unquote]
    reads back as the bytes of that rune. *)
Lemma step_round_trip c rest n :
  utf8.valid_step (String c rest) = Some ("", n) ->
  exists chunk t out,
    String c rest = chunk +:+ t /\ String.length chunk = n /\ (1 <= n)%nat
    /\ json.appendString_step (String c rest) = Some (out, n)
    /\ (1 <= String.length out)%nat
    /\ forall t', json.unquote_step (out +:+ t') = Some (chunk, String.length out).
Proof.
  unfold utf8.valid_step.
  destruct (utf8.DecodeRune (String c rest)) as [r size] eqn:Hdec.
  destruct ((r =? utf8.RuneError) && (size =? 1)%nat) eqn:Hok; [discriminate|].
  intros Hn. inversion Hn; subst size. clear Hn.
  destruct (byteZ c <? utf8.RuneSelf) eqn:Hascii.
  - (* ASCII *)
    assert (n = 1%nat).
    { unfold utf8.DecodeRune in Hdec. rewrite Hascii in Hdec. congruence. }
    subst n.
    exists (String c ""), rest, (ascii_out c).
    split; [reflexivity|]. split; [reflexivity|]. split; [lia|].
    split; [apply appendString_step_ascii; exact Hascii|].
    split.
    + pose proof (unquote_step_ascii c "" Hascii) as H.
      destruct (ascii_out c); [discriminate H|simpl; lia].
    + intros t'. apply unquote_step_ascii. exact Hascii.
  - (* several bytes *)
    destruct (DecodeRune_multi_byte c rest r n Hascii Hdec Hok)
      as (bs & t & Hs & Hlen & Hmb).
    pose proof Hmb as (Henc & Hdec' & Hhigh & Hlen2).
    exists bs, t.
    unfold json.appendString_step. rewrite Hascii, Hdec, Hok.
    destruct ((r =? 0x2028) || (r =? 0x2029)) eqn:Hsep.
    + eexists. split; [exact Hs|]. split; [exact Hlen|]. split; [lia|].
      split; [reflexivity|]. split; [simpl; lia|].
      intros t'. apply orb_prop in Hsep as [H|H]; apply Z.eqb_eq in H; subst r.
      * rewrite <- Henc. vm_compute. reflexivity.
      * rewrite <- Henc. vm_compute. reflexivity.
    + exists bs. split; [exact Hs|]. split; [exact Hlen|]. split; [lia|].
      split; [rewrite Hs, <- Hlen, substring_append; reflexivity|].
      split; [lia|].
      intros t'. apply (unquote_step_multi_byte bs r t' Hmb).
Qed.

(** [appendString] followed by [unquote] is the identity on valid UTF-8. *)
Lemma append_unquote_loop (s : string) :
  utf8.ValidString s = true ->
  exists body,
    byte_loop json.appendString_step 0 s = Some body
    /\ byte_loop json.unquote_step 0 body = Some s.
Proof.
  unfold utf8.ValidString.
  remember (String.length s) as len eqn:Hlen.
  revert s Hlen. induction len as [len IH] using lt_wf_ind. intros s Hlen Hvalid.
  destruct s as [|c rest]; [exists ""; split; reflexivity|].
  rewrite byte_loop_cons in Hvalid.
  destruct (utf8.valid_step (String c rest)) as [[o n]|] eqn:Hstep; [|discriminate].
  assert (o = "").
  { unfold utf8.valid_step in Hstep.
    destruct (utf8.DecodeRune (String c rest)) as [r size].
    destruct ((r =? utf8.RuneError) && (size =? 1)%nat); congruence. }
  subst o.
  destruct (step_round_trip c rest n Hstep)
    as (chunk & t & out & Hs & Hclen & Hn & Happ & Hout & Hunq).
  assert (Hdrop : drop_bytes (Nat.pred n) rest = t).
  { change (drop_bytes (Nat.pred n) rest) with
      (drop_bytes (Datatypes.S (Nat.pred n)) (String c rest)).
    replace (Datatypes.S (Nat.pred n)) with n by lia.
    rewrite Hs, <- Hclen. apply drop_bytes_append. }
  rewrite Hdrop in Hvalid.
  assert (Hshort : (String.length t < len)%nat).
  { subst len. rewrite Hs, length_append. lia. }
  destruct (IH (String.length t) Hshort t eq_refl) as (body' & Hb1 & Hb2).
  { destruct (byte_loop utf8.valid_step 0 t); [reflexivity|discriminate]. }
  exists (out +:+ body'). split.
  - rewrite byte_loop_cons, Happ, Hdrop, Hb1. reflexivity.
  - rewrite (byte_loop_chunk json.unquote_step out body' chunk Hout (Hunq body')).
    rewrite Hb2, Hs. reflexivity.
Qed.

(* ---------- the scanner inside a string literal ---------- *)

Lemma readValue_cons s lit toks seen c rest :
  json.readValue s lit toks seen (String c rest)
  = let '(op, s') := json.scan_step s c in
    match op with
    | json.scanError => inl json.SyntaxError
    | json.scanEnd => inr (rev (json.close_literal lit toks))
    | json.scanContinue =>
        let lit' := option_map (fun item => json.snoc item c) lit in
        match json.step s' with
        | json.stateEndValue =>
            json.readValue s' None (json.close_literal lit' toks) true rest
        | _ => json.readValue s' lit' toks true rest
        end
    | json.scanBeginLiteral =>
        json.readValue s' (Some (String c EmptyString)) toks true rest
    | json.scanBeginObject =>
        json.readValue s' None (json.TokBeginObject :: toks) true rest
    | json.scanBeginArray =>
        json.readValue s' None (json.TokBeginArray :: toks) true rest
    | json.scanEndObject =>
        let toks' := json.TokEndObject :: json.close_literal lit toks in
        match json.parseState s' with
        | [] => inr (rev toks')
        | _ => json.readValue s' None toks' true rest
        end
    | json.scanEndArray =>
        let toks' := json.TokEndArray :: json.close_literal lit toks in
        match json.parseState s' with
        | [] => inr (rev toks')
        | _ => json.readValue s' None toks' true rest
        end
    | json.scanSkipSpace =>
        json.readValue s' None (json.close_literal lit toks) seen rest
    | json.scanObjectKey | json.scanObjectValue | json.scanArrayValue =>
        json.readValue s' None (json.close_literal lit toks) true rest
    end.
Proof. reflexivity. Qed.

Lemma scans_nil : scans_in_string "".
Proof.
  intros ps lit toks rest. rewrite append_nil_l, append_nil_r. reflexivity.
Qed.

Lemma scans_app a b :
  scans_in_string a -> scans_in_string b -> scans_in_string (a +:+ b).
Proof.
  intros Ha Hb ps lit toks rest.
  rewrite append_assoc, Ha, Hb, append_assoc. reflexivity.
Qed.

Lemma snoc_append lit c : json.snoc lit c = lit +:+ String c "".
Proof. reflexivity. Qed.

Lemma append_snoc lit c t : lit +:+ String c t = json.snoc lit c +:+ t.
Proof. unfold json.snoc. rewrite append_assoc. reflexivity. Qed.

Lemma scans_plain c : plain_byte c = true -> scans_in_string (String c "").
Proof.
  unfold plain_byte. intros H.
  apply andb_prop in H as [H Hctl]. apply andb_prop in H as [Hq Hb].
  apply negb_true_iff in Hq, Hb, Hctl.
  intros ps lit toks rest.
  rewrite append_cons, append_nil_l, readValue_cons.
  unfold json.scan_step, in_string. cbn [json.step].
  rewrite Hq, Hb, Hctl. reflexivity.
Qed.

Lemma scans_escape e :
  simple_escape e = true -> scans_in_string (String json.backslash (String e "")).
Proof.
  intros He ps lit toks rest.
  rewrite !append_cons, append_nil_l, readValue_cons.
  unfold json.scan_step at 1. unfold in_string at 1. cbn [json.step].
  change (Ascii.eqb json.backslash json.quote) with false.
  change (Ascii.eqb json.backslash json.backslash) with true.
  cbv iota. unfold json.goto. cbn [json.parseState json.step].
  cbv beta iota zeta. cbn [option_map json.step].
  rewrite readValue_cons.
  unfold json.scan_step at 1. cbn [json.step].
  unfold simple_escape in He. rewrite He.
  unfold json.goto. cbn [json.parseState json.step]. cbv beta iota zeta.
  cbn [option_map]. rewrite !snoc_append, append_assoc. reflexivity.
Qed.

Lemma scans_escape_u h1 h2 h3 h4 :
  json.isHex h1 = true -> json.isHex h2 = true ->
  json.isHex h3 = true -> json.isHex h4 = true ->
  scans_in_string
    (String json.backslash (String "u" (String h1 (String h2 (String h3 (String h4 "")))))).
Proof.
  intros H1 H2 H3 H4 ps lit toks rest.
  rewrite !append_cons, append_nil_l.
  rewrite readValue_cons.
  unfold json.scan_step at 1. unfold in_string at 1. cbn [json.step].
  change (Ascii.eqb json.backslash json.quote) with false.
  change (Ascii.eqb json.backslash json.backslash) with true.
  cbv iota. unfold json.goto. cbn [json.parseState json.step].
  cbv beta iota zeta. cbn [option_map json.step].
  rewrite readValue_cons.
  unfold json.scan_step at 1. cbn [json.step].
  replace (json.byte_is "u" "b" || json.byte_is "u" "f" || json.byte_is "u" "n"
           || json.byte_is "u" "r" || json.byte_is "u" "t"
           || Ascii.eqb "u" json.backslash || json.byte_is "u" "/"
           || Ascii.eqb "u" json.quote) with false by reflexivity.
  change (json.byte_is "u" "u") with true.
  cbv iota. unfold json.goto. cbn [json.parseState json.step].
  cbv beta iota zeta. cbn [option_map json.step].
  rewrite readValue_cons.
  unfold json.scan_step at 1. cbn [json.step]. rewrite H1.
  cbn [Nat.ltb Nat.leb]. unfold json.goto. cbn [json.parseState json.step].
  cbv beta iota zeta. cbn [option_map json.step].
  rewrite readValue_cons.
  unfold json.scan_step at 1. cbn [json.step]. rewrite H2.
  cbn [Nat.ltb Nat.leb]. unfold json.goto. cbn [json.parseState json.step].
  cbv beta iota zeta. cbn [option_map json.step].
  rewrite readValue_cons.
  unfold json.scan_step at 1. cbn [json.step]. rewrite H3.
  cbn [Nat.ltb Nat.leb]. unfold json.goto. cbn [json.parseState json.step].
  cbv beta iota zeta. cbn [option_map json.step].
  rewrite readValue_cons.
  unfold json.scan_step at 1. cbn [json.step]. rewrite H4.
  cbn [Nat.ltb Nat.leb]. unfold json.goto. cbn [json.parseState json.step].
  cbv beta iota zeta. cbn [option_map json.step].
  rewrite !snoc_append, !append_assoc. reflexivity.
Qed.

Lemma scans_ascii_out c :
  (byteZ c <? utf8.RuneSelf) = true -> scans_in_string (ascii_out c).
Proof.
  destruct c as [[] [] [] [] [] [] [] []]; intros H;
    first
      [ discriminate H
      | apply scans_plain; reflexivity
      | apply scans_escape; reflexivity
      | apply scans_escape_u; reflexivity ].
Qed.

Lemma high_byte_is_plain c :
  (utf8.RuneSelf <=? byteZ c) = true -> plain_byte c = true.
Proof.
  intros H. destruct (high_byte_plain c (high_byte_not_ascii c H)) as (Hb & Hq & Hctl).
  unfold plain_byte. rewrite Hb, Hq, Hctl. reflexivity.
Qed.

Lemma scans_high_bytes bs : high_bytes bs = true -> scans_in_string bs.
Proof.
  induction bs as [|c bs IH]; intros H; [apply scans_nil|].
  simpl in H. apply andb_prop in H as [Hc Hbs].
  change (String c bs) with (String c "" +:+ bs).
  apply scans_app; [apply scans_plain, high_byte_is_plain, Hc|apply IH, Hbs].
Qed.

(** Whatever one turn of [appendString] writes, the scanner reads as part
    of a string literal. *)
Lemma appendString_step_scans c rest :
  exists out n chunk t,
    json.appendString_step (String c rest) = Some (out, n)
    /\ String c rest = chunk +:+ t /\ String.length chunk = n /\ (1 <= n)%nat
    /\ scans_in_string out.
Proof.
  unfold json.appendString_step.
  destruct (byteZ c <? utf8.RuneSelf) eqn:Hascii.
  - exists (ascii_out c), 1%nat, (String c ""), rest.
    split; [unfold ascii_out; destruct (json.htmlSafe (byteZ c)); reflexivity|].
    split; [reflexivity|]. split; [reflexivity|]. split; [lia|].
    apply scans_ascii_out, Hascii.
  - destruct (utf8.DecodeRune (String c rest)) as [r size] eqn:Hdec.
    destruct ((r =? utf8.RuneError) && (size =? 1)%nat) eqn:Hok.
    + apply andb_prop in Hok as [_ Hsize]. apply Nat.eqb_eq in Hsize. subst size.
      exists (String json.backslash "ufffd"), 1%nat, (String c ""), rest.
      split; [reflexivity|]. split; [reflexivity|]. split; [reflexivity|].
      split; [lia|]. apply scans_escape_u; reflexivity.
    + destruct (DecodeRune_multi_byte c rest r size Hascii Hdec Hok)
        as (bs & t & Hs & Hlen & Hmb).
      destruct Hmb as (_ & _ & Hhigh & Hlen2).
      destruct ((r =? 0x2028) || (r =? 0x2029)) eqn:Hsep.
      * eexists. exists size, bs, t.
        split; [reflexivity|]. split; [exact Hs|]. split; [exact Hlen|].
        split; [lia|].
        apply orb_prop in Hsep as [H|H]; apply Z.eqb_eq in H; subst r;
          apply scans_escape_u; reflexivity.
      * exists bs, size, bs, t.
        split; [rewrite Hs, <- Hlen, substring_append; reflexivity|].
        split; [exact Hs|]. split; [exact Hlen|]. split; [lia|].
        apply scans_high_bytes, Hhigh.
Qed.

(** [appendString] is total, and the scanner reads all it writes between
    the quotes as the inside of one string literal. *)
Lemma appendString_body_scans (s : string) :
  exists body,
    byte_loop json.appendString_step 0 s = Some body /\ scans_in_string body.
Proof.
  remember (String.length s) as len eqn:Hlen.
  revert s Hlen. induction len as [len IH] using lt_wf_ind. intros s Hlen.
  destruct s as [|c rest]; [exists ""; split; [reflexivity|apply scans_nil]|].
  destruct (appendString_step_scans c rest)
    as (out & n & chunk & t & Hstep & Hs & Hclen & Hn & Hscan).
  assert (Hdrop : drop_bytes (Nat.pred n) rest = t).
  { change (drop_bytes (Nat.pred n) rest) with
      (drop_bytes (Datatypes.S (Nat.pred n)) (String c rest)).
    replace (Datatypes.S (Nat.pred n)) with n by lia.
    rewrite Hs, <- Hclen. apply drop_bytes_append. }
  assert (Hshort : (String.length t < len)%nat).
  { subst len. rewrite Hs, length_append. lia. }
  destruct (IH (String.length t) Hshort t eq_refl) as (body' & Hb & Hscan').
  exists (out +:+ body'). split.
  - rewrite byte_loop_cons, Hstep, Hdrop, Hb. reflexivity.
  - apply scans_app; assumption.
Qed.

Lemma scan_step_open_quote st ps :
  begins_string st = true ->
  json.scan_step (json.mkScanner st ps) json.quote
  = (json.scanBeginLiteral, in_string ps).
Proof. destruct st; intros H; try discriminate H; reflexivity. Qed.

(** A quoted text whose inside the scanner accepts is read as one literal,
    after which the scanner is at the end of a value. *)
Lemma readValue_string_literal body st ps toks seen rest :
  scans_in_string body -> begins_string st = true ->
  json.readValue (json.mkScanner st ps) None toks seen
                 (String json.quote (body +:+ String json.quote rest))
  = json.readValue (json.mkScanner json.stateEndValue ps) None
      (json.TokLiteral (String json.quote (body +:+ String json.quote "")) :: toks)
      true rest.
Proof.
  intros Hscan Hst.
  rewrite readValue_cons, (scan_step_open_quote st ps Hst). cbv beta iota zeta.
  rewrite Hscan. rewrite readValue_cons.
  unfold json.scan_step, in_string. cbn [json.step].
  change (Ascii.eqb json.quote json.quote) with true. cbv iota.
  unfold json.goto. cbn [json.parseState json.step]. cbv beta iota zeta.
  cbn [option_map json.close_literal]. reflexivity.
Qed.

(* ---------- number literals ---------- *)

Ltac scan_cases :=
  unfold json.scan_step, json.do_stateBeginValue, json.do_state0, json.do_stateESign,
    json.do_stateEndValue, json.do_stateEndTop, json.goto, json.scan_error,
    json.pushParseState;
  cbn [json.step json.parseState];
  repeat match goal with
         | |- context [if ?b then _ else _] => destruct b eqn:?
         end.

Lemma number_step_any_stack st c s' ps :
  number_state st = true ->
  json.scan_step (json.mkScanner st []) c = (json.scanContinue, s') ->
  json.scan_step (json.mkScanner st ps) c
  = (json.scanContinue, json.mkScanner (json.step s') ps).
Proof.
  destruct st; intros Hst; try discriminate Hst; clear Hst;
    scan_cases; intros H; inversion H; subst; try reflexivity;
    destruct ps as [|[] ps]; try discriminate.
Qed.

Lemma number_begin_any_stack c s' ps :
  json.scan_step (json.mkScanner json.stateBeginValue []) c
  = (json.scanBeginLiteral, s') ->
  number_state (json.step s') = true ->
  json.scan_step (json.mkScanner json.stateBeginValue ps) c
  = (json.scanBeginLiteral, json.mkScanner (json.step s') ps).
Proof.
  scan_cases; intros H; inversion H; subst; intros Hn; try discriminate Hn;
    reflexivity.
Qed.

(** The first byte of a number is none of those by which [literalStore]
    tells [null], [true], [false] and strings. *)
Lemma number_first_byte c rest :
  is_number (String c rest) = true ->
  json.byte_is c "n" = false /\ json.byte_is c "t" = false
  /\ json.byte_is c "f" = false /\ Ascii.eqb c json.quote = false.
Proof.
  destruct c as [[] [] [] [] [] [] [] []]; intros H;
    first [discriminate H | repeat split].
Qed.

Lemma number_end_comma st ps :
  number_end st = true ->
  json.scan_step (json.mkScanner st (json.parseObjectValue :: ps)) ","
  = (json.scanObjectValue,
     json.mkScanner json.stateBeginString (json.parseObjectKey :: ps)).
Proof. destruct st; intros H; try discriminate H; reflexivity. Qed.

Lemma number_end_brace st :
  number_end st = true ->
  json.scan_step (json.mkScanner st [json.parseObjectValue]) "}"
  = (json.scanEndObject, json.mkScanner json.stateEndTop []).
Proof. destruct st; intros H; try discriminate H; reflexivity. Qed.

Lemma readValue_in_number text :
  forall st lit ps toks,
    number_state st = true -> scans_number_from st text = true ->
    exists st',
      number_end st' = true
      /\ forall tail,
          json.readValue (json.mkScanner st ps) (Some lit) toks true (text +:+ tail)
          = json.readValue (json.mkScanner st' ps) (Some (lit +:+ text)) toks true tail.
Proof.
  induction text as [|c text IH]; intros st lit ps toks Hst Hscan.
  - exists st. split; [exact Hscan|]. intros tail.
    rewrite append_nil_l, append_nil_r. reflexivity.
  - simpl in Hscan.
    destruct (json.scan_step (json.mkScanner st []) c) as [op s'] eqn:Hstep.
    destruct op; try discriminate Hscan.
    apply andb_prop in Hscan as [Hst' Hrest].
    destruct (IH (json.step s') (json.snoc lit c) ps toks Hst' Hrest)
      as (st' & Hend & Hread).
    exists st'. split; [exact Hend|]. intros tail.
    rewrite append_cons, readValue_cons.
    rewrite (number_step_any_stack st c s' ps Hst Hstep).
    cbv beta iota zeta. cbn [json.step option_map].
    replace (lit +:+ String c text) with (json.snoc lit c +:+ text)
      by (symmetry; apply append_snoc).
    rewrite <- Hread.
    destruct (json.step s'); try discriminate Hst'; reflexivity.
Qed.

Lemma number_reads_as_value text :
  is_number text = true -> reads_as_value text.
Proof.
  intros Hnum. destruct text as [|c text]; [discriminate Hnum|].
  unfold is_number in Hnum.
  destruct (json.scan_step (json.mkScanner json.stateBeginValue []) c)
    as [op s'] eqn:Hstep.
  destruct op; try discriminate Hnum.
  apply andb_prop in Hnum as [Hst Hrest].
  split.
  - intros ps toks rest.
    destruct (readValue_in_number text (json.step s') (String c "")
                (json.parseObjectValue :: ps) toks Hst Hrest) as (st' & Hend & Hread).
    rewrite append_cons, readValue_cons.
    rewrite (number_begin_any_stack c s' _ Hstep Hst). cbv beta iota zeta.
    rewrite Hread, readValue_cons, (number_end_comma st' ps Hend).
    reflexivity.
  - intros toks rest.
    destruct (readValue_in_number text (json.step s') (String c "")
                [json.parseObjectValue] toks Hst Hrest) as (st' & Hend & Hread).
    rewrite append_cons, readValue_cons.
    rewrite (number_begin_any_stack c s' _ Hstep Hst). cbv beta iota zeta.
    rewrite Hread, readValue_cons, (number_end_brace st' Hend).
    reflexivity.
Qed.

Lemma string_reads_as_value body :
  scans_in_string body ->
  reads_as_value (String json.quote (body +:+ String json.quote "")).
Proof.
  intros Hscan. split.
  - intros ps toks rest.
    rewrite append_cons, append_assoc, append_cons, append_nil_l.
    rewrite (readValue_string_literal body json.stateBeginValue _ toks true _ Hscan eq_refl).
    rewrite readValue_cons. reflexivity.
  - intros toks rest.
    rewrite append_cons, append_assoc, append_cons, append_nil_l.
    rewrite (readValue_string_literal body json.stateBeginValue _ toks true _ Hscan eq_refl).
    rewrite readValue_cons. reflexivity.
Qed.

(* ---------- the members of an object ---------- *)

Lemma members_field_members sc p :
  price_is_finite (Product.Price p) = true ->
  json.members sc p
  = List.map (fun m => (json.field_name (fst m), Some (snd m))) (field_members sc p).
Proof.
  intros Hfin. destruct p as [id name desc price]. simpl in Hfin.
  unfold json.members, field_members, json.string_member, json.float_member.
  cbn [Product.ID Product.Name Product.Description Product.Price].
  destruct (json.isEmptyString id), (json.isEmptyString name),
    (json.isEmptyString desc), price; try discriminate Hfin; reflexivity.
Qed.

Lemma write_members_text first fm :
  json.write_members first
    (List.map (fun m => (json.field_name (fst m), Some (snd m))) fm)
  = Some (members_text first fm).
Proof.
  revert first. induction fm as [|m fm IH]; intros first; [reflexivity|].
  cbn [List.map json.write_members]. rewrite IH. reflexivity.
Qed.

Lemma Marshal_text sc p :
  price_is_finite (Product.Price p) = true ->
  json.Marshal sc p = Some ("{" +:+ members_text true (field_members sc p) +:+ "}").
Proof.
  intros Hfin. unfold json.Marshal.
  rewrite (members_field_members sc p Hfin), write_members_text. reflexivity.
Qed.

Lemma field_name_scans f : scans_in_string (json.field_name f).
Proof.
  destruct (appendString_body_scans (json.field_name f)) as (body & Hb & Hs).
  destruct f; vm_compute in Hb; inversion Hb; subst; exact Hs.
Qed.

Lemma member_text_shape m tail :
  member_text m +:+ tail
  = String json.quote
      (json.field_name (fst m) +:+ String json.quote (String ":" (snd m +:+ tail))).
Proof.
  unfold member_text.
  rewrite append_cons, append_assoc, append_cons, append_assoc.
  reflexivity.
Qed.

Lemma members_text_cons m fm tail :
  members_text false (m :: fm) +:+ tail
  = String "," (member_text m +:+ members_text false fm +:+ tail).
Proof.
  cbn [members_text]. rewrite append_assoc, append_assoc. reflexivity.
Qed.

(** Reading the members of an object, from the key of the first of them to
    the closing brace. *)
Lemma readValue_members fm :
  Forall (fun m => reads_as_value (snd m)) fm ->
  forall m st toks rest,
    reads_as_value (snd m) ->
    st = json.stateBeginString \/ st = json.stateBeginStringOrEmpty ->
    json.readValue (json.mkScanner st [json.parseObjectKey]) None toks true
                   (member_text m +:+ members_text false fm +:+ String "}" rest)
    = inr (rev toks ++ member_tokens (m :: fm) ++ [json.TokEndObject])%list.
Proof.
  induction fm as [|m' fm IH]; intros Hall m st toks rest Hm Hst.
  - cbn [members_text]. rewrite append_nil_l, member_text_shape.
    rewrite (readValue_string_literal _ st _ toks true _ (field_name_scans (fst m)))
      by (destruct Hst; subst st; reflexivity).
    rewrite readValue_cons.
    change (json.scan_step (json.mkScanner json.stateEndValue [json.parseObjectKey]) ":")
      with (json.scanObjectKey,
            json.mkScanner json.stateBeginValue [json.parseObjectValue]).
    cbv beta iota zeta. cbn [json.close_literal].
    destruct Hm as (_ & Hend). rewrite Hend.
    cbn [rev member_tokens flat_map]. rewrite <- !app_assoc. reflexivity.
  - inversion Hall as [|? ? Hm' Hall']; subst.
    rewrite members_text_cons, member_text_shape.
    rewrite (readValue_string_literal _ st _ toks true _ (field_name_scans (fst m)))
      by (destruct Hst; subst st; reflexivity).
    rewrite readValue_cons.
    change (json.scan_step (json.mkScanner json.stateEndValue [json.parseObjectKey]) ":")
      with (json.scanObjectKey,
            json.mkScanner json.stateBeginValue [json.parseObjectValue]).
    cbv beta iota zeta. cbn [json.close_literal].
    destruct Hm as (Hcomma & _). rewrite Hcomma.
    rewrite (IH Hall' m' json.stateBeginString _ rest Hm' (or_introl eq_refl)).
    cbn [rev member_tokens flat_map]. rewrite <- !app_assoc. reflexivity.
Qed.

(** Reading the encoding of an object, whatever follows it. *)
Lemma readValue_object fm tail :
  Forall (fun m => reads_as_value (snd m)) fm ->
  json.readValue json.scanner_reset None [] false
                 ("{" +:+ members_text true fm +:+ "}" +:+ tail)
  = inr (json.TokBeginObject :: member_tokens fm ++ [json.TokEndObject])%list.
Proof.
  intros Hall.
  change ("{" +:+ members_text true fm +:+ "}" +:+ tail)
    with (String "{" (members_text true fm +:+ String "}" tail)).
  rewrite readValue_cons.
  change (json.scan_step json.scanner_reset "{")
    with (json.scanBeginObject,
          json.mkScanner json.stateBeginStringOrEmpty [json.parseObjectKey]).
  cbv beta iota zeta.
  destruct fm as [|m fm].
  - cbn [members_text]. rewrite append_nil_l, readValue_cons. reflexivity.
  - inversion Hall as [|? ? Hm Hall']; subst.
    cbn [members_text]. rewrite append_nil_l, append_assoc.
    rewrite (readValue_members fm Hall' m json.stateBeginStringOrEmpty _ tail Hm
               (or_intror eq_refl)).
    reflexivity.
Qed.

(* ---------- decoding the tokens of an object ---------- *)

Lemma unquote_quoted_field f :
  json.unquote (quoted (json.field_name f)) = Some (json.field_name f).
Proof. destruct f; vm_compute; reflexivity. Qed.

Lemma lookup_field_name f : json.lookup_field (json.field_name f) = Some f.
Proof. destruct f; vm_compute; reflexivity. Qed.

Lemma object_key sc item toks p bad :
  json.object sc (json.TokLiteral item :: toks) O None p bad
  = match json.unquote item with
    | Some k => json.object sc toks O (Some (json.lookup_field k)) p bad
    | None => (p, true)
    end.
Proof. reflexivity. Qed.

Lemma object_value sc item f toks p bad :
  json.object sc (json.TokLiteral item :: toks) O (Some (Some f)) p bad
  = let '(p', b) := json.literalStore sc item f p in
    json.object sc toks O None p' (bad || b).
Proof. reflexivity. Qed.

(** The decoder stores the values of the members in turn. *)
Lemma object_members sc fm :
  forall p bad,
    json.object sc (member_tokens fm ++ [json.TokEndObject])%list O None p bad
    = fold_left (store sc) fm (p, bad).
Proof.
  induction fm as [|[f text] fm IH]; intros p bad; [reflexivity|].
  cbn [member_tokens flat_map fst snd]. rewrite <- !app_comm_cons.
  cbn [app]. rewrite object_key, unquote_quoted_field, lookup_field_name.
  rewrite object_value. cbn [fold_left]. unfold store at 2. cbn [fst snd].
  destruct (json.literalStore sc text f p) as [p' b].
  fold (member_tokens fm). apply IH.
Qed.

Lemma split_last_snoc body c : json.split_last (body +:+ String c "") = Some (body, c).
Proof.
  induction body as [|x body IH]; [reflexivity|].
  rewrite append_cons. cbn [json.split_last]. rewrite IH.
  destruct body; reflexivity.
Qed.

(** The string literal the encoder writes for a valid string is read back
    as that string. *)
Lemma unquote_appendString v :
  utf8.ValidString v = true -> json.unquote (json.appendString v) = Some v.
Proof.
  intros Hvalid. destruct (append_unquote_loop v Hvalid) as (body & Happ & Hunq).
  unfold json.appendString. rewrite Happ. unfold json.unquote.
  rewrite split_last_snoc. rewrite Ascii.eqb_refl. exact Hunq.
Qed.

Lemma appendString_reads_as_value v : reads_as_value (json.appendString v).
Proof.
  destruct (appendString_body_scans v) as (body & Happ & Hscan).
  unfold json.appendString. rewrite Happ. apply string_reads_as_value, Hscan.
Qed.

Lemma appendString_first v :
  exists rest, json.appendString v = String json.quote rest.
Proof.
  destruct (appendString_body_scans v) as (body & Happ & _).
  unfold json.appendString. rewrite Happ. eexists. reflexivity.
Qed.

Lemma literalStore_string sc f v p :
  f <> json.fPrice -> utf8.ValidString v = true ->
  json.literalStore sc (json.appendString v) f p
  = (json.set_field_string f v p, false).
Proof.
  intros Hf Hvalid. pose proof (unquote_appendString v Hvalid) as Hunq.
  destruct (appendString_first v) as (rest & Hshape).
  unfold json.literalStore. rewrite Hshape in *.
  change (json.byte_is json.quote "n") with false.
  change (json.byte_is json.quote "t" || json.byte_is json.quote "f") with false.
  rewrite Ascii.eqb_refl. cbv iota. rewrite Hunq.
  destruct f; try reflexivity. exfalso. apply Hf. reflexivity.
Qed.

Lemma literalStore_price sc text x p :
  is_number text = true -> ParseFloat sc text = Some x ->
  json.literalStore sc text json.fPrice p = (json.set_Price x p, false).
Proof.
  intros Hnum Hparse. destruct text as [|c rest]; [discriminate Hnum|].
  destruct (number_first_byte c rest Hnum) as (Hn & Ht & Hf & Hq).
  unfold json.literalStore. rewrite Hn, Ht, Hf, Hq, Hparse. reflexivity.
Qed.

(* ---------- the round trip ---------- *)

Lemma isEmptyString_nil v : json.isEmptyString v = true -> v = "".
Proof. destruct v; [reflexivity|discriminate]. Qed.

Lemma field_members_read sc p :
  price_round_trips sc (Product.Price p) ->
  Forall (fun m => reads_as_value (snd m)) (field_members sc p).
Proof.
  intros Hprice. destruct p as [id name desc price]. unfold field_members.
  cbn [Product.ID Product.Name Product.Description Product.Price] in *.
  repeat apply Forall_app_2.
  - destruct (json.isEmptyString id); constructor;
      [apply appendString_reads_as_value|constructor].
  - destruct (json.isEmptyString name); constructor;
      [apply appendString_reads_as_value|constructor].
  - destruct (json.isEmptyString desc); constructor;
      [apply appendString_reads_as_value|constructor].
  - destruct (json.isEmptyFloat price) eqn:He; constructor; [|constructor].
    apply number_reads_as_value. apply (Hprice He).
Qed.

Lemma field_members_stored sc p :
  utf8.ValidString (Product.ID p) = true ->
  utf8.ValidString (Product.Name p) = true ->
  utf8.ValidString (Product.Description p) = true ->
  price_round_trips sc (Product.Price p) ->
  fold_left (store sc) (field_members sc p) (Product_zero, false)
  = (decoded p, false).
Proof.
  intros Hid Hname Hdesc Hprice. destruct p as [id name desc price].
  unfold field_members, decoded.
  cbn [Product.ID Product.Name Product.Description Product.Price] in *.
  destruct (json.isEmptyString id) eqn:Eid;
    destruct (json.isEmptyString name) eqn:Ename;
    destruct (json.isEmptyString desc) eqn:Edesc;
    destruct (json.isEmptyFloat price) eqn:Eprice;
    try (apply isEmptyString_nil in Eid; subst id);
    try (apply isEmptyString_nil in Ename; subst name);
    try (apply isEmptyString_nil in Edesc; subst desc);
    try (destruct (Hprice Eprice) as (Hnum & Hparse));
    cbn [app fold_left]; unfold store; cbn [fst snd];
    rewrite ?literalStore_string by (assumption || discriminate);
    cbn [fst snd];
    rewrite ?(literalStore_price sc _ price _ Hnum Hparse);
    reflexivity.
Qed.

(** C8, as amended.  For a product whose three string fields are valid
    UTF-8 and whose price is finite, and for which strconv writes the price
    as a JSON number that it parses back to the same price, the encoder
    writes a wire form and the decoder, run on that wire form from the zero
    value, succeeds and gives the identifier, the name and the description
    back unchanged, and the price too when it is not a zero (a zero price
    is left out of the wire form and read as the zero value). *)
Theorem encode_then_decode_gives_the_set_fields_back (sc : Strconv) (p : Product) :
  utf8.ValidString (Product.ID p) = true ->
  utf8.ValidString (Product.Name p) = true ->
  utf8.ValidString (Product.Description p) = true ->
  price_is_finite (Product.Price p) = true ->
  price_round_trips sc (Product.Price p) ->
  exists wire p',
    json.Encode_Product sc p = Some wire
    /\ json.Decode_Product sc wire Product_zero = (p', None)
    /\ Product.ID p' = Product.ID p
    /\ Product.Name p' = Product.Name p
    /\ Product.Description p' = Product.Description p
    /\ (json.isEmptyFloat (Product.Price p) = false ->
        Product.Price p' = Product.Price p).
Proof.
  intros Hid Hname Hdesc Hfin Hprice.
  exists ("{" +:+ members_text true (field_members sc p) +:+ "}"
              +:+ String json.newline ""), (decoded p).
  split; [|split].
  - unfold json.Encode_Product. rewrite (Marshal_text sc p Hfin).
    rewrite !append_assoc. reflexivity.
  - unfold json.Decode_Product.
    rewrite (readValue_object _ _ (field_members_read sc p Hprice)).
    cbn [json.unmarshal_Product].
    rewrite object_members, (field_members_stored sc p Hid Hname Hdesc Hprice).
    reflexivity.
  - unfold decoded. cbn [Product.ID Product.Name Product.Description Product.Price].
    repeat split. intros He. rewrite He. reflexivity.
Qed.

Lemma encode_then_decode_gives_the_set_fields_back_witness :
  let p := Product.mk "42" "Café" "A desk lamp, 40 W" price_1_5 in
  utf8.ValidString (Product.ID p) = true
  /\ utf8.ValidString (Product.Name p) = true
  /\ utf8.ValidString (Product.Description p) = true
  /\ price_is_finite (Product.Price p) = true
  /\ price_round_trips example_strconv (Product.Price p)
  /\ exists wire,
      json.Encode_Product example_strconv p = Some wire
      /\ json.Decode_Product example_strconv wire Product_zero = (p, None).
Proof.
  intros p.
  assert (H1 : utf8.ValidString (Product.ID p) = true) by (vm_compute; reflexivity).
  assert (H2 : utf8.ValidString (Product.Name p) = true) by (vm_compute; reflexivity).
  assert (H3 : utf8.ValidString (Product.Description p) = true)
    by (vm_compute; reflexivity).
  assert (H4 : price_is_finite (Product.Price p) = true) by reflexivity.
  assert (H5 : price_round_trips example_strconv (Product.Price p)).
  { intros _. split; vm_compute; reflexivity. }
  pose proof (encode_then_decode_gives_the_set_fields_back
                example_strconv p H1 H2 H3 H4 H5) as H.
  destruct H as (wire & p' & Henc & Hdec & Ei & En & Ed & Ep).
  refine (conj H1 (conj H2 (conj H3 (conj H4 (conj H5 _))))).
  exists wire. split; [exact Henc|].
  rewrite Hdec. f_equal.
  destruct p' as [i n d x]. simpl in Ei, En, Ed, Ep.
  rewrite Ei, En, Ed, (Ep eq_refl). reflexivity.
Defined.

(** C8 as it is written fails.  The name that is the single byte FF is no
    valid UTF-8: the encoder writes the escape of U+FFFD for it, and the
    decoder reads three bytes back, the encoding of U+FFFD.  The name that
    is the byte FE has the same wire form, so that no decoder could give
    both names back.  And a product whose price is a NaN has no wire
    form. *)
Lemma invalid_utf8_name_comes_back_changed :
  let name_ff := String (zbyte 0xFF) EmptyString in
  let name_fe := String (zbyte 0xFE) EmptyString in
  let p := Product.mk EmptyString name_ff EmptyString (S754_zero false) in
  let q := Product.mk EmptyString name_fe EmptyString (S754_zero false) in
  let wire := "{" +:+ quoted "name" +:+ ":" +:+ quoted (String json.backslash "ufffd")
                  +:+ "}" +:+ String json.newline EmptyString in
  json.isEmptyString (Product.Name p) = false
  /\ json.Encode_Product example_strconv p = Some wire
  /\ json.Decode_Product example_strconv wire Product_zero
     = (Product.mk EmptyString (utf8.EncodeRune utf8.RuneError) EmptyString
                   (S754_zero false), None)
  /\ utf8.EncodeRune utf8.RuneError <> Product.Name p
  /\ json.Encode_Product example_strconv q = Some wire
  /\ Product.Name q <> Product.Name p
  /\ json.Encode_Product example_strconv
       (Product.mk "42" "X" EmptyString S754_nan) = None.
Proof. vm_compute. repeat split; discriminate. Qed.

(* ===================================================================== *)
(** * The library calls on a few inputs *)
(* ===================================================================== *)

(** [errors.Is] follows [fmt.Errorf] with [%w] and [errors.Join] down to the
    sentinel; another error made by [errors.New] with the text of the
    sentinel is not the sentinel. *)
Example errors_Is_examples :
  errors_Is_NotFound ErrNotFound = true
  /\ errors_Is_NotFound (fmt_Errorf_w "get 7" (fmt_Errorf_w "store" ErrNotFound)) = true
  /\ errors_Is_NotFound (errors_Join [errors_New "timeout"; ErrNotFound]) = true
  /\ errors_Is_NotFound (errors_New "shop: not found") = false
  /\ errors_Is_NotFound (fmt_Errorf_w "get 7" (errors_New "timeout")) = false.
Proof. repeat split. Qed.

(** The encoder escapes the quote, the backslash, the control characters
    and the characters of HTML, and copies valid UTF-8. *)
Example appendString_examples :
  json.appendString "a<b" = quoted (String "a" (String json.backslash "u003cb"))
  /\ json.appendString (String json.quote "x")
     = quoted (String json.backslash (String json.quote "x"))
  /\ json.appendString (String json.newline EmptyString)
     = quoted (String json.backslash "n")
  /\ json.appendString "Café" = quoted "Café".
Proof. vm_compute. repeat split. Qed.

(** The decoder skips white space, matches the keys without regard to
    case, skips the value of a key it does not know, whatever is nested in
    it, and keeps the last value of a key given twice. *)
Example Decode_Product_examples :
  json.Decode_Product example_strconv
    (" { " +:+ quoted "NAME" +:+ " : " +:+ quoted "lamp" +:+ " , "
          +:+ quoted "tags" +:+ ":[1,{" +:+ quoted "id" +:+ ":2}], "
          +:+ quoted "price" +:+ ": 1.5, "
          +:+ quoted "name" +:+ ":" +:+ quoted "Lamp" +:+ "}") Product_zero
  = (Product.mk EmptyString "Lamp" EmptyString price_1_5, None)
  /\ snd (json.Decode_Product example_strconv "null" Product_zero) = None
  /\ snd (json.Decode_Product example_strconv EmptyString Product_zero)
     = Some json.EOF
  /\ snd (json.Decode_Product example_strconv "[]" Product_zero)
     = Some json.UnmarshalTypeError
  /\ snd (json.Decode_Product example_strconv
            ("{" +:+ quoted "name" +:+ ":tru}") Product_zero)
     = Some json.SyntaxError.
Proof. vm_compute. repeat split. Qed.

(* ===================================================================== *)
(** * What holds of every response *)
(* ===================================================================== *)

(** The world an operation leaves behind is one of a few shapes; the
    statements about every response are read off them. *)
Ltac run_endpoint ep :=
  destruct ep; cbn [endpoint];
  [ rewrite CreateProduct_run;
    destruct (json.Decode_Product _ _ Product_zero) as [? [?|]];
    [|destruct (svc_CreateProduct _ _ _) as [[? [?|]] ?]]
  | rewrite ListProducts_run, Decode_ProductFilter_ignoring;
    destruct (svc_ListProducts _ _ _) as [[? [?|]] ?]
  | rewrite GetProduct_run; cbv zeta;
    destruct (svc_GetProduct _ _ _) as [[? [e|]] ?];
    [destruct (errors_Is_NotFound e)|]
  | rewrite UpdateProduct_run; cbv zeta;
    destruct (json.Decode_ProductUpdate _ mkProductUpdate) as [? [?|]];
    [|destruct (svc_UpdateProduct _ _ _ _) as [[? [e|]] ?];
      [destruct (errors_Is_NotFound e)|]]
  | rewrite DeleteProduct_run; cbv zeta;
    destruct (svc_DeleteProduct _ _ _) as [[e|] ?];
    [destruct (errors_Is_NotFound e)|] ];
  unfold json_response, write_encoded;
  repeat match goal with
         | |- context [match ?o with Some _ => _ | None => _ end] => destruct o
         end.

(** The same, keeping what the decoder and the service returned. *)
Ltac run_endpoint_eq ep :=
  destruct ep; cbn [endpoint];
  [ rewrite CreateProduct_run;
    destruct (json.Decode_Product _ _ Product_zero) as [? [?|]];
    [|destruct (svc_CreateProduct _ _ _) as [[? [?|]] ?] eqn:?]
  | rewrite ListProducts_run, Decode_ProductFilter_ignoring;
    destruct (svc_ListProducts _ _ _) as [[? [?|]] ?] eqn:?
  | rewrite GetProduct_run; cbv zeta;
    destruct (svc_GetProduct _ _ _) as [[? [e|]] ?] eqn:?;
    [destruct (errors_Is_NotFound e)|]
  | rewrite UpdateProduct_run; cbv zeta;
    destruct (json.Decode_ProductUpdate _ mkProductUpdate) as [? [?|]];
    [|destruct (svc_UpdateProduct _ _ _ _) as [[? [e|]] ?] eqn:?;
      [destruct (errors_Is_NotFound e)|]]
  | rewrite DeleteProduct_run; cbv zeta;
    destruct (svc_DeleteProduct _ _ _) as [[e|] ?] eqn:?;
    [destruct (errors_Is_NotFound e)|] ];
  unfold json_response, write_encoded;
  repeat match goal with
         | |- context [match ?o with Some _ => _ | None => _ end] => destruct o
         end.

(** X1.  Every operation, whatever the request, the service and its state,
    writes a status, and the status is one of those of its source text:
    201, 400 or 500 for Create; 200 or 500 for List, whose 400 cannot occur;
    200, 404 or 500 for Get; 200, 400, 404 or 500 for Update; 204, 404 or
    500 for Delete. *)
Theorem every_response_has_a_status_of_its_operation
        {S : Type} (service : Service S) (strconv : Strconv)
        (ep : Endpoint) (r : Request) (s : S) :
  let st := serve (endpoint service strconv ep) r s in
  wroteHeader (w st) = true /\ In (status (w st)) (statuses ep).
Proof.
  intros st. subst st. run_endpoint ep; (split; [reflexivity|]); cbn; auto 6.
Qed.

(** X2.  A request is logged exactly when it is answered by 500: then the
    operation has made one call, the service has returned an error from
    it, and the log holds one record, at the level Info, with the message
    of the operation and that very error, after the identifier for the
    operations on one product; with any other status the log is empty. *)
Theorem a_request_is_logged_exactly_when_answered_500
        {S : Type} (service : Service S) (strconv : Strconv)
        (ep : Endpoint) (r : Request) (s : S) :
  let st := serve (endpoint service strconv ep) r s in
  (status (w st) = StatusInternalServerError ->
   exists c e,
     calls st = [c] /\ call_of ep c = true
     /\ call_error service c s = Some e
     /\ log st = [mkLogRecord LevelInfo (endpoint_message ep)
                    (endpoint_attrs ep r e)])
  /\ (status (w st) <> StatusInternalServerError -> log st = []).
Proof.
  intros st. subst st.
  run_endpoint_eq ep; cbn; (split; [intros H|intros H]);
    first [ reflexivity | discriminate H | (exfalso; apply H; reflexivity)
          | (do 2 eexists; split; [reflexivity|]; split; [reflexivity|];
             split; [|reflexivity]; cbn [call_error];
             match goal with E : _ = (_, _) |- _ => rewrite E end; reflexivity) ].
Qed.

(** X3.  An operation calls the service at most once.  It makes no call, and
    leaves the state of the service as it was, exactly when it answers
    400; with any other status it has made one call, of its own method. *)
Theorem the_service_is_called_once_unless_the_answer_is_400
        {S : Type} (service : Service S) (strconv : Strconv)
        (ep : Endpoint) (r : Request) (s : S) :
  let st := serve (endpoint service strconv ep) r s in
  (status (w st) = StatusBadRequest -> calls st = [] /\ service_state st = s)
  /\ (status (w st) <> StatusBadRequest ->
      exists c, calls st = [c] /\ call_of ep c = true).
Proof.
  intros st. subst st.
  run_endpoint ep; cbn; (split; [intros H|intros H]);
    first [ (split; reflexivity) | discriminate H
          | (exfalso; apply H; reflexivity)
          | (eexists; split; reflexivity) ].
Qed.

(** X4.  Headers and body go with success.  Every header an operation sets is
    sent; a response with the status 200 or 201 carries the content type
    [application/json]; a response with any other status carries no header
    and no body; and the header Location is sent with 201 only. *)
Theorem headers_and_body_go_with_success
        {S : Type} (service : Service S) (strconv : Strconv)
        (ep : Endpoint) (r : Request) (s : S) :
  let st := serve (endpoint service strconv ep) r s in
  Header (w st) = sentHeader (w st)
  /\ (status (w st) = StatusOK \/ status (w st) = StatusCreated ->
      sentHeader (w st) !! "Content-Type" = Some ["application/json"])
  /\ (status (w st) <> StatusOK -> status (w st) <> StatusCreated ->
      sentHeader (w st) = ∅ /\ written (w st) = EmptyString)
  /\ (is_Some (sentHeader (w st) !! "Location") <-> status (w st) = StatusCreated).
Proof.
  intros st. subst st.
  run_endpoint ep; cbn;
    (split; [reflexivity|]);
    (split; [intros [H|H]; first [reflexivity | discriminate H]|]);
    (split; [intros H1 H2;
             first [ (split; reflexivity) | (exfalso; apply H1; reflexivity)
                   | (exfalso; apply H2; reflexivity) ]|]);
    (split; [intros [x Hx]; first [reflexivity | discriminate Hx]
            |intros H; first [discriminate H | (eexists; reflexivity)]]).
Qed.

(* ===================================================================== *)
(** * Create and List: the failures of the service *)
(* ===================================================================== *)

(** X5.  Create has no case for an error of the NotFound kind.  Whatever error
    the service returns from [CreateProduct], [ErrNotFound] included, the
    answer is 500 without header or body, never 404, and the log holds one
    record with the error as its only attribute. *)
Theorem create_answers_500_for_every_error_of_the_service
        {S : Type} (service : Service S) (strconv : Strconv)
        (r : Request) (s s' : S) (p product : Product) (e : error) :
  json.Decode_Product strconv (Body r) Product_zero = (p, None) ->
  svc_CreateProduct service p s = ((product, Some e), s') ->
  let st := serve (CreateProduct service strconv) r s in
  status (w st) = StatusInternalServerError
  /\ sentHeader (w st) = ∅ /\ written (w st) = EmptyString
  /\ log st = [mkLogRecord LevelInfo "failed to create product"
                 [("error", AnyError e)]]
  /\ calls st = [CallCreateProduct p] /\ service_state st = s'.
Proof.
  intros Hdec Hsvc st. subst st.
  rewrite CreateProduct_run, Hdec, Hsvc. repeat split.
Qed.

Lemma create_answers_500_for_every_error_of_the_service_witness :
  let r := request_with_body body_name_X in
  let p := Product.mk EmptyString "X" EmptyString (S754_zero false) in
  let st := serve (CreateProduct (failing_service ErrNotFound) example_strconv) r 0%nat in
  json.Decode_Product example_strconv (Body r) Product_zero = (p, None)
  /\ svc_CreateProduct (failing_service ErrNotFound) p 0%nat
     = ((Product_zero, Some ErrNotFound), 1%nat)
  /\ errors_Is_NotFound ErrNotFound = true
  /\ status (w st) = StatusInternalServerError
  /\ log st = [mkLogRecord LevelInfo "failed to create product"
                 [("error", AnyError ErrNotFound)]].
Proof.
  intros r p st.
  assert (H1 : json.Decode_Product example_strconv (Body r) Product_zero = (p, None))
    by (vm_compute; reflexivity).
  assert (H2 : svc_CreateProduct (failing_service ErrNotFound) p 0%nat
               = ((Product_zero, Some ErrNotFound), 1%nat)) by reflexivity.
  pose proof (create_answers_500_for_every_error_of_the_service
                (failing_service ErrNotFound) example_strconv r 0%nat 1%nat
                p Product_zero ErrNotFound H1 H2) as H.
  destruct H as (Hs & _ & _ & Hl & _).
  exact (conj H1 (conj H2 (conj eq_refl (conj Hs Hl)))).
Defined.

(** X6.  List has no case for an error of the NotFound kind either, and its
    decoding of the query cannot fail: whatever the query, an error of the
    service, [ErrNotFound] included, is answered by 500 without header or
    body, with one record in the log. *)
Theorem list_answers_500_for_every_error_of_the_service
        {S : Type} (service : Service S) (strconv : Strconv)
        (r : Request) (s s' : S) (products : option (list Product)) (e : error) :
  svc_ListProducts service mkProductFilter s = ((products, Some e), s') ->
  let st := serve (ListProducts service strconv) r s in
  status (w st) = StatusInternalServerError
  /\ sentHeader (w st) = ∅ /\ written (w st) = EmptyString
  /\ log st = [mkLogRecord LevelInfo "failed to list products"
                 [("error", AnyError e)]]
  /\ calls st = [CallListProducts mkProductFilter] /\ service_state st = s'.
Proof.
  intros Hsvc st. subst st.
  rewrite ListProducts_run, Decode_ProductFilter_ignoring, Hsvc. repeat split.
Qed.

Lemma list_answers_500_for_every_error_of_the_service_witness :
  let r := mkRequest EmptyString {["colour" := ["red"]]} ∅ in
  let e := fmt_Errorf_w "list products" ErrNotFound in
  let st := serve (ListProducts (failing_service e) example_strconv) r 0%nat in
  svc_ListProducts (failing_service e) mkProductFilter 0%nat = ((None, Some e), 1%nat)
  /\ errors_Is_NotFound e = true
  /\ status (w st) = StatusInternalServerError
  /\ log st = [mkLogRecord LevelInfo "failed to list products" [("error", AnyError e)]].
Proof.
  intros r e st.
  assert (H1 : svc_ListProducts (failing_service e) mkProductFilter 0%nat
               = ((None, Some e), 1%nat)) by reflexivity.
  pose proof (list_answers_500_for_every_error_of_the_service
                (failing_service e) example_strconv r 0%nat 1%nat None e H1) as H.
  destruct H as (Hs & _ & _ & Hl & _).
  exact (conj H1 (conj eq_refl (conj Hs Hl))).
Defined.

(* ===================================================================== *)
(** * Get, Update and List: the response of a success *)
(* ===================================================================== *)

(** X7.  When the service succeeds on Get or Update, the response has the
    status 200 and the one header Content-Type, [application/json]; its
    body is the JSON text of the product the service returned, followed by
    a newline, and it is empty when the price of that product is an
    infinity or a NaN, the status 200 being written all the same.  Nothing
    is logged. *)
Theorem get_and_update_success_is_200_with_json
        {S : Type} (service : Service S) (strconv : Strconv)
        (op : Operation) (r : Request) (s : S) (product : Product) :
  service_product service op r s = Some product ->
  let st := serve (handler service strconv op) r s in
  status (w st) = StatusOK
  /\ sentHeader (w st) = {["Content-Type" := ["application/json"]]}
  /\ written (w st)
     = match json.Marshal strconv product with
       | Some text => text +:+ String json.newline EmptyString
       | None => EmptyString
       end
  /\ (written (w st) = EmptyString <-> price_is_finite (Product.Price product) = false)
  /\ log st = [] /\ calls st = option_list (service_call op r).
Proof.
  intros Hprod st. subst st.
  assert (Hempty : match json.Marshal strconv product with
                   | Some text => text +:+ String json.newline EmptyString
                   | None => EmptyString
                   end = EmptyString
                   <-> price_is_finite (Product.Price product) = false).
  { rewrite <- (Marshal_fails_iff_price_not_finite strconv product).
    destruct (json.Marshal strconv product) as [text|].
    - split; [intros H; destruct text; discriminate H|discriminate].
    - split; reflexivity. }
  unfold service_product, service_call in Hprod.
  destruct op; cbn [handler].
  - rewrite GetProduct_run; cbv zeta.
    destruct (svc_GetProduct service (idFromRequest r) s) as [[p [e|]] s'];
      [discriminate|]. inversion Hprod; subst p.
    unfold json_response, write_encoded, json.Encode_Product.
    destruct (json.Marshal strconv product) eqn:Hm; cbn; rewrite ?Hm in Hempty;
      repeat split; try apply Hempty; try reflexivity.
  - rewrite UpdateProduct_run; cbv zeta. cbn [service_call].
    destruct (json.Decode_ProductUpdate (Body r) mkProductUpdate) as [upd [d|]];
      [discriminate|].
    destruct (svc_UpdateProduct service (idFromRequest r) upd s) as [[p [e|]] s'];
      [discriminate|]. inversion Hprod; subst p.
    unfold json_response, write_encoded, json.Encode_Product.
    destruct (json.Marshal strconv product) eqn:Hm; cbn; rewrite ?Hm in Hempty;
      repeat split; try apply Hempty; try reflexivity.
  - discriminate.
Qed.

Lemma get_and_update_success_is_200_with_json_witness :
  let r := request_for "7" "{}" in
  let p := Product.mk "7" "Lamp" EmptyString price_1_5 in
  let st := serve (handler memory_service example_strconv OpUpdate) r {["7" := p]} in
  service_product memory_service OpUpdate r {["7" := p]} = Some p
  /\ status (w st) = StatusOK
  /\ written (w st)
     = "{" +:+ quoted "id" +:+ ":" +:+ quoted "7" +:+ ","
           +:+ quoted "name" +:+ ":" +:+ quoted "Lamp" +:+ ","
           +:+ quoted "price" +:+ ":1.5}" +:+ String json.newline EmptyString.
Proof.
  intros r p st.
  assert (H1 : service_product memory_service OpUpdate r {["7" := p]} = Some p)
    by (vm_compute; reflexivity).
  pose proof (get_and_update_success_is_200_with_json
                memory_service example_strconv OpUpdate r {["7" := p]} p H1) as H.
  destruct H as (Hs & _ & Hb & _).
  refine (conj H1 (conj Hs _)). fold st in Hb. rewrite Hb. vm_compute. reflexivity.
Defined.

(** The path_elements of an array, each after a comma. *)
Lemma Marshal_elems_texts (strconv : Strconv) (ps : list Product) :
  Forall (fun p => price_is_finite (Product.Price p) = true) ps ->
  exists texts,
    Forall2 (fun p text => json.Marshal strconv p = Some text) ps texts
    /\ json.Marshal_elems strconv false ps
       = Some (match texts with
               | [] => EmptyString
               | _ => "," +:+ String.concat "," texts
               end)
    /\ json.Marshal_elems strconv true ps = Some (String.concat "," texts).
Proof.
  induction 1 as [|p ps Hp Hps (texts & Hall & Hrest & _)].
  - exists []. repeat split. constructor.
  - destruct (json.Marshal strconv p) as [text|] eqn:Hm.
    2:{ apply Marshal_fails_iff_price_not_finite in Hm. congruence. }
    exists (text :: texts). split; [constructor; assumption|].
    cbn [json.Marshal_elems]. rewrite Hm, Hrest.
    destruct texts as [|t ts]; cbn [String.concat]; rewrite ?append_nil_l, ?append_nil_r;
      split; reflexivity.
Qed.

Lemma Marshal_elems_fails (strconv : Strconv) (ps : list Product) (first : bool) :
  Exists (fun p => price_is_finite (Product.Price p) = false) ps ->
  json.Marshal_elems strconv first ps = None.
Proof.
  intros H. revert first. induction H as [p ps Hp|p ps Hps IH]; intros first.
  - apply (proj2 (Marshal_fails_iff_price_not_finite strconv p)) in Hp.
    cbn [json.Marshal_elems]. rewrite Hp. reflexivity.
  - cbn [json.Marshal_elems]. rewrite IH.
    destruct (json.Marshal strconv p); reflexivity.
Qed.

(** X8.  When the service succeeds on List, whatever the query, the response
    has the status 200 and the one header Content-Type.  For the nil slice
    the body is [null] and a newline.  For a slice of products whose prices
    are all finite it is the array of their JSON texts, separated by
    commas, and a newline: [[]] for the empty slice.  As soon as one price
    is an infinity or a NaN the body is empty, under the same status. *)
Theorem list_success_is_200_with_a_json_array
        {S : Type} (service : Service S) (strconv : Strconv)
        (r : Request) (s s' : S) (products : option (list Product)) :
  svc_ListProducts service mkProductFilter s = ((products, None), s') ->
  let st := serve (ListProducts service strconv) r s in
  status (w st) = StatusOK
  /\ sentHeader (w st) = {["Content-Type" := ["application/json"]]}
  /\ log st = []
  /\ match products with
     | None => written (w st) = "null" +:+ String json.newline EmptyString
     | Some ps =>
         (Forall (fun p => price_is_finite (Product.Price p) = true) ps ->
          exists texts,
            Forall2 (fun p text => json.Marshal strconv p = Some text) ps texts
            /\ written (w st)
               = "[" +:+ String.concat "," texts +:+ "]"
                     +:+ String json.newline EmptyString)
         /\ (Exists (fun p => price_is_finite (Product.Price p) = false) ps ->
             written (w st) = EmptyString)
     end.
Proof.
  intros Hsvc st. subst st.
  rewrite ListProducts_run, Decode_ProductFilter_ignoring, Hsvc.
  unfold json_response, write_encoded.
  destruct products as [ps|]; [|repeat split].
  assert (Hstatus : forall out,
             status (match out with
                     | Some b => Write b (WriteHeader StatusOK
                                   (Header_Set "Content-Type" "application/json"
                                      NewResponseWriter))
                     | None => WriteHeader StatusOK
                                 (Header_Set "Content-Type" "application/json"
                                    NewResponseWriter)
                     end) = StatusOK
             /\ sentHeader (match out with
                     | Some b => Write b (WriteHeader StatusOK
                                   (Header_Set "Content-Type" "application/json"
                                      NewResponseWriter))
                     | None => WriteHeader StatusOK
                                 (Header_Set "Content-Type" "application/json"
                                    NewResponseWriter)
                            end) = {["Content-Type" := ["application/json"]]}).
  { intros [b|]; split; reflexivity. }
  cbn [w log].
  destruct (Hstatus (json.Encode_Products strconv (Some ps))) as (H1 & H2).
  split; [exact H1|]. split; [exact H2|]. split; [reflexivity|]. split.
  - intros Hfin.
    destruct (Marshal_elems_texts strconv ps Hfin) as (texts & Hall & _ & Htrue).
    exists texts. split; [exact Hall|].
    unfold json.Encode_Products. rewrite Htrue. reflexivity.
  - intros Hex. unfold json.Encode_Products.
    rewrite (Marshal_elems_fails strconv ps true Hex). reflexivity.
Qed.

Lemma list_success_is_200_with_a_json_array_witness :
  let r := mkRequest EmptyString {["colour" := ["red"]]} ∅ in
  let p := Product.mk "7" "Lamp" EmptyString (S754_zero false) in
  let q := Product.mk "8" EmptyString EmptyString price_1_5 in
  let st := serve (ListProducts memory_service example_strconv) r
                  {["7" := p; "8" := q]} in
  svc_ListProducts memory_service mkProductFilter {["7" := p; "8" := q]}
  = ((Some [p; q], None), {["7" := p; "8" := q]})
  /\ status (w st) = StatusOK
  /\ written (w st)
     = "[{" +:+ quoted "id" +:+ ":" +:+ quoted "7" +:+ ","
            +:+ quoted "name" +:+ ":" +:+ quoted "Lamp" +:+ "},{"
            +:+ quoted "id" +:+ ":" +:+ quoted "8" +:+ ","
            +:+ quoted "price" +:+ ":1.5}]" +:+ String json.newline EmptyString.
Proof.
  intros r p q st.
  assert (H1 : svc_ListProducts memory_service mkProductFilter {["7" := p; "8" := q]}
               = ((Some [p; q], None), {["7" := p; "8" := q]}))
    by (vm_compute; reflexivity).
  pose proof (list_success_is_200_with_a_json_array
                memory_service example_strconv r _ _ _ H1) as H.
  destruct H as (Hs & _ & _ & Hb & _).
  refine (conj H1 (conj Hs _)).
  assert (Hfin : Forall (fun p => price_is_finite (Product.Price p) = true) [p; q])
    by (repeat constructor).
  destruct (Hb Hfin) as (texts & Hall & Hw).
  fold st in Hw. rewrite Hw.
  inversion Hall as [|? t1 ? ts1 Hp Hall1]; subst.
  inversion Hall1 as [|? t2 ? ts2 Hq Hall2]; subst.
  inversion Hall2; subst.
  vm_compute in Hp. vm_compute in Hq. inversion Hp; inversion Hq; subst.
  vm_compute. reflexivity.
Defined.

(** The calls an operation makes are of its own method and carry the
    identifier of the request. *)
Lemma endpoint_calls {S : Type} (service : Service S) (strconv : Strconv)
      (ep : Endpoint) (r : Request) (s : S) (c : Call) :
  In c (calls (serve (endpoint service strconv ep) r s)) ->
  call_of ep c = true
  /\ forall id, call_id c = Some id -> id = idFromRequest r.
Proof.
  run_endpoint ep; cbn [calls In]; intros H;
    first [ contradiction
          | (destruct H as [<-|[]]; split; [reflexivity|];
             intros id Hid; cbn in Hid; congruence) ].
Qed.

(* ===================================================================== *)
(** * The router *)
(* ===================================================================== *)

Example parse_template_examples :
  mux.parse_template "/products" EmptyString None = Some [mux.Raw "/products"]
  /\ mux.parse_template "/products/{productID}" EmptyString None
     = Some [mux.Raw "/products/"; mux.Var "productID"; mux.Raw EmptyString]
  /\ mux.parse_template "/products/{productID" EmptyString None = None
  /\ mux.parse_template "/a/{x}-{y}/b" EmptyString None
     = Some [mux.Raw "/a/"; mux.Var "x"; mux.Raw "-"; mux.Var "y"; mux.Raw "/b"]
  /\ mux.match_parts [mux.Raw "/a/"; mux.Var "x"; mux.Raw "-"; mux.Var "y"; mux.Raw "/b"]
                     "/a/1-2-3/b"
     = Some [("x", "1-2"); ("y", "3")].
Proof. vm_compute. repeat split. Qed.

Example cleanPath_examples :
  cleanPath EmptyString = "/"
  /\ cleanPath "/products" = "/products"
  /\ cleanPath "/products/" = "/products/"
  /\ cleanPath "//products" = "/products"
  /\ cleanPath "/products/." = "/products"
  /\ cleanPath "/products/.." = "/"
  /\ cleanPath "/products/7/../8" = "/products/8"
  /\ cleanPath "/../products/./7/" = "/products/7/"
  /\ cleanPath "products" = "/products".
Proof. vm_compute. repeat split. Qed.

(* ---------- strings: prefixes and what is left after them ---------- *)

Lemma prefix_append (t x : string) : String.prefix t (t +:+ x) = true.
Proof.
  induction t as [|c t IH]; [destruct x; reflexivity|].
  rewrite append_cons. cbn [String.prefix].
  destruct (ascii_dec c c) as [_|Hne]; [exact IH|contradiction].
Qed.

Lemma prefix_split (t p : string) :
  String.prefix t p = true -> p = t +:+ drop_bytes (String.length t) p.
Proof.
  revert p. induction t as [|c t IH]; intros p H; [reflexivity|].
  destruct p as [|d p]; [discriminate H|].
  cbn [String.prefix] in H. destruct (ascii_dec c d) as [->|]; [|discriminate H].
  rewrite append_cons. cbn [String.length drop_bytes]. f_equal. apply IH, H.
Qed.

Lemma drop_bytes_nil (k : nat) (s : string) :
  drop_bytes k s = EmptyString <-> (String.length s <= k)%nat.
Proof.
  revert s. induction k as [|k IH]; intros [|c s]; cbn [drop_bytes String.length].
  - split; [lia|reflexivity].
  - split; [discriminate|lia].
  - split; [lia|reflexivity].
  - rewrite IH. lia.
Qed.

Lemma substring_all (s : string) : substring 0 (String.length s) s = s.
Proof.
  pose proof (substring_append s EmptyString) as H.
  rewrite append_nil_r in H. exact H.
Qed.

Lemma no_slash_run_le (s : string) : (mux.no_slash_run s <= String.length s)%nat.
Proof.
  induction s as [|c s IH]; [reflexivity|].
  cbn [mux.no_slash_run String.length]. destruct (Ascii.eqb c "/"); lia.
Qed.

(* ---------- the two templates ---------- *)

Lemma match_parts_products (path : string) :
  mux.match_parts [mux.Raw "/products"] path
  = if String.eqb path "/products" then Some [] else None.
Proof.
  cbn [mux.match_parts].
  destruct (String.prefix "/products" path) eqn:Hp.
  - apply prefix_split in Hp.
    destruct (drop_bytes (String.length "/products") path) as [|c rest] eqn:Hd.
    + rewrite Hp. reflexivity.
    + rewrite Hp. reflexivity.
  - destruct (String.eqb path "/products") eqn:He; [|reflexivity].
    apply String.eqb_eq in He. subst path. discriminate Hp.
Qed.

Lemma match_parts_raw_nil (s : string) :
  mux.match_parts [mux.Raw EmptyString] s
  = match s with
    | EmptyString => Some []
    | _ => None
    end.
Proof. destruct s; reflexivity. Qed.

(** A variable at the end of a template matches what is left of the path,
    provided it is not empty and has no slash. *)
Lemma longest_first_to_the_end (name id : string) (n : nat) :
  (n <= String.length id)%nat ->
  mux.longest_first n
    (fun k =>
       match mux.match_parts [mux.Raw EmptyString] (drop_bytes k id) with
       | Some vars => Some ((name, substring 0 k id) :: vars)
       | None => None
       end)
  = if (n =? String.length id)%nat && (0 <? n)%nat then Some [(name, id)] else None.
Proof.
  induction n as [|n IH]; intros Hn.
  - cbn [mux.longest_first]. rewrite andb_false_r. reflexivity.
  - cbn [mux.longest_first]. rewrite match_parts_raw_nil.
    destruct (Nat.eqb_spec (Datatypes.S n) (String.length id)) as [He|Hne].
    + assert (Hd : drop_bytes (Datatypes.S n) id = EmptyString)
        by (apply drop_bytes_nil; lia).
      rewrite Hd. rewrite He at 1. rewrite substring_all. reflexivity.
    + destruct (drop_bytes (Datatypes.S n) id) eqn:Hd.
      * apply drop_bytes_nil in Hd. lia.
      * rewrite IH by lia.
        destruct (Nat.eqb_spec n (String.length id)); [lia|reflexivity].
Qed.

Lemma match_parts_product_id (path : string) :
  mux.match_parts [mux.Raw "/products/"; mux.Var "productID"; mux.Raw EmptyString] path
  = match productID_of_path path with
    | Some id => Some [("productID", id)]
    | None => None
    end.
Proof.
  unfold productID_of_path. cbn [mux.match_parts].
  destruct (String.prefix "/products/" path); [|reflexivity].
  change (String.length "/products/") with 10%nat.
  set (id := drop_bytes 10 path).
  pose proof (longest_first_to_the_end "productID" id (mux.no_slash_run id)
                (no_slash_run_le id)) as H.
  cbn [mux.match_parts] in H. rewrite H.
  destruct id as [|c id']; [reflexivity|].
  destruct (mux.no_slash_run (String c id') =? String.length (String c id'))%nat eqn:He;
    [|reflexivity].
  apply Nat.eqb_eq in He. rewrite He. reflexivity.
Qed.

Lemma productID_of_path_products : productID_of_path "/products" = None.
Proof. reflexivity. Qed.

(* ---------- what the router does with a request ---------- *)

Section RouterRuns.

Context {S : Type}.
Variable service : Service S.
Variable strconv : Strconv.

(** The five routes, as one table: a path that is not canonical is
    redirected; [/products] goes to Create or List, [/products/] followed
    by an identifier to Get, Update or Delete, by the method; another
    method on these paths is answered by 405, another path by 404. *)
Lemma serve_http_run (req : ServerRequest) (s : S) :
  serve_http service strconv req s
  = if negb (String.eqb (cleanPath (URL_Path req)) (URL_Path req)) then
      redirected s (URL_String req (cleanPath (URL_Path req)))
    else if String.eqb (URL_Path req) "/products" then
      let r := requestWithVars (request req) (Some ∅) in
      if String.eqb (Method req) MethodPost
      then serve (CreateProduct service strconv) r s
      else if String.eqb (Method req) MethodGet
      then serve (ListProducts service strconv) r s
      else not_allowed s
    else
      match productID_of_path (URL_Path req) with
      | Some id =>
          let r := requestWithVars (request req) (Some {["productID" := id]}) in
          if String.eqb (Method req) MethodGet
          then serve (GetProduct service strconv) r s
          else if String.eqb (Method req) MethodPatch
          then serve (UpdateProduct service strconv) r s
          else if String.eqb (Method req) MethodDelete
          then serve (DeleteProduct service) r s
          else not_allowed s
      | None => not_found s
      end.
Proof.
  unfold serve_http, ServeHTTP.
  destruct (negb (String.eqb (cleanPath (URL_Path req)) (URL_Path req)));
    [reflexivity|].
  unfold NewHandler, mux.HandleFunc, mux.NewRouter. cbn [app].
  change (mux.parse_template "/products" EmptyString None)
    with (Some [mux.Raw "/products"]).
  change (mux.parse_template "/products/{productID}" EmptyString None)
    with (Some [mux.Raw "/products/"; mux.Var "productID"; mux.Raw EmptyString]).
  unfold mux.Router_Match, mux.match_routes, mux.Route_Match.
  cbn [mux.regexp mux.methods mux.handler existsb].
  rewrite !match_parts_products, !match_parts_product_id, !orb_false_r.
  destruct (String.eqb (URL_Path req) "/products") eqn:Hpath.
  - apply String.eqb_eq in Hpath. rewrite Hpath, productID_of_path_products.
    destruct (String.eqb (Method req) MethodPost);
      destruct (String.eqb (Method req) MethodGet); reflexivity.
  - destruct (productID_of_path (URL_Path req)) as [id|]; [|reflexivity].
    destruct (String.eqb (Method req) MethodGet);
      destruct (String.eqb (Method req) MethodPatch);
      destruct (String.eqb (Method req) MethodDelete); reflexivity.
Qed.

End RouterRuns.

(* ---------- paths of the form /products/{productID} ---------- *)

Lemma no_slash_run_all (s : string) :
  has_slash s = false <-> mux.no_slash_run s = String.length s.
Proof.
  induction s as [|c s IH]; [split; reflexivity|].
  cbn [has_slash mux.no_slash_run String.length].
  destruct (Ascii.eqb c "/"); cbn [orb].
  - split; [discriminate|intros H; discriminate H].
  - rewrite IH. lia.
Qed.

Lemma productID_of_path_Some (path id : string) :
  productID_of_path path = Some id
  <-> path = "/products/" +:+ id /\ id <> EmptyString /\ has_slash id = false.
Proof.
  unfold productID_of_path. split.
  - destruct (String.prefix "/products/" path) eqn:Hp; [|discriminate].
    apply prefix_split in Hp. change (String.length "/products/") with 10%nat in Hp.
    destruct (drop_bytes 10 path) as [|c rest] eqn:Hd; [discriminate|].
    destruct (mux.no_slash_run (String c rest) =? String.length (String c rest))%nat
      eqn:He; [|discriminate].
    intros H. inversion H; subst id. split; [exact Hp|]. split; [discriminate|].
    apply no_slash_run_all, Nat.eqb_eq, He.
  - intros (-> & Hne & Hs). rewrite prefix_append.
    change (drop_bytes 10 ("/products/" +:+ id)) with id.
    destruct id as [|c rest]; [contradiction|].
    apply no_slash_run_all in Hs. rewrite Hs, Nat.eqb_refl. reflexivity.
Qed.

Lemma path_elements_no_slash (s : string) : has_slash s = false -> path_elements s = [s].
Proof.
  induction s as [|c s IH]; [reflexivity|].
  cbn [has_slash path_elements]. destruct (Ascii.eqb c "/"); [discriminate|].
  cbn [orb]. intros H. rewrite (IH H). reflexivity.
Qed.

Lemma ends_with_slash_no_slash (s : string) :
  has_slash s = false -> ends_with_slash s = false.
Proof.
  induction s as [|c s IH]; [reflexivity|].
  cbn [has_slash]. destruct (Ascii.eqb c "/") eqn:Hc; [discriminate|]. cbn [orb].
  intros H. cbn [ends_with_slash]. destruct s; [exact Hc|apply IH, H].
Qed.

Lemma ends_with_slash_append (a b : string) :
  b <> EmptyString -> ends_with_slash (a +:+ b) = ends_with_slash b.
Proof.
  intros Hb. induction a as [|c a IH]; [reflexivity|].
  rewrite append_cons. cbn [ends_with_slash].
  destruct (a +:+ b) eqn:Hab; [|exact IH].
  destruct a; [|discriminate Hab]. rewrite append_nil_l in Hab. contradiction.
Qed.

Lemma path_elements_append_slash (a b : string) :
  has_slash a = false -> path_elements (a +:+ String "/" b) = a :: path_elements b.
Proof.
  induction a as [|c a IH]; [reflexivity|].
  cbn [has_slash]. destruct (Ascii.eqb c "/") eqn:Hc; [discriminate|]. cbn [orb].
  intros H. rewrite append_cons. cbn [path_elements]. rewrite Hc, (IH H). reflexivity.
Qed.

(** The path of an identifier that can be routed is in canonical form. *)
Lemma cleanPath_product_path (id : string) :
  routable_id id -> cleanPath ("/products/" +:+ id) = "/products/" +:+ id.
Proof.
  intros (Hne & Hs & Hdot & Hdots).
  unfold cleanPath. change ("/products/" +:+ id) with (String "/" ("products/" +:+ id)).
  cbv beta iota zeta. change (Ascii.eqb "/" "/") with true. cbv iota.
  change (String "/" ("products/" +:+ id)) with ("/products/" +:+ id).
  rewrite (ends_with_slash_append "/products/" id Hne), (ends_with_slash_no_slash id Hs).
  cbn [andb]. unfold path_Clean.
  change ("/products/" +:+ id)
    with (EmptyString +:+ String "/" ("products" +:+ String "/" id)) at 1.
  rewrite (path_elements_append_slash EmptyString _ eq_refl).
  rewrite (path_elements_append_slash "products" id eq_refl).
  rewrite (path_elements_no_slash id Hs).
  cbn [fold_left]. unfold clean_step at 2. cbn [String.eqb orb].
  unfold clean_step at 2.
  change (String.eqb "products" EmptyString || String.eqb "products" ".") with false.
  change (String.eqb "products" "..") with false. cbv iota. cbn [app].
  unfold clean_step.
  destruct (String.eqb_spec id EmptyString) as [|_]; [contradiction|].
  destruct (String.eqb_spec id ".") as [|_]; [contradiction|].
  destruct (String.eqb_spec id "..") as [|_]; [contradiction|].
  reflexivity.
Qed.

(* ---------- the five routes ---------- *)

(** X9.  Each of the five pairs of a method and a path reaches its operation:
    POST and GET on [/products] reach Create and List, with no variable;
    GET, PATCH and DELETE on [/products/] followed by an identifier (not
    empty, without a slash, neither [.] nor [..]) reach Get, Update and
    Delete, with that identifier as [productID], whatever variables the
    request carried before.  The response is the one of the operation. *)
Theorem every_route_reaches_its_operation
        {S : Type} (service : Service S) (strconv : Strconv)
        (ep : Endpoint) (id : string) (req : ServerRequest) (s : S) :
  Method req = endpoint_method ep ->
  URL_Path req = endpoint_path ep id ->
  (on_one_product ep = true -> routable_id id) ->
  let r := mkRequest (Body (request req)) (URL_Query (request req))
                     (endpoint_vars ep id) in
  serve_http service strconv req s = serve (endpoint service strconv ep) r s
  /\ (on_one_product ep = true -> idFromRequest r = id).
Proof.
  intros Hm Hp Hid r. subst r. rewrite serve_http_run, Hm, Hp.
  unfold endpoint_path, endpoint_vars, endpoint_method.
  destruct ep; cbn [on_one_product] in *;
    try (specialize (Hid eq_refl);
         rewrite (cleanPath_product_path id Hid), String.eqb_refl;
         change (String.eqb ("/products/" +:+ id) "/products") with false;
         destruct Hid as (Hne & Hs & _);
         rewrite (proj2 (productID_of_path_Some ("/products/" +:+ id) id)
                    (conj eq_refl (conj Hne Hs))));
    (split; [reflexivity|]); intros H; first [discriminate H | reflexivity].
Qed.

Lemma every_route_reaches_its_operation_witness :
  let req := mkServerRequest "DELETE" "/products/7" (fun p => p)
                             (mkRequest EmptyString ∅ {["productID" := "1"]}) in
  let p := Product.mk "7" "Lamp" EmptyString (S754_zero false) in
  let st := serve_http memory_service example_strconv req {["7" := p]} in
  Method req = endpoint_method EpDeleteProduct
  /\ URL_Path req = endpoint_path EpDeleteProduct "7"
  /\ routable_id "7"
  /\ calls st = [CallDeleteProduct "7"]
  /\ status (w st) = StatusNoContent
  /\ service_state st = ∅.
Proof.
  intros req p st.
  assert (H1 : Method req = endpoint_method EpDeleteProduct) by reflexivity.
  assert (H2 : URL_Path req = endpoint_path EpDeleteProduct "7") by reflexivity.
  assert (H3 : routable_id "7") by (repeat split; discriminate).
  pose proof (every_route_reaches_its_operation
                memory_service example_strconv EpDeleteProduct "7" req {["7" := p]}
                H1 H2 (fun _ => H3)) as H.
  destruct H as (Hrun & _).
  refine (conj H1 (conj H2 (conj H3 _))).
  fold st in Hrun. rewrite Hrun. vm_compute. repeat split.
Defined.

(** X10.  Whatever the request, an identifier that reaches the service through
    the router is the last element of the path, and it is not empty, has
    no slash and is neither [.] nor [..]: behind the router no operation
    sees a request without [productID]. *)
Theorem the_identifier_of_a_call_is_the_one_of_the_path
        {S : Type} (service : Service S) (strconv : Strconv)
        (req : ServerRequest) (s : S) (c : Call) (id : string) :
  let st := serve_http service strconv req s in
  In c (calls st) -> call_id c = Some id ->
  URL_Path req = "/products/" +:+ id /\ routable_id id.
Proof.
  intros st. subst st. rewrite serve_http_run.
  destruct (String.eqb (cleanPath (URL_Path req)) (URL_Path req)) eqn:Hclean;
    cbn [negb]; [|intros []].
  apply String.eqb_eq in Hclean.
  destruct (String.eqb (URL_Path req) "/products").
  { cbv zeta.
    destruct (String.eqb (Method req) MethodPost).
    - intros Hin Hid.
      destruct (endpoint_calls service strconv EpCreateProduct _ s c Hin) as (Hof & _).
      destruct c; discriminate.
    - destruct (String.eqb (Method req) MethodGet); [|intros []].
      intros Hin Hid.
      destruct (endpoint_calls service strconv EpListProducts _ s c Hin) as (Hof & _).
      destruct c; discriminate. }
  destruct (productID_of_path (URL_Path req)) as [id0|] eqn:Hpath; [|intros []].
  apply productID_of_path_Some in Hpath. destruct Hpath as (Hp & Hne & Hs).
  cbv zeta.
  assert (Hsame : forall ep,
             on_one_product ep = true ->
             In c (calls (serve (endpoint service strconv ep)
                            (requestWithVars (request req) (Some {["productID" := id0]}))
                            s)) ->
             call_id c = Some id ->
             URL_Path req = "/products/" +:+ id /\ routable_id id).
  { intros ep _ Hin Hid.
    destruct (endpoint_calls service strconv ep _ s c Hin) as (_ & Hc).
    rewrite (Hc id Hid).
    change (idFromRequest
              (requestWithVars (request req) (Some {["productID" := id0]})))
      with id0.
    split; [exact Hp|]. split; [exact Hne|]. split; [exact Hs|].
    split; intros ->; rewrite Hp in Hclean; discriminate Hclean. }
  destruct (String.eqb (Method req) MethodGet); [apply (Hsame EpGetProduct eq_refl)|].
  destruct (String.eqb (Method req) MethodPatch);
    [apply (Hsame EpUpdateProduct eq_refl)|].
  destruct (String.eqb (Method req) MethodDelete);
    [apply (Hsame EpDeleteProduct eq_refl)|intros []].
Qed.

Lemma the_identifier_of_a_call_is_the_one_of_the_path_witness :
  let req := mkServerRequest "GET" "/products/7" (fun p => p)
                             (mkRequest EmptyString ∅ ∅) in
  let st := serve_http memory_service example_strconv req ∅ in
  In (CallGetProduct "7") (calls st)
  /\ call_id (CallGetProduct "7") = Some "7"
  /\ URL_Path req = "/products/7" /\ routable_id "7".
Proof.
  intros req st.
  assert (H1 : In (CallGetProduct "7") (calls st)) by (left; reflexivity).
  assert (H2 : call_id (CallGetProduct "7") = Some "7") by reflexivity.
  exact (conj H1 (conj H2
           (the_identifier_of_a_call_is_the_one_of_the_path
              memory_service example_strconv req ∅ (CallGetProduct "7") "7" H1 H2))).
Defined.

(* ---------- the answers of the router itself ---------- *)

(** X11.  A path in canonical form that is neither [/products] nor [/products/]
    followed by one element without a slash matches no route: whatever the
    method, the router answers 404 with the text of net/http, as plain
    text, and neither the service nor the logger is reached.  So it is for
    [/], for [/products/] and for [/products/7/name]. *)
Theorem a_path_outside_the_routes_is_answered_404
        {S : Type} (service : Service S) (strconv : Strconv)
        (req : ServerRequest) (s : S) :
  cleanPath (URL_Path req) = URL_Path req ->
  URL_Path req <> "/products" ->
  (forall id, URL_Path req = "/products/" +:+ id ->
              id = EmptyString \/ has_slash id = true) ->
  let st := serve_http service strconv req s in
  status (w st) = StatusNotFound
  /\ written (w st) = "404 page not found" +:+ String json.newline EmptyString
  /\ sentHeader (w st) !! "Content-Type" = Some ["text/plain; charset=utf-8"]
  /\ calls st = [] /\ log st = [] /\ service_state st = s.
Proof.
  intros Hclean Hp Hid st. subst st.
  rewrite serve_http_run, Hclean, String.eqb_refl. cbn [negb].
  destruct (String.eqb_spec (URL_Path req) "/products") as [|_]; [contradiction|].
  destruct (productID_of_path (URL_Path req)) as [id|] eqn:Hpath.
  - apply productID_of_path_Some in Hpath. destruct Hpath as (Hpa & Hne & Hs).
    destruct (Hid id Hpa) as [->|H]; [contradiction|congruence].
  - repeat split.
Qed.

Lemma a_path_outside_the_routes_is_answered_404_witness :
  let req := mkServerRequest "GET" "/products/" (fun p => p)
                             (mkRequest EmptyString ∅ ∅) in
  let st := serve_http memory_service example_strconv req {["" := Product_zero]} in
  cleanPath (URL_Path req) = URL_Path req
  /\ status (w st) = StatusNotFound /\ calls st = [].
Proof.
  intros req st.
  assert (H1 : cleanPath (URL_Path req) = URL_Path req) by reflexivity.
  assert (H2 : URL_Path req <> "/products") by discriminate.
  assert (H3 : forall id, URL_Path req = "/products/" +:+ id ->
                          id = EmptyString \/ has_slash id = true).
  { intros id H. left. destruct id; [reflexivity|discriminate H]. }
  pose proof (a_path_outside_the_routes_is_answered_404
                memory_service example_strconv req {["" := Product_zero]} H1 H2 H3) as H.
  destruct H as (Hs & _ & _ & Hc & _).
  exact (conj H1 (conj Hs Hc)).
Defined.

(** X12.  On the path of a route, a method the route is not registered with is
    answered by 405, without header or body, and neither the service nor
    the logger is reached: on [/products] every method but POST and GET, on
    [/products/] followed by an identifier every method but GET, PATCH and
    DELETE. *)
Theorem another_method_on_a_route_is_answered_405
        {S : Type} (service : Service S) (strconv : Strconv)
        (ep : Endpoint) (id : string) (req : ServerRequest) (s : S) :
  URL_Path req = endpoint_path ep id ->
  (on_one_product ep = true -> routable_id id) ->
  (forall ep', on_one_product ep' = on_one_product ep ->
               Method req <> endpoint_method ep') ->
  let st := serve_http service strconv req s in
  status (w st) = StatusMethodNotAllowed
  /\ written (w st) = EmptyString /\ sentHeader (w st) = ∅
  /\ calls st = [] /\ log st = [] /\ service_state st = s.
Proof.
  intros Hp Hid Hm st. subst st. rewrite serve_http_run, Hp.
  unfold endpoint_path in *.
  destruct (on_one_product ep) eqn:Hone.
  - specialize (Hid eq_refl).
    rewrite (cleanPath_product_path id Hid), String.eqb_refl.
    change (String.eqb ("/products/" +:+ id) "/products") with false.
    destruct Hid as (Hne & Hs & _).
    rewrite (proj2 (productID_of_path_Some ("/products/" +:+ id) id)
               (conj eq_refl (conj Hne Hs))).
    cbn [negb]. cbv zeta.
    destruct (String.eqb_spec (Method req) MethodGet) as [H|_];
      [exfalso; apply (Hm EpGetProduct eq_refl H)|].
    destruct (String.eqb_spec (Method req) MethodPatch) as [H|_];
      [exfalso; apply (Hm EpUpdateProduct eq_refl H)|].
    destruct (String.eqb_spec (Method req) MethodDelete) as [H|_];
      [exfalso; apply (Hm EpDeleteProduct eq_refl H)|].
    repeat split.
  - change (cleanPath "/products") with "/products".
    cbn [String.eqb Ascii.eqb Bool.eqb negb]. cbv zeta.
    destruct (String.eqb_spec (Method req) MethodPost) as [H|_];
      [exfalso; apply (Hm EpCreateProduct eq_refl H)|].
    destruct (String.eqb_spec (Method req) MethodGet) as [H|_];
      [exfalso; apply (Hm EpListProducts eq_refl H)|].
    repeat split.
Qed.

Lemma another_method_on_a_route_is_answered_405_witness :
  let req := mkServerRequest "PUT" "/products/7" (fun p => p)
                             (mkRequest "{}" ∅ ∅) in
  let st := serve_http memory_service example_strconv req {["7" := Product_zero]} in
  URL_Path req = endpoint_path EpUpdateProduct "7"
  /\ routable_id "7"
  /\ status (w st) = StatusMethodNotAllowed /\ calls st = [].
Proof.
  intros req st.
  assert (H1 : URL_Path req = endpoint_path EpUpdateProduct "7") by reflexivity.
  assert (H2 : routable_id "7") by (repeat split; discriminate).
  assert (H3 : forall ep', on_one_product ep' = on_one_product EpUpdateProduct ->
                           Method req <> endpoint_method ep')
    by (intros []; discriminate).
  pose proof (another_method_on_a_route_is_answered_405
                memory_service example_strconv EpUpdateProduct "7" req
                {["7" := Product_zero]} H1 (fun _ => H2) H3) as H.
  destruct H as (Hs & _ & _ & Hc & _).
  exact (conj H1 (conj H2 (conj Hs Hc))).
Defined.

(* ---------- canonical paths ---------- *)

Lemma path_elements_have_no_slash (p : string) :
  Forall (fun el => has_slash el = false) (path_elements p).
Proof.
  induction p as [|c p IH]; [repeat constructor|].
  cbn [path_elements]. destruct (Ascii.eqb c "/") eqn:Hc.
  - constructor; [reflexivity|exact IH].
  - destruct (path_elements p) as [|el els]; [repeat constructor; cbn; rewrite Hc; reflexivity|].
    inversion IH; subst. constructor; [|assumption].
    cbn [has_slash]. rewrite Hc. assumption.
Qed.

Lemma Forall_removelast {A : Type} (P : A -> Prop) (l : list A) :
  Forall P l -> Forall P (removelast l).
Proof.
  induction 1 as [|x l Hx Hl IH]; [constructor|].
  cbn [removelast]. destruct l; [constructor|]. constructor; assumption.
Qed.

Lemma clean_step_kept (out : list string) (el : string) :
  has_slash el = false -> Forall routable_id out ->
  Forall routable_id (clean_step out el).
Proof.
  intros Hs Hout. unfold clean_step.
  destruct (String.eqb_spec el EmptyString) as [|Hne]; [exact Hout|].
  destruct (String.eqb_spec el ".") as [|Hdot]; [exact Hout|].
  cbn [orb].
  destruct (String.eqb_spec el "..") as [|Hdots]; [apply Forall_removelast, Hout|].
  apply Forall_app. split; [exact Hout|].
  constructor; [|constructor]. repeat split; assumption.
Qed.

Lemma fold_clean_step_kept (els out : list string) :
  Forall (fun el => has_slash el = false) els -> Forall routable_id out ->
  Forall routable_id (fold_left clean_step els out).
Proof.
  revert out. induction els as [|el els IH]; intros out Hels Hout; [exact Hout|].
  inversion Hels; subst. cbn [fold_left].
  apply IH; [assumption|]. apply clean_step_kept; assumption.
Qed.

Lemma fold_clean_step_of_kept (els out : list string) :
  Forall routable_id els -> fold_left clean_step els out = (out ++ els)%list.
Proof.
  revert out. induction els as [|el els IH]; intros out Hels.
  - rewrite app_nil_r. reflexivity.
  - inversion Hels as [|? ? (Hne & Hs & Hdot & Hdots) Hrest]; subst.
    cbn [fold_left]. rewrite IH by assumption.
    unfold clean_step.
    destruct (String.eqb_spec el EmptyString) as [|_]; [contradiction|].
    destruct (String.eqb_spec el ".") as [|_]; [contradiction|].
    destruct (String.eqb_spec el "..") as [|_]; [contradiction|].
    cbn [orb]. rewrite <- app_assoc. reflexivity.
Qed.

Lemma path_concat_cons (x y : string) (l : list string) :
  String.concat "/" (x :: y :: l) = x +:+ String "/" (String.concat "/" (y :: l)).
Proof. reflexivity. Qed.

(** The path_elements of a cleaned path are the path_elements it was built from. *)
Lemma path_elements_concat_slash (el : string) (els : list string) (rest : string) :
  Forall routable_id (el :: els) ->
  path_elements (String.concat "/" (el :: els) +:+ String "/" rest)
  = (el :: els ++ path_elements rest)%list.
Proof.
  revert el. induction els as [|el' els IH]; intros el Hall;
    inversion Hall as [|? ? (_ & Hs & _) Hrest]; subst.
  - cbn [String.concat app]. apply path_elements_append_slash, Hs.
  - rewrite path_concat_cons, append_assoc, append_cons.
    rewrite (path_elements_append_slash el _ Hs), (IH el' Hrest). reflexivity.
Qed.

Lemma path_elements_concat (el : string) (els : list string) :
  Forall routable_id (el :: els) ->
  path_elements (String.concat "/" (el :: els)) = el :: els.
Proof.
  revert el. induction els as [|el' els IH]; intros el Hall;
    inversion Hall as [|? ? (_ & Hs & _) Hrest]; subst.
  - cbn [String.concat]. apply path_elements_no_slash, Hs.
  - rewrite path_concat_cons.
    rewrite (path_elements_append_slash el _ Hs), (IH el' Hrest). reflexivity.
Qed.

Lemma ends_with_slash_concat (el : string) (els : list string) (front : string) :
  Forall routable_id (el :: els) ->
  ends_with_slash (front +:+ String.concat "/" (el :: els)) = false.
Proof.
  revert el front. induction els as [|el' els IH]; intros el front Hall;
    inversion Hall as [|? ? (Hne & Hs & _) Hrest]; subst.
  - cbn [String.concat].
    rewrite (ends_with_slash_append front el Hne). apply ends_with_slash_no_slash, Hs.
  - rewrite path_concat_cons.
    change (String "/" (String.concat "/" (el' :: els)))
      with ("/" +:+ String.concat "/" (el' :: els)).
    rewrite <- !append_assoc. apply IH, Hrest.
Qed.

Lemma fold_clean_step_root (els : list string) :
  fold_left clean_step (EmptyString :: els) [] = fold_left clean_step els [].
Proof. reflexivity. Qed.

Lemma path_elements_rooted (t : string) :
  path_elements (String "/" t) = EmptyString :: path_elements t.
Proof. reflexivity. Qed.

(** Cleaning a cleaned path, with or without a final slash, changes
    nothing. *)
Lemma path_Clean_of_kept (els : list string) :
  Forall routable_id els ->
  path_Clean ("/" +:+ String.concat "/" els) = "/" +:+ String.concat "/" els
  /\ (els <> [] ->
      path_Clean ("/" +:+ String.concat "/" els +:+ "/")
      = "/" +:+ String.concat "/" els).
Proof.
  intros Hall. unfold path_Clean. destruct els as [|el els].
  - split; [reflexivity|]. intros H. contradiction.
  - split; [|intros _].
    + change ("/" +:+ String.concat "/" (el :: els))
        with (String "/" (String.concat "/" (el :: els))).
      rewrite path_elements_rooted, (path_elements_concat el els Hall), fold_clean_step_root.
      rewrite (fold_clean_step_of_kept (el :: els) [] Hall). reflexivity.
    + change ("/" +:+ String.concat "/" (el :: els) +:+ "/")
        with (String "/" (String.concat "/" (el :: els) +:+ String "/" EmptyString)).
      rewrite path_elements_rooted, (path_elements_concat_slash el els EmptyString Hall).
      rewrite fold_clean_step_root.
      change (el :: els ++ path_elements EmptyString)%list
        with ((el :: els) ++ [EmptyString])%list.
      rewrite fold_left_app, (fold_clean_step_of_kept (el :: els) [] Hall).
      reflexivity.
Qed.

Lemma cleanPath_rooted (t : string) :
  cleanPath (String "/" t)
  = if ends_with_slash (String "/" t)
       && negb (String.eqb (path_Clean (String "/" t)) "/")
    then path_Clean (String "/" t) +:+ "/"
    else path_Clean (String "/" t).
Proof. reflexivity. Qed.

Lemma cleanPath_makes_rooted (c : ascii) (p : string) :
  exists t, cleanPath (String c p) = cleanPath (String "/" t).
Proof.
  destruct (Ascii.eqb c "/") eqn:Hc.
  - apply Ascii.eqb_eq in Hc. subst c. exists p. reflexivity.
  - exists (String c p). unfold cleanPath at 1. rewrite Hc. reflexivity.
Qed.

Lemma path_Clean_shape (p : string) :
  exists els, Forall routable_id els /\ path_Clean p = "/" +:+ String.concat "/" els.
Proof.
  exists (fold_left clean_step (path_elements p) []). split; [|reflexivity].
  apply fold_clean_step_kept; [apply path_elements_have_no_slash|constructor].
Qed.

(** The canonical form of a path is in canonical form: the redirection
    the router answers with leads to a path it does not redirect again. *)
Lemma cleanPath_idempotent (p : string) : cleanPath (cleanPath p) = cleanPath p.
Proof.
  destruct p as [|c p]; [reflexivity|].
  destruct (cleanPath_makes_rooted c p) as (t & ->).
  rewrite (cleanPath_rooted t).
  destruct (path_Clean_shape (String "/" t)) as (els & Hall & ->).
  destruct (path_Clean_of_kept els Hall) as (Hc1 & Hc2).
  remember (String.concat "/" els) as body eqn:Hbody.
  change ("/" +:+ body) with (String "/" body) in *.
  destruct (ends_with_slash (String "/" t) && negb (String.eqb (String "/" body) "/"))
    eqn:Hcase.
  - apply andb_prop in Hcase as [_ Hne]. apply negb_true_iff in Hne.
    assert (Hels : els <> []).
    { intros E. subst els. cbn in Hbody. subst body. discriminate Hne. }
    rewrite append_cons, cleanPath_rooted, <- append_cons.
    change (String "/" body +:+ "/") with ("/" +:+ body +:+ "/") at 2 3.
    rewrite (Hc2 Hels), Hne. cbn [negb]. rewrite andb_true_r.
    rewrite (ends_with_slash_append (String "/" body) "/") by discriminate.
    reflexivity.
  - rewrite cleanPath_rooted, Hc1.
    destruct els as [|el els'].
    + cbn in Hbody. subst body. reflexivity.
    + pose proof (ends_with_slash_concat el els' "/" Hall) as He.
      rewrite <- Hbody in He. change ("/" +:+ body) with (String "/" body) in He.
      rewrite He. reflexivity.
Qed.

(** X13.  A path that is not in canonical form is answered by a redirection,
    whatever the method and before any route is tried: the status is 301,
    the header Location is the URL with the path in canonical form, there
    is no body, and neither the service nor the logger is reached.  The
    path of the redirection is in canonical form. *)
Theorem a_path_not_in_canonical_form_is_redirected
        {S : Type} (service : Service S) (strconv : Strconv)
        (req : ServerRequest) (s : S) :
  cleanPath (URL_Path req) <> URL_Path req ->
  let st := serve_http service strconv req s in
  status (w st) = StatusMovedPermanently
  /\ sentHeader (w st) = {["Location" := [URL_String req (cleanPath (URL_Path req))]]}
  /\ cleanPath (cleanPath (URL_Path req)) = cleanPath (URL_Path req)
  /\ written (w st) = EmptyString
  /\ calls st = [] /\ log st = [] /\ service_state st = s.
Proof.
  intros Hclean st. subst st. rewrite serve_http_run.
  destruct (String.eqb_spec (cleanPath (URL_Path req)) (URL_Path req)) as [|_];
    [contradiction|].
  cbn [negb]. split; [reflexivity|]. split; [reflexivity|].
  split; [apply cleanPath_idempotent|]. repeat split.
Qed.

Lemma a_path_not_in_canonical_form_is_redirected_witness :
  let req := mkServerRequest "DELETE" "/products/7/../8" (fun p => p)
                             (mkRequest EmptyString ∅ ∅) in
  let st := serve_http memory_service example_strconv req {["8" := Product_zero]} in
  cleanPath (URL_Path req) <> URL_Path req
  /\ status (w st) = StatusMovedPermanently
  /\ sentHeader (w st) !! "Location" = Some ["/products/8"]
  /\ calls st = [] /\ service_state st = {["8" := Product_zero]}.
Proof.
  intros req st.
  assert (H1 : cleanPath (URL_Path req) <> URL_Path req) by discriminate.
  pose proof (a_path_not_in_canonical_form_is_redirected
                memory_service example_strconv req {["8" := Product_zero]} H1) as H.
  destruct H as (Hs & Hh & _ & _ & Hc & _ & Hst).
  refine (conj H1 (conj Hs (conj _ (conj Hc Hst)))).
  fold st in Hh. rewrite Hh. reflexivity.
Defined.

(* ---------- Create, then the Location it answered with ---------- *)

Lemma product_path_injective (a b : string) :
  "/products/" +:+ a = "/products/" +:+ b -> a = b.
Proof. intros H. inversion H as [E]. rewrite !append_nil_l in E. exact E. Qed.

(** What a request on the path of an identifier calls: Get with that
    identifier when it can be routed, and nothing at all when it
    cannot. *)
Lemma get_on_product_path {S : Type} (service : Service S) (strconv : Strconv)
      (id : string) (req : ServerRequest) (s : S) :
  Method req = MethodGet -> URL_Path req = "/products/" +:+ id ->
  (routable_id id ->
   serve_http service strconv req s
   = serve (GetProduct service strconv)
           (mkRequest (Body (request req)) (URL_Query (request req))
                      {["productID" := id]}) s)
  /\ (~ routable_id id -> calls (serve_http service strconv req s) = []).
Proof.
  intros Hm Hp. rewrite serve_http_run, Hm, Hp. split.
  - intros Hid. rewrite (cleanPath_product_path id Hid), String.eqb_refl.
    change (String.eqb ("/products/" +:+ id) "/products") with false.
    destruct Hid as (Hne & Hs & _).
    rewrite (proj2 (productID_of_path_Some ("/products/" +:+ id) id)
               (conj eq_refl (conj Hne Hs))).
    reflexivity.
  - intros Hnot.
    destruct (String.eqb_spec (cleanPath ("/products/" +:+ id)) ("/products/" +:+ id))
      as [Hclean|_]; [|reflexivity].
    cbn [negb].
    change (String.eqb ("/products/" +:+ id) "/products") with false. cbv iota.
    destruct (productID_of_path ("/products/" +:+ id)) as [id'|] eqn:Hpath;
      [|reflexivity].
    exfalso. apply Hnot.
    apply productID_of_path_Some in Hpath. destruct Hpath as (Heq & Hne & Hs).
    apply product_path_injective in Heq. subst id'.
    split; [exact Hne|]. split; [exact Hs|].
    split; intros ->; discriminate Hclean.
Qed.

(** X14.  Create, then a GET on the Location it answered with.  The header
    names the path of the identifier the service assigned.  When that
    identifier can be routed (it is not empty, has no slash and is neither
    [.] nor [..]), a GET on the path asks the service for that very
    identifier; when it cannot, the GET does not reach the service: the
    router answers by itself. *)
Theorem the_location_of_a_created_product_leads_to_it
        {S : Type} (service : Service S) (strconv : Strconv)
        (r : Request) (s s' : S) (p product : Product) :
  json.Decode_Product strconv (Body r) Product_zero = (p, None) ->
  svc_CreateProduct service p s = ((product, None), s') ->
  let created := serve (CreateProduct service strconv) r s in
  let location := "/products/" +:+ Product.ID product in
  sentHeader (w created) !! "Location" = Some [location]
  /\ forall (req : ServerRequest) (s2 : S),
       Method req = MethodGet -> URL_Path req = location ->
       (routable_id (Product.ID product) ->
        calls (serve_http service strconv req s2)
        = [CallGetProduct (Product.ID product)])
       /\ (~ routable_id (Product.ID product) ->
           calls (serve_http service strconv req s2) = []).
Proof.
  intros Hdec Hsvc created location. subst created location. split.
  - rewrite CreateProduct_run, Hdec, Hsvc.
    unfold write_encoded. destruct (json.Encode_Product strconv product); reflexivity.
  - intros req s2 Hm Hp.
    destruct (get_on_product_path service strconv (Product.ID product) req s2 Hm Hp)
      as (Hyes & Hno).
    split; [|exact Hno].
    intros Hid. rewrite (Hyes Hid), GetProduct_run. cbv zeta.
    change (idFromRequest
              (mkRequest (Body (request req)) (URL_Query (request req))
                         {["productID" := Product.ID product]}))
      with (Product.ID product).
    destruct (svc_GetProduct service (Product.ID product) s2) as [[q [e|]] s3];
      [destruct (errors_Is_NotFound e)|]; reflexivity.
Qed.

Lemma the_location_of_a_created_product_leads_to_it_witness :
  let r := request_with_body body_name_X in
  let p := Product.mk EmptyString "X" EmptyString (S754_zero false) in
  let product := Product.mk "42" "X" EmptyString (S754_zero false) in
  let created := serve (CreateProduct memory_service example_strconv) r ∅ in
  let req := mkServerRequest "GET" "/products/42" (fun p => p)
                             (mkRequest EmptyString ∅ ∅) in
  let got := serve_http memory_service example_strconv req (service_state created) in
  json.Decode_Product example_strconv (Body r) Product_zero = (p, None)
  /\ svc_CreateProduct memory_service p ∅ = ((product, None), {["42" := product]})
  /\ sentHeader (w created) !! "Location" = Some ["/products/42"]
  /\ calls got = [CallGetProduct "42"]
  /\ status (w got) = StatusOK.
Proof.
  intros r p product created req got.
  assert (H1 : json.Decode_Product example_strconv (Body r) Product_zero = (p, None))
    by (vm_compute; reflexivity).
  assert (H2 : svc_CreateProduct memory_service p ∅
               = ((product, None), {["42" := product]})) by (vm_compute; reflexivity).
  destruct (the_location_of_a_created_product_leads_to_it
              memory_service example_strconv r ∅ _ p product H1 H2) as (Hloc & Hget).
  destruct (Hget req (service_state created) eq_refl eq_refl) as (Hyes & _).
  refine (conj H1 (conj H2 (conj Hloc (conj _ _)))).
  - apply Hyes. repeat split; discriminate.
  - vm_compute. reflexivity.
Defined.

(* ===================================================================== *)
(** * The text of a price *)
(* ===================================================================== *)

Example Price_String_examples :
  Price_String price_1_5 = "1.50"
  /\ Price_String (S754_finite false 1 (-3)) = "0.12"       (* 0.125, a tie *)
  /\ Price_String (S754_finite false 3 (-3)) = "0.38"       (* 0.375, a tie *)
  /\ Price_String (S754_finite true 5404319552844595 (-54)) = "-0.30"  (* -0.3 *)
  /\ Price_String (S754_finite false 3999 (-2)) = "999.75"
  /\ Price_String (S754_finite false 5 3) = "40.00"
  /\ Price_String (S754_zero true) = "-0.00"
  /\ Price_String (S754_infinity false) = "+Inf"
  /\ Price_String S754_nan = "NaN"
  /\ read_fixed2 "999.75" = Some (false, 99975)
  /\ read_fixed2 "-0.30" = Some (true, 30)
  /\ read_fixed2 "1.5" = None.
Proof. vm_compute. repeat split. Qed.

(** Rounding to the nearest integer, a tie to the even one. *)
Lemma round_half_even_nearest (num den : Z) :
  0 <= num -> 0 < den ->
  0 <= round_half_even num den
  /\ Z.abs (2 * (num - round_half_even num den * den)) <= den
  /\ (Z.abs (2 * (num - round_half_even num den * den)) = den ->
      Z.even (round_half_even num den) = true).
Proof.
  intros Hnum Hden. unfold round_half_even.
  pose proof (Z.div_mod num den ltac:(lia)) as Hdm.
  pose proof (Z.mod_pos_bound num den Hden) as Hr.
  pose proof (Z.div_pos num den Hnum Hden) as Hq.
  set (q := num / den) in *. set (r := num mod den) in *.
  assert (E1 : num - q * den = r) by lia.
  assert (E2 : num - (q + 1) * den = r - den) by lia.
  destruct (Z.ltb_spec (2 * r) den) as [Hlt|Hge].
  - rewrite E1. split; [lia|]. split; [lia|]. lia.
  - destruct (Z.ltb_spec den (2 * r)) as [Hgt|Hle].
    + rewrite E2. split; [lia|]. split; [lia|]. lia.
    + destruct (Z.even q) eqn:Heven.
      * rewrite E1. split; [lia|]. split; [lia|]. intros _. exact Heven.
      * rewrite E2. split; [lia|]. split; [lia|]. intros _.
        rewrite Z.even_add, Heven. reflexivity.
Qed.

Lemma hundredths_nonneg (m : positive) (e : Z) : 0 <= hundredths m e.
Proof.
  unfold hundredths. destruct (Z.leb_spec 0 e) as [He|He].
  - pose proof (Z.pow_nonneg 2 e ltac:(lia)). nia.
  - apply round_half_even_nearest; [lia|]. apply Z.pow_pos_nonneg; lia.
Qed.

(* ---------- reading the layout back ---------- *)

Lemma digit_value_digit (d : Z) : 0 <= d <= 9 -> digit_value (digit d) = Some d.
Proof.
  intros H.
  assert (C : d = 0 \/ d = 1 \/ d = 2 \/ d = 3 \/ d = 4 \/ d = 5 \/ d = 6 \/ d = 7
              \/ d = 8 \/ d = 9) by lia.
  repeat (destruct C as [->|C]; [reflexivity|]). subst d. reflexivity.
Qed.

(** The digits of a number hold neither a point nor a sign. *)
Lemma split_at_point_digits (u : Decimal.uint) (back : string) :
  split_at_point (DecimalString.NilEmpty.string_of_uint u +:+ String "." back)
  = Some (DecimalString.NilEmpty.string_of_uint u, back).
Proof.
  induction u; cbn [DecimalString.NilEmpty.string_of_uint];
    rewrite ?append_cons, ?append_nil_l; cbn [split_at_point];
    rewrite ?IHu; reflexivity.
Qed.

Lemma decimal_digits (n : Z) :
  exists u, u <> Decimal.Nil
            /\ decimal n = DecimalString.NilEmpty.string_of_uint u
            /\ DecimalString.NilZero.uint_of_string (decimal n) = Some u
            /\ N.of_uint u = Z.to_N n.
Proof.
  unfold decimal. set (k := Z.to_N n).
  assert (Hnil : N.to_uint k <> Decimal.Nil).
  { destruct k as [|p]; [discriminate|]. apply DecimalPos.Unsigned.to_uint_nonnil. }
  exists (N.to_uint k). split; [exact Hnil|]. split; [|split].
  - destruct (N.to_uint k); [contradiction|reflexivity..].
  - apply DecimalString.NilZero.usu, Hnil.
  - apply DecimalN.Unsigned.of_to.
Qed.

Lemma decimal_first (n : Z) :
  exists c rest, decimal n = String c rest /\ Ascii.eqb c "-" = false.
Proof.
  destruct (decimal_digits n) as (u & Hnil & Hd & _). rewrite Hd.
  destruct u; [contradiction|..]; cbn [DecimalString.NilEmpty.string_of_uint];
    eexists; eexists; split; reflexivity.
Qed.

(** A text in the layout [%.2f] reads back as the sign and the hundredths
    it was written from. *)
Lemma read_fixed2_fixed2 (neg : bool) (n : Z) :
  0 <= n -> read_fixed2 (fixed2 neg n) = Some (neg, n).
Proof.
  intros Hn. unfold fixed2.
  set (back := String (digit (n mod 100 / 10)) (String (digit (n mod 10)) EmptyString)).
  assert (Hread : forall text,
             text = decimal (n / 100) +:+ String "." back ->
             match split_at_point text with
             | Some (front, String d1 (String d2 EmptyString)) =>
                 match DecimalString.NilZero.uint_of_string front,
                       digit_value d1, digit_value d2 with
                 | Some u, Some a, Some b =>
                     Some (neg, Z.of_N (N.of_uint u) * 100 + a * 10 + b)
                 | _, _, _ => None
                 end
             | _ => None
             end = Some (neg, n)).
  { intros text ->.
    destruct (decimal_digits (n / 100)) as (u & Hnil & Hd & Hu & Hof).
    rewrite Hd at 1. rewrite split_at_point_digits, <- Hd, Hu. unfold back.
    pose proof (Z.mod_pos_bound n 100 ltac:(lia)) as H100.
    pose proof (Z.mod_pos_bound n 10 ltac:(lia)) as H10.
    assert (Htens : 0 <= n mod 100 / 10 <= 9).
    { split; [apply Z.div_pos; lia|].
      apply Z.lt_succ_r, Z.div_lt_upper_bound; lia. }
    rewrite (digit_value_digit (n mod 100 / 10) Htens).
    rewrite (digit_value_digit (n mod 10)) by lia.
    rewrite Hof, Z2N.id by (apply Z.div_pos; lia).
    f_equal. f_equal.
    pose proof (Z.div_mod n 100 ltac:(lia)).
    pose proof (Z.div_mod (n mod 100) 10 ltac:(lia)).
    assert (n mod 10 = (n mod 100) mod 10).
    { symmetry. apply Z.mod_mod_divide. exists 10. reflexivity. }
    lia. }
  unfold read_fixed2. destruct neg.
  - change ("-" +:+ decimal (n / 100) +:+ String "." back)
      with (String "-" (decimal (n / 100) +:+ String "." back)).
    change (Ascii.eqb "-" "-") with true. cbv iota. apply Hread. reflexivity.
  - rewrite append_nil_l.
    destruct (decimal_first (n / 100)) as (c & rest & Hc & Hminus).
    remember (decimal (n / 100) +:+ String "." back) as text eqn:Htext.
    assert (Hshape : text = String c (rest +:+ String "." back))
      by (rewrite Htext, Hc; reflexivity).
    rewrite Hshape at 1. rewrite Hminus. apply Hread. reflexivity.
Qed.

(** X15.  The text of a finite price, read back, gives the sign of the price and
    the number of hundredths nearest to its absolute value, a tie going to
    the even number: a value [m * 2 ^ e] with [e >= 0] is written exactly,
    and for [e < 0] the text is off by half a hundredth at most. *)
Theorem the_text_of_a_price_reads_back_as_its_nearest_hundredth
        (neg : bool) (m : positive) (e : Z) :
  exists n,
    read_fixed2 (Price_String (S754_finite neg m e)) = Some (neg, n)
    /\ 0 <= n
    /\ (0 <= e -> n = 100 * (Z.pos m * 2 ^ e))
    /\ (e < 0 ->
        Z.abs (2 * (100 * Z.pos m - n * 2 ^ (- e))) <= 2 ^ (- e)
        /\ (Z.abs (2 * (100 * Z.pos m - n * 2 ^ (- e))) = 2 ^ (- e) ->
            Z.even n = true)).
Proof.
  exists (hundredths m e). cbn [Price_String].
  split; [apply read_fixed2_fixed2, hundredths_nonneg|].
  split; [apply hundredths_nonneg|].
  unfold hundredths. split; intros He.
  - destruct (Z.leb_spec 0 e); lia.
  - destruct (Z.leb_spec 0 e); [lia|].
    assert (Hden : 0 < 2 ^ (- e)) by (apply Z.pow_pos_nonneg; lia).
    replace (100 * Z.pos m) with (Z.pos m * 100) by lia.
    apply (round_half_even_nearest (Z.pos m * 100) (2 ^ (- e))); lia.
Qed.

(** X16.  A negative price of less than half a hundredth, and the negative
    zero, are shown as [-0.00]: the sign is the sign bit of the float,
    not that of the rounded number. *)
Theorem a_negative_price_under_half_a_cent_is_shown_as_minus_zero
        (m : positive) (e : Z) :
  e < 0 -> 200 * Z.pos m < 2 ^ (- e) ->
  Price_String (S754_finite true m e) = "-0.00"
  /\ Price_String (S754_zero true) = "-0.00".
Proof.
  intros He Hsmall. split; [|reflexivity].
  cbn [Price_String]. unfold hundredths.
  destruct (Z.leb_spec 0 e); [lia|].
  unfold round_half_even.
  rewrite (Z.div_small (Z.pos m * 100) (2 ^ (- e))) by lia.
  rewrite (Z.mod_small (Z.pos m * 100) (2 ^ (- e))) by lia.
  destruct (Z.ltb_spec (2 * (Z.pos m * 100)) (2 ^ (- e))); [reflexivity|lia].
Qed.

Lemma a_negative_price_under_half_a_cent_is_shown_as_minus_zero_witness :
  (-8 < 0) /\ 200 * 1 < 2 ^ (- (-8))
  /\ Price_String (S754_finite true 1 (-8)) = "-0.00".
Proof.
  assert (H1 : -8 < 0) by lia.
  assert (H2 : 200 * Z.pos 1 < 2 ^ (- (-8))) by (vm_compute; reflexivity).
  exact (conj H1 (conj H2
           (proj1 (a_negative_price_under_half_a_cent_is_shown_as_minus_zero
                     1 (-8) H1 H2)))).
Defined.

(* ===================================================================== *)
(** * Bodies of white space *)
(* ===================================================================== *)

Lemma readValue_all_space (body : string) :
  all_space body = true ->
  json.readValue json.scanner_reset None [] false body = inl json.EOF.
Proof.
  induction body as [|c body IH]; [reflexivity|].
  cbn [all_space]. intros H. apply andb_prop in H as [Hc Hrest].
  rewrite readValue_cons. unfold json.scanner_reset, json.scan_step.
  cbn [json.step]. unfold json.do_stateBeginValue. rewrite Hc.
  unfold json.goto. cbn [json.parseState]. cbv beta iota zeta.
  cbn [json.close_literal]. apply IH, Hrest.
Qed.

(** X17.  A body that holds white space alone, the empty body first of all,
    holds no JSON value: the decoder reports the end of the input, and
    Create and Update answer 400 without calling the service. *)
Theorem a_body_of_white_space_is_answered_400
        {S : Type} (service : Service S) (strconv : Strconv)
        (route : BodyRoute) (r : Request) (s : S) :
  all_space (Body r) = true ->
  let st := serve (body_handler service strconv route) r s in
  body_decode_error strconv route (Body r) = Some json.EOF
  /\ status (w st) = StatusBadRequest
  /\ calls st = [] /\ log st = [] /\ service_state st = s.
Proof.
  intros Hspace st. subst st.
  pose proof (readValue_all_space (Body r) Hspace) as Hread.
  destruct route; cbn [body_handler body_decode_error].
  - rewrite CreateProduct_run. unfold json.Decode_Product. rewrite Hread.
    repeat split.
  - rewrite UpdateProduct_run. unfold json.Decode_ProductUpdate. rewrite Hread.
    repeat split.
Qed.

Lemma a_body_of_white_space_is_answered_400_witness :
  let r := request_for "7" (String " " (String json.newline EmptyString)) in
  let st := serve (body_handler memory_service example_strconv PatchProduct) r
                  {["7" := Product_zero]} in
  all_space (Body r) = true
  /\ status (w st) = StatusBadRequest /\ calls st = [].
Proof.
  intros r st.
  assert (H1 : all_space (Body r) = true) by reflexivity.
  pose proof (a_body_of_white_space_is_answered_400
                memory_service example_strconv PatchProduct r
                {["7" := Product_zero]} H1) as H.
  destruct H as (_ & Hs & Hc & _).
  exact (conj H1 (conj Hs Hc)).
Defined.

(* ===================================================================== *)
(** * What the encoder writes for a string *)
(* ===================================================================== *)

(** What one turn of [appendString] writes is the escape or the copy of an
    ASCII byte, the escape of U+FFFD, of U+2028 or of U+2029, or the copy
    of a sequence of two to four bytes; a property of these that
    concatenation keeps holds of the whole literal. *)
Lemma appendString_body_ind (P : string -> Prop) :
  P EmptyString ->
  (forall a b, P a -> P b -> P (a +:+ b)) ->
  (forall c, (byteZ c <? utf8.RuneSelf) = true -> P (ascii_out c)) ->
  P (String json.backslash "ufffd") ->
  P (String json.backslash "u2028") ->
  P (String json.backslash "u2029") ->
  (forall bs r, multi_byte bs r -> P bs) ->
  forall s, exists body, byte_loop json.appendString_step 0 s = Some body /\ P body.
Proof.
  intros Hnil Happ Hascii Hfffd H2028 H2029 Hmulti s.
  remember (String.length s) as len eqn:Hlen.
  revert s Hlen. induction len as [len IH] using lt_wf_ind. intros s Hlen.
  destruct s as [|c rest]; [exists EmptyString; split; [reflexivity|exact Hnil]|].
  assert (Hstep : exists out n chunk t,
             json.appendString_step (String c rest) = Some (out, n)
             /\ String c rest = chunk +:+ t /\ String.length chunk = n /\ (1 <= n)%nat
             /\ P out).
  { unfold json.appendString_step.
    destruct (byteZ c <? utf8.RuneSelf) eqn:Hc.
    - exists (ascii_out c), 1%nat, (String c EmptyString), rest.
      split; [unfold ascii_out; destruct (json.htmlSafe (byteZ c)); reflexivity|].
      split; [reflexivity|]. split; [reflexivity|]. split; [lia|].
      apply Hascii, Hc.
    - destruct (utf8.DecodeRune (String c rest)) as [r size] eqn:Hdec.
      destruct ((r =? utf8.RuneError) && (size =? 1)%nat) eqn:Hok.
      + apply andb_prop in Hok as [_ Hsize]. apply Nat.eqb_eq in Hsize. subst size.
        exists (String json.backslash "ufffd"), 1%nat, (String c EmptyString), rest.
        split; [reflexivity|]. split; [reflexivity|]. split; [reflexivity|].
        split; [lia|exact Hfffd].
      + destruct (DecodeRune_multi_byte c rest r size Hc Hdec Hok)
          as (bs & t & Hs & Hl & Hmb).
        pose proof Hmb as (_ & _ & _ & Hlen2).
        destruct ((r =? 0x2028) || (r =? 0x2029)) eqn:Hsep.
        * eexists. exists size, bs, t.
          split; [reflexivity|]. split; [exact Hs|]. split; [exact Hl|].
          split; [lia|].
          apply orb_prop in Hsep as [H|H]; apply Z.eqb_eq in H; subst r; assumption.
        * exists bs, size, bs, t.
          split; [rewrite Hs, <- Hl, substring_append; reflexivity|].
          split; [exact Hs|]. split; [exact Hl|]. split; [lia|].
          apply (Hmulti bs r Hmb). }
  destruct Hstep as (out & n & chunk & t & Hstep & Hs & Hclen & Hn & Hout).
  assert (Hdrop : drop_bytes (Nat.pred n) rest = t).
  { change (drop_bytes (Nat.pred n) rest) with
      (drop_bytes (Datatypes.S (Nat.pred n)) (String c rest)).
    replace (Datatypes.S (Nat.pred n)) with n by lia.
    rewrite Hs, <- Hclen. apply drop_bytes_append. }
  assert (Hshort : (String.length t < len)%nat).
  { subst len. rewrite Hs, length_append. lia. }
  destruct (IH (String.length t) Hshort t eq_refl) as (body' & Hb & Hbody').
  exists (out +:+ body'). split.
  - rewrite byte_loop_cons, Hstep, Hdrop, Hb. reflexivity.
  - apply Happ; assumption.
Qed.

Lemma html_safe_app (a b : string) :
  html_safe a = true -> html_safe b = true -> html_safe (a +:+ b) = true.
Proof.
  intros Ha Hb. induction a as [|c a IH]; [exact Hb|].
  rewrite append_cons. cbn [html_safe] in *.
  apply andb_prop in Ha as [Hc Ha]. rewrite Hc, (IH Ha). reflexivity.
Qed.

Lemma html_safe_ascii_out (c : ascii) :
  (byteZ c <? utf8.RuneSelf) = true -> html_safe (ascii_out c) = true.
Proof.
  destruct c as [[] [] [] [] [] [] [] []]; intros H;
    first [discriminate H | reflexivity].
Qed.

Lemma html_safe_high_bytes (bs : string) : high_bytes bs = true -> html_safe bs = true.
Proof.
  induction bs as [|c bs IH]; [reflexivity|].
  cbn [high_bytes html_safe]. intros H. apply andb_prop in H as [Hc Hbs].
  rewrite (IH Hbs), andb_true_r.
  unfold html_safe_byte. unfold utf8.RuneSelf in Hc. apply Z.leb_le in Hc.
  destruct (Z.leb_spec 0x20 (byteZ c)); [|lia].
  destruct (Z.eqb_spec (byteZ c) 0x3C); [lia|].
  destruct (Z.eqb_spec (byteZ c) 0x3E); [lia|].
  destruct (Z.eqb_spec (byteZ c) 0x26); [lia|]. reflexivity.
Qed.

(* ---------- whole UTF-8 sequences ---------- *)

Lemma whole_runes_nil : whole_runes EmptyString.
Proof. intros t. reflexivity. Qed.

Lemma whole_runes_app (a b : string) :
  whole_runes a -> whole_runes b -> whole_runes (a +:+ b).
Proof. intros Ha Hb t. rewrite append_assoc, Ha, Hb. reflexivity. Qed.

Lemma whole_runes_ascii (c : ascii) :
  (byteZ c <? utf8.RuneSelf) = true -> whole_runes (String c EmptyString).
Proof.
  intros Hc t.
  assert (Hne : (byteZ c =? utf8.RuneError) = false).
  { apply Z.eqb_neq. apply Z.ltb_lt in Hc. unfold utf8.RuneSelf, utf8.RuneError in *. lia. }
  assert (Hstep : utf8.valid_step (String c t) = Some (EmptyString, 1%nat)).
  { unfold utf8.valid_step, utf8.DecodeRune. rewrite Hc, Hne. reflexivity. }
  rewrite append_cons, append_nil_l, byte_loop_cons, Hstep.
  cbn [Nat.pred drop_bytes].
  destruct (byte_loop utf8.valid_step 0 t); reflexivity.
Qed.

Lemma whole_runes_ascii_text (s : string) :
  (forall c, In c (list_ascii_of_string s) -> (byteZ c <? utf8.RuneSelf) = true) ->
  whole_runes s.
Proof.
  induction s as [|c s IH]; intros H; [apply whole_runes_nil|].
  change (String c s) with (String c EmptyString +:+ s).
  apply whole_runes_app.
  - apply whole_runes_ascii, H. left. reflexivity.
  - apply IH. intros d Hd. apply H. right. exact Hd.
Qed.

Lemma whole_runes_ascii_out (c : ascii) :
  (byteZ c <? utf8.RuneSelf) = true -> whole_runes (ascii_out c).
Proof.
  intros Hc. apply whole_runes_ascii_text. revert Hc.
  destruct c as [[] [] [] [] [] [] [] []]; intros H;
    first [ discriminate H
          | (intros d Hd; cbn in Hd;
             repeat (destruct Hd as [<-|Hd]; [reflexivity|]); contradiction) ].
Qed.

Lemma whole_runes_multi_byte (bs : string) (r : Z) : multi_byte bs r -> whole_runes bs.
Proof.
  intros (_ & Hdec & _ & Hlen) t.
  assert (Hstep : utf8.valid_step (bs +:+ t) = Some (EmptyString, String.length bs)).
  { unfold utf8.valid_step. rewrite (Hdec t).
    destruct (Nat.eqb_spec (String.length bs) 1) as [E|_]; [lia|].
    rewrite andb_false_r. reflexivity. }
  rewrite (byte_loop_chunk utf8.valid_step bs t EmptyString ltac:(lia) Hstep).
  destruct (byte_loop utf8.valid_step 0 t); reflexivity.
Qed.

Lemma whole_runes_valid (s : string) : whole_runes s -> utf8.ValidString s = true.
Proof.
  intros H. unfold utf8.ValidString.
  specialize (H EmptyString). rewrite append_nil_r in H. rewrite H. reflexivity.
Qed.

(** The literal [appendString] writes, whatever the bytes of the string:
    it is valid UTF-8 and holds no control character and none of [<],
    [>] and [&]. *)
Lemma appendString_safe (v : string) :
  html_safe (json.appendString v) = true /\ whole_runes (json.appendString v).
Proof.
  destruct (appendString_body_ind
              (fun out => html_safe out = true /\ whole_runes out)) with (s := v)
    as (body & Hbody & Hsafe & Hwhole).
  - split; [reflexivity|apply whole_runes_nil].
  - intros a b (Ha1 & Ha2) (Hb1 & Hb2).
    split; [apply html_safe_app; assumption|apply whole_runes_app; assumption].
  - intros c Hc. split; [apply html_safe_ascii_out, Hc|apply whole_runes_ascii_out, Hc].
  - split; [reflexivity|]. apply whole_runes_ascii_text.
    intros d Hd; cbn in Hd; repeat (destruct Hd as [<-|Hd]; [reflexivity|]); contradiction.
  - split; [reflexivity|]. apply whole_runes_ascii_text.
    intros d Hd; cbn in Hd; repeat (destruct Hd as [<-|Hd]; [reflexivity|]); contradiction.
  - split; [reflexivity|]. apply whole_runes_ascii_text.
    intros d Hd; cbn in Hd; repeat (destruct Hd as [<-|Hd]; [reflexivity|]); contradiction.
  - intros bs r Hmb. split; [|apply (whole_runes_multi_byte bs r Hmb)].
    destruct Hmb as (_ & _ & Hhigh & _). apply html_safe_high_bytes, Hhigh.
  - unfold json.appendString. rewrite Hbody. split.
    + cbn [html_safe]. change (html_safe_byte json.quote) with true. cbn [andb].
      apply html_safe_app; [exact Hsafe|reflexivity].
    + change (String json.quote (body +:+ String json.quote EmptyString))
        with (String json.quote EmptyString +:+ (body +:+ String json.quote EmptyString)).
      apply whole_runes_app; [apply whole_runes_ascii; reflexivity|].
      apply whole_runes_app; [exact Hwhole|apply whole_runes_ascii; reflexivity].
Qed.

(* ---------- the bytes of a number ---------- *)

Ltac orb_true :=
  repeat match goal with
         | H : _ || _ = true |- _ => apply orb_prop in H as [H|H]
         end;
  repeat match goal with
         | H : _ = true |- _ => rewrite H
         end;
  rewrite ?orb_true_r; reflexivity.

Lemma number_step_byte (st : json.step_state) (c : ascii) (s' : json.scanner) :
  number_state st = true ->
  json.scan_step (json.mkScanner st []) c = (json.scanContinue, s') ->
  number_byte c = true.
Proof.
  unfold number_byte.
  destruct st; intros Hst; try discriminate Hst; clear Hst;
    scan_cases; intros H; try discriminate H; orb_true.
Qed.

Lemma number_begin_byte (c : ascii) (s' : json.scanner) :
  json.scan_step (json.mkScanner json.stateBeginValue []) c
  = (json.scanBeginLiteral, s') ->
  number_state (json.step s') = true ->
  number_byte c = true.
Proof.
  unfold number_byte.
  scan_cases; intros H; inversion H; subst; intros Hn;
    try discriminate Hn; try discriminate H; orb_true.
Qed.

Lemma scans_number_bytes (text : string) :
  forall st, number_state st = true -> scans_number_from st text = true ->
             number_bytes text = true.
Proof.
  induction text as [|c text IH]; intros st Hst Hscan; [reflexivity|].
  cbn [scans_number_from] in Hscan.
  destruct (json.scan_step (json.mkScanner st []) c) as [op s'] eqn:Hstep.
  destruct op; try discriminate Hscan.
  apply andb_prop in Hscan as [Hst' Hrest].
  cbn [number_bytes]. rewrite (number_step_byte st c s' Hst Hstep).
  apply (IH (json.step s') Hst' Hrest).
Qed.

Lemma is_number_bytes (text : string) :
  is_number text = true -> number_bytes text = true.
Proof.
  destruct text as [|c text]; [discriminate|].
  unfold is_number.
  destruct (json.scan_step (json.mkScanner json.stateBeginValue []) c)
    as [op s'] eqn:Hstep.
  destruct op; try discriminate.
  intros H. apply andb_prop in H as [Hst Hrest].
  cbn [number_bytes]. rewrite (number_begin_byte c s' Hstep Hst).
  apply (scans_number_bytes text (json.step s') Hst Hrest).
Qed.

Lemma number_byte_safe (c : ascii) :
  number_byte c = true ->
  html_safe_byte c = true /\ (byteZ c <? utf8.RuneSelf) = true.
Proof.
  destruct c as [[] [] [] [] [] [] [] []]; intros H;
    first [discriminate H | split; reflexivity].
Qed.

Lemma number_bytes_safe (text : string) : number_bytes text = true -> safe_text text.
Proof.
  induction text as [|c text IH]; intros H;
    [split; [reflexivity|apply whole_runes_nil]|].
  cbn [number_bytes] in H. apply andb_prop in H as [Hc Hrest].
  destruct (number_byte_safe c Hc) as (Hsafe & Hascii).
  destruct (IH Hrest) as (Hs & Hw). split.
  - cbn [html_safe]. rewrite Hsafe, Hs. reflexivity.
  - change (String c text) with (String c EmptyString +:+ text).
    apply whole_runes_app; [apply whole_runes_ascii, Hascii|exact Hw].
Qed.

(* ---------- the text of a product ---------- *)

Lemma safe_text_app (a b : string) : safe_text a -> safe_text b -> safe_text (a +:+ b).
Proof.
  intros (Ha1 & Ha2) (Hb1 & Hb2).
  split; [apply html_safe_app; assumption|apply whole_runes_app; assumption].
Qed.

Lemma safe_text_ascii (s : string) :
  html_safe s = true ->
  (forall c, In c (list_ascii_of_string s) -> (byteZ c <? utf8.RuneSelf) = true) ->
  safe_text s.
Proof. intros H1 H2. split; [exact H1|apply whole_runes_ascii_text, H2]. Qed.

Ltac ascii_text :=
  apply safe_text_ascii;
  [ reflexivity
  | let d := fresh "d" in
    let Hd := fresh "Hd" in
    intros d Hd; cbn in Hd;
    repeat (destruct Hd as [<-|Hd]; [reflexivity|]); contradiction ].

Lemma member_text_safe (m : json.field * string) :
  safe_text (snd m) -> safe_text (member_text m).
Proof.
  intros Hv. unfold member_text.
  change (String json.quote (json.field_name (fst m)
                               +:+ String json.quote (":" +:+ snd m)))
    with (String json.quote EmptyString
            +:+ (json.field_name (fst m)
                   +:+ (String json.quote (String ":" EmptyString) +:+ snd m))).
  apply safe_text_app; [ascii_text|].
  apply safe_text_app; [destruct (fst m); ascii_text|].
  apply safe_text_app; [ascii_text|exact Hv].
Qed.

Lemma members_text_safe (fm : list (json.field * string)) (first : bool) :
  Forall (fun m => safe_text (snd m)) fm -> safe_text (members_text first fm).
Proof.
  intros H. revert first. induction H as [|m fm Hm Hfm IH]; intros first.
  - split; [reflexivity|apply whole_runes_nil].
  - cbn [members_text].
    apply safe_text_app; [destruct first; ascii_text|].
    apply safe_text_app; [apply member_text_safe, Hm|apply IH].
Qed.

Lemma field_members_safe (sc : Strconv) (p : Product) :
  (json.isEmptyFloat (Product.Price p) = false ->
   is_number (FormatFloat sc (Product.Price p)) = true) ->
  Forall (fun m => safe_text (snd m)) (field_members sc p).
Proof.
  intros Hprice. unfold field_members.
  repeat apply Forall_app_2.
  - destruct (json.isEmptyString (Product.ID p)); constructor;
      [apply appendString_safe|constructor].
  - destruct (json.isEmptyString (Product.Name p)); constructor;
      [apply appendString_safe|constructor].
  - destruct (json.isEmptyString (Product.Description p)); constructor;
      [apply appendString_safe|constructor].
  - destruct (json.isEmptyFloat (Product.Price p)) eqn:He; constructor; [|constructor].
    apply number_bytes_safe, is_number_bytes, Hprice. reflexivity.
Qed.

(** X18.  The JSON text of a product can stand in a page of HTML as it is.
    Whatever bytes the service put in the identifier, the name and the
    description (valid UTF-8 or not, control characters, markup), the text
    is valid UTF-8 and holds no control character and none of [<], [>]
    and [&], the price being written by strconv as a JSON number. *)
Theorem the_json_of_a_product_is_safe_text
        (sc : Strconv) (p : Product) (text : string) :
  (json.isEmptyFloat (Product.Price p) = false ->
   is_number (FormatFloat sc (Product.Price p)) = true) ->
  json.Marshal sc p = Some text ->
  html_safe text = true /\ utf8.ValidString text = true.
Proof.
  intros Hprice Hm.
  assert (Hfin : price_is_finite (Product.Price p) = true).
  { destruct (price_is_finite (Product.Price p)) eqn:E; [reflexivity|].
    apply (proj2 (Marshal_fails_iff_price_not_finite sc p)) in E. congruence. }
  rewrite (Marshal_text sc p Hfin) in Hm. inversion Hm; subst text.
  assert (Hsafe : safe_text ("{" +:+ members_text true (field_members sc p) +:+ "}")).
  { apply safe_text_app; [ascii_text|].
    apply safe_text_app; [|ascii_text].
    apply members_text_safe, field_members_safe, Hprice. }
  destruct Hsafe as (H1 & H2). split; [exact H1|apply whole_runes_valid, H2].
Qed.

Lemma the_json_of_a_product_is_safe_text_witness :
  let name := "<b>" +:+ String (zbyte 0xFF) (String json.newline "&") in
  let p := Product.mk "7" name EmptyString price_1_5 in
  let text := "{" +:+ quoted "id" +:+ ":" +:+ quoted "7" +:+ ","
                  +:+ quoted "name" +:+ ":"
                  +:+ quoted (String json.backslash "u003cb"
                                +:+ String json.backslash "u003e"
                                +:+ String json.backslash "ufffd"
                                +:+ String json.backslash "n"
                                +:+ String json.backslash "u0026") +:+ ","
                  +:+ quoted "price" +:+ ":1.5}" in
  utf8.ValidString name = false
  /\ json.Marshal example_strconv p = Some text
  /\ html_safe text = true /\ utf8.ValidString text = true.
Proof.
  intros name p text.
  assert (H1 : json.isEmptyFloat (Product.Price p) = false ->
               is_number (FormatFloat example_strconv (Product.Price p)) = true)
    by (intros _; reflexivity).
  assert (H2 : json.Marshal example_strconv p = Some text) by (vm_compute; reflexivity).
  refine (conj _ (conj H2 (the_json_of_a_product_is_safe_text
                             example_strconv p text H1 H2))).
  vm_compute. reflexivity.
Defined.

(* ===================================================================== *)
(** * Strings that are no valid UTF-8, encoded and decoded *)
(* ===================================================================== *)

Lemma valid_step_cases (s : string) :
  (exists n, utf8.valid_step s = Some (EmptyString, n)
             /\ coerce_step s = Some (substring 0 n s, n))
  \/ (utf8.valid_step s = None
      /\ utf8.DecodeRune s = (utf8.RuneError, 1%nat)
      /\ coerce_step s = Some (utf8.EncodeRune utf8.RuneError, 1%nat)).
Proof.
  unfold utf8.valid_step, coerce_step.
  destruct (utf8.DecodeRune s) as [r size].
  destruct ((r =? utf8.RuneError) && (size =? 1)%nat) eqn:Hok.
  - right. apply andb_prop in Hok as [Hr Hs].
    apply Z.eqb_eq in Hr. apply Nat.eqb_eq in Hs. subst. repeat split.
  - left. exists size. split; reflexivity.
Qed.

(** What one turn of [appendString] writes, [unquote] reads back as what
    one turn of the coercion gives: the bytes of a valid sequence, the
    encoding of U+FFFD for a byte that belongs to none. *)
Lemma step_coerced (c : ascii) (rest : string) :
  exists chunk t out res n,
    String c rest = chunk +:+ t /\ String.length chunk = n /\ (1 <= n)%nat
    /\ json.appendString_step (String c rest) = Some (out, n)
    /\ coerce_step (String c rest) = Some (res, n)
    /\ (1 <= String.length out)%nat
    /\ (forall t', json.unquote_step (out +:+ t') = Some (res, String.length out))
    /\ whole_runes res
    /\ (utf8.valid_step (String c rest) <> None -> res = chunk).
Proof.
  destruct (valid_step_cases (String c rest)) as [(n & Hv & Hco)|(Hv & Hdec & Hco)].
  - destruct (step_round_trip c rest n Hv)
      as (chunk & t & out & Hs & Hclen & Hn & Happ & Hout & Hunq).
    exists chunk, t, out, chunk, n.
    assert (Hsub : substring 0 n (String c rest) = chunk)
      by (rewrite Hs, <- Hclen; apply substring_append).
    rewrite Hsub in Hco.
    repeat (split; [assumption|]). split; [|reflexivity].
    (* the chunk is one whole sequence *)
    intros t'. rewrite Hs in Hv.
    assert (Hv' : utf8.valid_step (chunk +:+ t') = Some (EmptyString, String.length chunk)).
    { destruct (byteZ c <? utf8.RuneSelf) eqn:Hc.
      - unfold utf8.valid_step, utf8.DecodeRune in Hv.
        rewrite <- Hs, Hc in Hv.
        destruct ((byteZ c =? utf8.RuneError) && (1 =? 1)%nat) eqn:E; [discriminate|].
        injection Hv as En. rewrite <- En in Hclen.
        destruct chunk as [|c0 chunk]; [cbn in Hclen; discriminate Hclen|].
        destruct chunk as [|c1 chunk]; [|cbn in Hclen; discriminate Hclen].
        rewrite append_cons in Hs. inversion Hs; subst c0.
        unfold utf8.valid_step, utf8.DecodeRune. rewrite append_cons, Hc, E. reflexivity.
      - rewrite <- Hs in Hv. unfold utf8.valid_step in Hv.
        destruct (utf8.DecodeRune (String c rest)) as [r size] eqn:Hdec.
        destruct ((r =? utf8.RuneError) && (size =? 1)%nat) eqn:Hok; [discriminate|].
        injection Hv as En. rewrite En in Hdec, Hok.
        destruct (DecodeRune_multi_byte c rest r n Hc Hdec Hok)
          as (bs & t0 & Hs0 & Hl0 & Hmb).
        assert (bs = chunk).
        { rewrite Hs in Hs0. rewrite <- Hclen in Hl0. clear - Hs0 Hl0.
          revert bs Hs0 Hl0. induction chunk as [|x chunk IH]; intros [|y bs] Hs0 Hl0;
            try discriminate Hl0; [reflexivity|].
          rewrite !append_cons in Hs0. inversion Hs0; subst.
          f_equal. apply IH; [assumption|]. cbn in Hl0. lia. }
        subst bs. destruct Hmb as (_ & Hdec' & _ & Hlen2).
        unfold utf8.valid_step. rewrite (Hdec' t').
        destruct (Nat.eqb_spec (String.length chunk) 1) as [E|_]; [lia|].
        rewrite andb_false_r. reflexivity. }
    rewrite (byte_loop_chunk utf8.valid_step chunk t' EmptyString ltac:(lia) Hv').
    destruct (byte_loop utf8.valid_step 0 t'); reflexivity.
  - assert (Hc : (byteZ c <? utf8.RuneSelf) = false).
    { destruct (byteZ c <? utf8.RuneSelf) eqn:Hc; [|reflexivity].
      unfold utf8.DecodeRune in Hdec. rewrite Hc in Hdec.
      inversion Hdec as [E]. apply Z.ltb_lt in Hc.
      unfold utf8.RuneSelf, utf8.RuneError in *. lia. }
    exists (String c EmptyString), rest, (String json.backslash "ufffd"),
      (utf8.EncodeRune utf8.RuneError), 1%nat.
    split; [reflexivity|]. split; [reflexivity|]. split; [lia|].
    split; [unfold json.appendString_step; rewrite Hc, Hdec; reflexivity|].
    split; [exact Hco|]. split; [cbn; lia|].
    split; [intros t'; reflexivity|].
    split; [|intros H; contradiction].
    intros t'.
    assert (Hv' : utf8.valid_step (utf8.EncodeRune utf8.RuneError +:+ t')
                  = Some (EmptyString, 3%nat)) by reflexivity.
    rewrite (byte_loop_chunk utf8.valid_step (utf8.EncodeRune utf8.RuneError) t'
               EmptyString ltac:(cbn; lia) Hv').
    destruct (byte_loop utf8.valid_step 0 t'); reflexivity.
Qed.

(** [appendString] is total, and [unquote] reads what it wrote back as
    the coerced string, which is valid UTF-8, and is the string itself
    when that was valid. *)
Lemma append_unquote_coerced (s : string) :
  exists body res,
    byte_loop json.appendString_step 0 s = Some body
    /\ byte_loop coerce_step 0 s = Some res
    /\ byte_loop json.unquote_step 0 body = Some res
    /\ whole_runes res
    /\ (utf8.ValidString s = true -> res = s).
Proof.
  remember (String.length s) as len eqn:Hlen.
  revert s Hlen. induction len as [len IH] using lt_wf_ind. intros s Hlen.
  destruct s as [|c rest].
  { exists EmptyString, EmptyString. repeat split. }
  destruct (step_coerced c rest)
    as (chunk & t & out & res & n & Hs & Hclen & Hn & Happ & Hco & Hout & Hunq
        & Hwhole & Hsame).
  assert (Hdrop : drop_bytes (Nat.pred n) rest = t).
  { change (drop_bytes (Nat.pred n) rest) with
      (drop_bytes (Datatypes.S (Nat.pred n)) (String c rest)).
    replace (Datatypes.S (Nat.pred n)) with n by lia.
    rewrite Hs, <- Hclen. apply drop_bytes_append. }
  assert (Hshort : (String.length t < len)%nat).
  { subst len. rewrite Hs, length_append. lia. }
  destruct (IH (String.length t) Hshort t eq_refl)
    as (body' & res' & Hb1 & Hb2 & Hb3 & Hb4 & Hb5).
  exists (out +:+ body'), (res +:+ res'). split; [|split; [|split; [|split]]].
  - rewrite byte_loop_cons, Happ, Hdrop, Hb1. reflexivity.
  - rewrite byte_loop_cons, Hco, Hdrop, Hb2. reflexivity.
  - rewrite (byte_loop_chunk json.unquote_step out body' res Hout (Hunq body')).
    rewrite Hb3. reflexivity.
  - apply whole_runes_app; assumption.
  - unfold utf8.ValidString. rewrite byte_loop_cons.
    destruct (utf8.valid_step (String c rest)) as [[o k]|] eqn:Hv; [|discriminate].
    assert (Hk : k = n).
    { destruct (valid_step_cases (String c rest)) as [(k' & Hv' & Hco')|(Hv' & _)];
        [|congruence].
      rewrite Hv in Hv'. inversion Hv'; subst. rewrite Hco in Hco'.
      inversion Hco'. reflexivity. }
    subst k. rewrite Hdrop. intros Hvalid.
    rewrite (Hsame ltac:(discriminate)), Hs. f_equal.
    apply Hb5. unfold utf8.ValidString.
    destruct (byte_loop utf8.valid_step 0 t); [reflexivity|discriminate].
Qed.

Lemma unquote_appendString_coerced (v : string) :
  json.unquote (json.appendString v) = Some (coerced v).
Proof.
  destruct (append_unquote_coerced v) as (body & res & Happ & Hco & Hunq & _).
  unfold json.appendString, coerced. rewrite Happ, Hco. unfold json.unquote.
  rewrite split_last_snoc, Ascii.eqb_refl. exact Hunq.
Qed.

Lemma coerced_facts (v : string) :
  utf8.ValidString (coerced v) = true
  /\ (utf8.ValidString v = true -> coerced v = v)
  /\ (v = EmptyString <-> coerced v = EmptyString).
Proof.
  destruct (append_unquote_coerced v) as (body & res & _ & Hco & _ & Hwhole & Hsame).
  unfold coerced. rewrite Hco.
  split; [apply whole_runes_valid, Hwhole|]. split; [exact Hsame|].
  destruct v as [|c rest].
  - cbn in Hco. inversion Hco. split; reflexivity.
  - split; [discriminate|]. intros ->.
    rewrite byte_loop_cons in Hco.
    destruct (step_coerced c rest)
      as (chunk & t & out & res0 & n & Hs & Hclen & Hn & _ & Hco0 & _ & _ & _ & Hsame0).
    rewrite Hco0 in Hco.
    destruct (byte_loop coerce_step 0 (drop_bytes (Nat.pred n) rest)); [|discriminate].
    inversion Hco as [E].
    destruct res0 as [|x res0]; [|discriminate E].
    exfalso.
    destruct (valid_step_cases (String c rest)) as [(k & Hv & Hco')|(_ & _ & Hco')].
    + rewrite Hco0 in Hco'. inversion Hco' as [[E1 E2]]. subst k.
      destruct n; [lia|discriminate E1].
    + rewrite Hco0 in Hco'. inversion Hco'.
Qed.

Lemma literalStore_string_coerced sc f v p :
  f <> json.fPrice ->
  json.literalStore sc (json.appendString v) f p
  = (json.set_field_string f (coerced v) p, false).
Proof.
  intros Hf. pose proof (unquote_appendString_coerced v) as Hunq.
  destruct (appendString_first v) as (rest & Hshape).
  unfold json.literalStore. rewrite Hshape in *.
  change (json.byte_is json.quote "n") with false.
  change (json.byte_is json.quote "t" || json.byte_is json.quote "f") with false.
  rewrite Ascii.eqb_refl. cbv iota. rewrite Hunq.
  destruct f; try reflexivity. exfalso. apply Hf. reflexivity.
Qed.

Lemma field_members_stored_coerced sc p :
  price_round_trips sc (Product.Price p) ->
  fold_left (store sc) (field_members sc p) (Product_zero, false)
  = (coerced_product p, false).
Proof.
  intros Hprice. destruct p as [id name desc price].
  unfold field_members, coerced_product.
  cbn [Product.ID Product.Name Product.Description Product.Price] in *.
  destruct (json.isEmptyString id) eqn:Eid;
    destruct (json.isEmptyString name) eqn:Ename;
    destruct (json.isEmptyString desc) eqn:Edesc;
    destruct (json.isEmptyFloat price) eqn:Eprice;
    try (apply isEmptyString_nil in Eid; subst id);
    try (apply isEmptyString_nil in Ename; subst name);
    try (apply isEmptyString_nil in Edesc; subst desc);
    try (destruct (Hprice Eprice) as (Hnum & Hparse));
    cbn [app fold_left]; unfold store; cbn [fst snd];
    rewrite ?literalStore_string_coerced by discriminate;
    cbn [fst snd];
    rewrite ?(literalStore_price sc _ price _ Hnum Hparse);
    reflexivity.
Qed.

(** X19.  Encoding and decoding, for every product JSON can carry.  Whatever
    the bytes of its strings, a product with a finite price has a wire
    form, and the decoder, run from the zero value on that wire form
    followed by anything, succeeds and gives the product back with each
    string coerced to valid UTF-8: a string that is valid comes back
    unchanged, and in one that is not, each byte outside a valid sequence
    comes back as U+FFFD. *)
Theorem an_encoded_product_is_decoded_with_its_strings_coerced
        (sc : Strconv) (p : Product) :
  price_is_finite (Product.Price p) = true ->
  price_round_trips sc (Product.Price p) ->
  exists wire,
    json.Encode_Product sc p = Some wire
    /\ (forall tail,
           json.Decode_Product sc (wire +:+ tail) Product_zero
           = (coerced_product p, None))
    /\ (forall v, utf8.ValidString (coerced v) = true
                  /\ (utf8.ValidString v = true -> coerced v = v)).
Proof.
  intros Hfin Hprice.
  exists ("{" +:+ members_text true (field_members sc p) +:+ "}"
              +:+ String json.newline EmptyString).
  split; [|split].
  - unfold json.Encode_Product. rewrite (Marshal_text sc p Hfin).
    rewrite !append_assoc. reflexivity.
  - intros tail. unfold json.Decode_Product.
    rewrite !append_assoc.
    rewrite (readValue_object _ _ (field_members_read sc p Hprice)).
    cbn [json.unmarshal_Product].
    rewrite object_members, (field_members_stored_coerced sc p Hprice).
    reflexivity.
  - intros v. destruct (coerced_facts v) as (H1 & H2 & _). split; assumption.
Qed.

Lemma an_encoded_product_is_decoded_with_its_strings_coerced_witness :
  let bad := String (zbyte 0xC3) (String "(" (String (zbyte 0xFF) EmptyString)) in
  let p := Product.mk "7" ("a" +:+ bad) "Café" price_1_5 in
  let replacement := utf8.EncodeRune utf8.RuneError in
  price_is_finite (Product.Price p) = true
  /\ price_round_trips example_strconv (Product.Price p)
  /\ utf8.ValidString (Product.Name p) = false
  /\ exists wire,
      json.Encode_Product example_strconv p = Some wire
      /\ json.Decode_Product example_strconv (wire +:+ "{}") Product_zero
         = (Product.mk "7" ("a" +:+ replacement +:+ "(" +:+ replacement) "Café"
                       price_1_5, None).
Proof.
  intros bad p replacement.
  assert (H1 : price_is_finite (Product.Price p) = true) by reflexivity.
  assert (H2 : price_round_trips example_strconv (Product.Price p)).
  { intros _. split; vm_compute; reflexivity. }
  destruct (an_encoded_product_is_decoded_with_its_strings_coerced
              example_strconv p H1 H2) as (wire & Henc & Hdec & _).
  refine (conj H1 (conj H2 (conj _ _))); [vm_compute; reflexivity|].
  exists wire. split; [exact Henc|]. rewrite (Hdec "{}").
  vm_compute. reflexivity.
Defined.

(* ===================================================================== *)
(** * The members of a body *)
(* ===================================================================== *)

Lemma string_members_read (ms : list (json.field * string)) :
  Forall (fun m => reads_as_value (snd m)) (string_members ms).
Proof.
  induction ms as [|m ms IH]; [constructor|].
  constructor; [apply appendString_reads_as_value|exact IH].
Qed.

Lemma string_members_stored sc (ms : list (json.field * string)) :
  Forall (fun m => fst m <> json.fPrice) ms ->
  forall p bad,
    fold_left (store sc) (string_members ms) (p, bad) = (stored ms p, bad).
Proof.
  induction 1 as [|m ms Hm Hms IH]; intros p bad; [reflexivity|].
  cbn [string_members List.map fold_left stored].
  unfold store at 2. cbn [fst snd].
  rewrite (literalStore_string_coerced sc (fst m) (snd m) p Hm), orb_false_r.
  apply IH.
Qed.

(** X20.  The decoder stores the members of an object in the order of the
    text.  For a body that is an object of members of the three string
    fields, in any order and with repetitions, followed by anything, the
    decoding succeeds; of two members with the same key the later one
    wins, a field without a member keeps the value it had, and what
    follows the object is not read. *)
Theorem the_members_of_a_body_are_stored_in_turn
        (sc : Strconv) (ms : list (json.field * string)) (tail : string)
        (p : Product) :
  Forall (fun m => fst m <> json.fPrice) ms ->
  json.Decode_Product sc
    ("{" +:+ members_text true (string_members ms) +:+ "}" +:+ tail) p
  = (stored ms p, None).
Proof.
  intros Hms. unfold json.Decode_Product.
  rewrite (readValue_object _ _ (string_members_read ms)).
  cbn [json.unmarshal_Product].
  rewrite object_members, (string_members_stored sc ms Hms). reflexivity.
Qed.

Lemma the_members_of_a_body_are_stored_in_turn_witness :
  let ms := [(json.fName, "A"); (json.fID, "7"); (json.fName, "B")] in
  let body := "{" +:+ quoted "name" +:+ ":" +:+ quoted "A" +:+ ","
                  +:+ quoted "id" +:+ ":" +:+ quoted "7" +:+ ","
                  +:+ quoted "name" +:+ ":" +:+ quoted "B" +:+ "} trailing" in
  Forall (fun m => fst m <> json.fPrice) ms
  /\ body = "{" +:+ members_text true (string_members ms) +:+ "}" +:+ " trailing"
  /\ json.Decode_Product example_strconv body
       (Product.mk "1" "Z" "kept" price_1_5)
     = (Product.mk "7" "B" "kept" price_1_5, None).
Proof.
  intros ms body.
  assert (H1 : Forall (fun m => fst m <> json.fPrice) ms)
    by (repeat constructor; discriminate).
  assert (H2 : body = "{" +:+ members_text true (string_members ms) +:+ "}"
                          +:+ " trailing") by (vm_compute; reflexivity).
  refine (conj H1 (conj H2 _)). rewrite H2.
  rewrite (the_members_of_a_body_are_stored_in_turn
             example_strconv ms " trailing" _ H1).
  vm_compute. reflexivity.
Defined.

(* ===================================================================== *)
(** * The bodies are valid JSON *)
(* ===================================================================== *)

Lemma scan_all_cons s c rest :
  scan_all s (String c rest)
  = let '(op, s') := json.scan_step s c in
    match op with
    | json.scanError => None
    | _ => scan_all s' rest
    end.
Proof. reflexivity. Qed.

Lemma scan_all_app (a b : string) :
  forall s, scan_all s (a +:+ b)
            = match scan_all s a with
              | Some s' => scan_all s' b
              | None => None
              end.
Proof.
  induction a as [|c a IH]; intros s; [reflexivity|].
  rewrite append_cons, !scan_all_cons.
  destruct (json.scan_step s c) as [op s']. destruct op; try reflexivity; apply IH.
Qed.

Lemma checkValid_scan_all (data : string) :
  forall s, json.checkValid s data
            = match scan_all s data with
              | Some s' =>
                  match json.scanner_eof s' with
                  | json.scanError => false
                  | _ => true
                  end
              | None => false
              end.
Proof.
  induction data as [|c data IH]; intros s; [reflexivity|].
  cbn [json.checkValid]. rewrite scan_all_cons.
  destruct (json.scan_step s c) as [op s']. destruct op; try reflexivity; apply IH.
Qed.

(* ---------- string literals ---------- *)

Lemma scans_inside_nil : scans_inside EmptyString.
Proof. intros ps. reflexivity. Qed.

Lemma scans_inside_app (a b : string) :
  scans_inside a -> scans_inside b -> scans_inside (a +:+ b).
Proof. intros Ha Hb ps. rewrite scan_all_app, Ha, Hb. reflexivity. Qed.

Lemma scans_inside_ascii_out (c : ascii) :
  (byteZ c <? utf8.RuneSelf) = true -> scans_inside (ascii_out c).
Proof.
  destruct c as [[] [] [] [] [] [] [] []]; intros H ps;
    first [discriminate H | reflexivity].
Qed.

Lemma scans_inside_high_bytes (bs : string) :
  high_bytes bs = true -> scans_inside bs.
Proof.
  induction bs as [|c bs IH]; intros H; [apply scans_inside_nil|].
  cbn [high_bytes] in H. apply andb_prop in H as [Hc Hbs].
  destruct (high_byte_plain c (high_byte_not_ascii c Hc)) as (Hb & Hq & Hctl).
  intros ps. rewrite scan_all_cons.
  unfold json.scan_step, in_string. cbn [json.step]. rewrite Hq, Hb, Hctl.
  unfold json.goto. cbn [json.parseState]. apply (IH Hbs ps).
Qed.

Lemma appendString_scans (v : string) (st : json.step_state)
      (ps : list json.parse_state) :
  begins_string st = true ->
  scan_all (json.mkScanner st ps) (json.appendString v)
  = Some (json.mkScanner json.stateEndValue ps).
Proof.
  intros Hst.
  destruct (appendString_body_ind scans_inside) with (s := v) as (body & Hbody & Hin).
  - apply scans_inside_nil.
  - apply scans_inside_app.
  - apply scans_inside_ascii_out.
  - intros ps'. reflexivity.
  - intros ps'. reflexivity.
  - intros ps'. reflexivity.
  - intros bs r (_ & _ & Hhigh & _). apply scans_inside_high_bytes, Hhigh.
  - unfold json.appendString. rewrite Hbody.
    rewrite scan_all_cons, (scan_step_open_quote st ps Hst). cbv beta iota zeta.
    rewrite scan_all_app, (Hin ps). reflexivity.
Qed.

Lemma appendString_scans_as_value (v : string) : scans_as_value (json.appendString v).
Proof.
  intros ps. exists json.stateEndValue. split; [|reflexivity].
  apply appendString_scans. reflexivity.
Qed.

(* ---------- numbers ---------- *)

Lemma scan_all_number_from (text : string) :
  forall st ps,
    number_state st = true -> scans_number_from st text = true ->
    exists st', scan_all (json.mkScanner st ps) text = Some (json.mkScanner st' ps)
                /\ number_end st' = true.
Proof.
  induction text as [|c text IH]; intros st ps Hst Hscan.
  - exists st. split; [reflexivity|exact Hscan].
  - cbn [scans_number_from] in Hscan.
    destruct (json.scan_step (json.mkScanner st []) c) as [op s'] eqn:Hstep.
    destruct op; try discriminate Hscan.
    apply andb_prop in Hscan as [Hst' Hrest].
    rewrite scan_all_cons, (number_step_any_stack st c s' ps Hst Hstep).
    cbv beta iota zeta. apply (IH _ ps Hst' Hrest).
Qed.

Lemma number_scans_as_value (text : string) :
  is_number text = true -> scans_as_value text.
Proof.
  intros Hnum ps. destruct text as [|c text]; [discriminate Hnum|].
  unfold is_number in Hnum.
  destruct (json.scan_step (json.mkScanner json.stateBeginValue []) c)
    as [op s'] eqn:Hstep.
  destruct op; try discriminate Hnum.
  apply andb_prop in Hnum as [Hst Hrest].
  destruct (scan_all_number_from text (json.step s') ps Hst Hrest) as (st' & Hscan & Hend).
  exists st'. split.
  - rewrite scan_all_cons, (number_begin_any_stack c s' ps Hstep Hst).
    cbv beta iota zeta. exact Hscan.
  - destruct st'; try discriminate Hend; reflexivity.
Qed.

(* ---------- objects ---------- *)

Lemma value_end_comma (st : json.step_state) (ps : list json.parse_state) :
  at_value_end st = true ->
  json.scan_step (json.mkScanner st (json.parseObjectValue :: ps)) ","
  = (json.scanObjectValue,
     json.mkScanner json.stateBeginString (json.parseObjectKey :: ps)).
Proof. destruct st; intros H; try discriminate H; reflexivity. Qed.

Lemma value_end_brace (st : json.step_state) (ps : list json.parse_state) :
  at_value_end st = true ->
  json.scan_step (json.mkScanner st (json.parseObjectValue :: ps)) "}"
  = (json.scanEndObject, after_value ps).
Proof.
  destruct st; intros H; try discriminate H; destruct ps; reflexivity.
Qed.

(** A member: its key, the colon and its value. *)
Lemma member_text_scans (m : json.field * string) (st : json.step_state)
      (ps : list json.parse_state) :
  st = json.stateBeginString \/ st = json.stateBeginStringOrEmpty ->
  scans_as_value (snd m) ->
  exists st',
    scan_all (json.mkScanner st (json.parseObjectKey :: ps)) (member_text m)
    = Some (json.mkScanner st' (json.parseObjectValue :: ps))
    /\ at_value_end st' = true.
Proof.
  intros Hst Hv. destruct (Hv (json.parseObjectValue :: ps)) as (st' & Hscan & Hend).
  exists st'. split; [|exact Hend].
  destruct m as [f text]. cbn [fst snd] in *. unfold member_text. cbn [fst snd].
  assert (Hkey : forall key,
             scan_all (json.mkScanner st (json.parseObjectKey :: ps)) key
             = Some (json.mkScanner json.stateBeginValue (json.parseObjectValue :: ps)) ->
             scan_all (json.mkScanner st (json.parseObjectKey :: ps)) (key +:+ text)
             = Some (json.mkScanner st' (json.parseObjectValue :: ps))).
  { intros key Hk. rewrite scan_all_app, Hk. exact Hscan. }
  destruct f;
    [ apply (Hkey (String json.quote ("id" +:+ String json.quote ":")))
    | apply (Hkey (String json.quote ("name" +:+ String json.quote ":")))
    | apply (Hkey (String json.quote ("description" +:+ String json.quote ":")))
    | apply (Hkey (String json.quote ("price" +:+ String json.quote ":"))) ];
    destruct Hst; subst st; reflexivity.
Qed.

Lemma members_text_scans (fm : list (json.field * string)) :
  Forall (fun m => scans_as_value (snd m)) fm ->
  forall st ps,
    at_value_end st = true ->
    scan_all (json.mkScanner st (json.parseObjectValue :: ps))
             (members_text false fm +:+ "}")
    = Some (after_value ps).
Proof.
  induction 1 as [|m fm Hm Hfm IH]; intros st ps Hst.
  - cbn [members_text]. rewrite append_nil_l, scan_all_cons, (value_end_brace st ps Hst).
    reflexivity.
  - cbn [members_text].
    change ("," +:+ member_text m +:+ members_text false fm)
      with (String "," (member_text m +:+ members_text false fm)).
    rewrite append_cons, scan_all_cons, (value_end_comma st ps Hst).
    cbv beta iota zeta. rewrite append_assoc, scan_all_app.
    destruct (member_text_scans m json.stateBeginString ps (or_introl eq_refl) Hm)
      as (st' & Hscan & Hend).
    rewrite Hscan. apply (IH st' ps Hend).
Qed.

(** An object in the layout of the encoder, at the top level or as an
    element of an array. *)
Lemma object_text_scans (fm : list (json.field * string)) (st : json.step_state)
      (ps : list json.parse_state) :
  Forall (fun m => scans_as_value (snd m)) fm ->
  st = json.stateBeginValue \/ st = json.stateBeginValueOrEmpty ->
  ps = [] \/ ps = [json.parseArrayValue] ->
  scan_all (json.mkScanner st ps) ("{" +:+ members_text true fm +:+ "}")
  = Some (after_value ps).
Proof.
  intros Hfm Hst Hps.
  change ("{" +:+ members_text true fm +:+ "}")
    with (String "{" (members_text true fm +:+ "}")).
  rewrite scan_all_cons.
  assert (Hopen : json.scan_step (json.mkScanner st ps) "{"
                  = (json.scanBeginObject,
                     json.mkScanner json.stateBeginStringOrEmpty
                                    (json.parseObjectKey :: ps))).
  { destruct Hst; subst st; destruct Hps; subst ps; reflexivity. }
  rewrite Hopen. cbv beta iota zeta.
  destruct Hfm as [|m fm Hm Hfm].
  - destruct Hps; subst ps; reflexivity.
  - cbn [members_text]. rewrite append_nil_l, append_assoc, scan_all_app.
    destruct (member_text_scans m json.stateBeginStringOrEmpty ps
                (or_intror eq_refl) Hm) as (st' & Hscan & Hend).
    rewrite Hscan. apply (members_text_scans fm Hfm st' ps Hend).
Qed.

Lemma field_members_scan (sc : Strconv) (p : Product) :
  writes_numbers sc -> price_is_finite (Product.Price p) = true ->
  Forall (fun m => scans_as_value (snd m)) (field_members sc p).
Proof.
  intros Hsc Hfin. unfold field_members.
  repeat apply Forall_app_2.
  - destruct (json.isEmptyString (Product.ID p)); constructor;
      [apply appendString_scans_as_value|constructor].
  - destruct (json.isEmptyString (Product.Name p)); constructor;
      [apply appendString_scans_as_value|constructor].
  - destruct (json.isEmptyString (Product.Description p)); constructor;
      [apply appendString_scans_as_value|constructor].
  - destruct (json.isEmptyFloat (Product.Price p)) eqn:He; constructor; [|constructor].
    apply number_scans_as_value, Hsc; assumption.
Qed.

Lemma Marshal_scans (sc : Strconv) (p : Product) (text : string)
      (st : json.step_state) (ps : list json.parse_state) :
  writes_numbers sc -> json.Marshal sc p = Some text ->
  st = json.stateBeginValue \/ st = json.stateBeginValueOrEmpty ->
  ps = [] \/ ps = [json.parseArrayValue] ->
  scan_all (json.mkScanner st ps) text = Some (after_value ps).
Proof.
  intros Hsc Hm Hst Hps.
  assert (Hfin : price_is_finite (Product.Price p) = true).
  { destruct (price_is_finite (Product.Price p)) eqn:E; [reflexivity|].
    apply (proj2 (Marshal_fails_iff_price_not_finite sc p)) in E. congruence. }
  rewrite (Marshal_text sc p Hfin) in Hm. inversion Hm; subst text.
  apply object_text_scans; [apply field_members_scan|..]; assumption.
Qed.

(* ---------- arrays ---------- *)

Lemma Marshal_elems_scan (sc : Strconv) (ps : list Product) :
  writes_numbers sc ->
  forall body,
    json.Marshal_elems sc false ps = Some body ->
    scan_all (json.mkScanner json.stateEndValue [json.parseArrayValue]) (body +:+ "]")
    = Some (json.mkScanner json.stateEndTop []).
Proof.
  intros Hsc. induction ps as [|p ps IH]; intros body Hbody.
  - cbn in Hbody. inversion Hbody. reflexivity.
  - cbn [json.Marshal_elems] in Hbody.
    destruct (json.Marshal sc p) as [text|] eqn:Hm; [|discriminate].
    destruct (json.Marshal_elems sc false ps) as [tl|]; [|discriminate].
    inversion Hbody; subst body.
    change ("," +:+ text +:+ tl) with (String "," (text +:+ tl)).
    rewrite append_cons, scan_all_cons.
    change (json.scan_step (json.mkScanner json.stateEndValue [json.parseArrayValue]) ",")
      with (json.scanArrayValue,
            json.mkScanner json.stateBeginValue [json.parseArrayValue]).
    cbv beta iota zeta. rewrite append_assoc, scan_all_app.
    rewrite (Marshal_scans sc p text json.stateBeginValue [json.parseArrayValue]
               Hsc Hm (or_introl eq_refl) (or_intror eq_refl)).
    apply (IH tl eq_refl).
Qed.

Lemma valid_after_top (text : string) :
  scan_all json.scanner_reset text = Some (json.mkScanner json.stateEndTop []) ->
  json.Valid (text +:+ String json.newline EmptyString) = true.
Proof.
  intros H. unfold json.Valid. rewrite checkValid_scan_all, scan_all_app, H.
  reflexivity.
Qed.

Lemma Encode_Product_valid (sc : Strconv) (p : Product) (b : string) :
  writes_numbers sc -> json.Encode_Product sc p = Some b -> json.Valid b = true.
Proof.
  intros Hsc Hb. unfold json.Encode_Product in Hb.
  destruct (json.Marshal sc p) as [text|] eqn:Hm; [|discriminate].
  inversion Hb; subst b. apply valid_after_top.
  apply (Marshal_scans sc p text json.stateBeginValue [] Hsc Hm
           (or_introl eq_refl) (or_introl eq_refl)).
Qed.

Lemma Encode_Products_valid (sc : Strconv) (ps : option (list Product)) (b : string) :
  writes_numbers sc -> json.Encode_Products sc ps = Some b -> json.Valid b = true.
Proof.
  intros Hsc Hb. unfold json.Encode_Products in Hb.
  destruct ps as [l|]; [|inversion Hb; reflexivity].
  destruct (json.Marshal_elems sc true l) as [body|] eqn:Hbody; [|discriminate].
  inversion Hb; subst b.
  replace ("[" +:+ body +:+ "]" +:+ String json.newline EmptyString)
    with (String "[" (body +:+ "]") +:+ String json.newline EmptyString)
    by (rewrite append_cons, append_assoc; reflexivity).
  apply valid_after_top.
  unfold json.scanner_reset. rewrite scan_all_cons.
  change (json.scan_step (json.mkScanner json.stateBeginValue []) "[")
    with (json.scanBeginArray,
          json.mkScanner json.stateBeginValueOrEmpty [json.parseArrayValue]).
  cbv beta iota zeta.
  destruct l as [|p l].
  - cbn in Hbody. inversion Hbody. reflexivity.
  - cbn [json.Marshal_elems] in Hbody.
    destruct (json.Marshal sc p) as [text|] eqn:Hm; [|discriminate].
    destruct (json.Marshal_elems sc false l) as [tl|] eqn:Htl; [|discriminate].
    inversion Hbody; subst body.
    rewrite append_nil_l, append_assoc, scan_all_app.
    rewrite (Marshal_scans sc p text json.stateBeginValueOrEmpty [json.parseArrayValue]
               Hsc Hm (or_intror eq_refl) (or_intror eq_refl)).
    apply (Marshal_elems_scan sc l Hsc tl Htl).
Qed.

(** X21.  Whatever the request and whatever the service returns, the body an
    operation writes is empty or is valid JSON, strconv writing every
    finite price as a JSON number: an object for Create, Get and Update, an
    array of objects or [null] for List. *)
Theorem every_body_is_empty_or_valid_json
        {S : Type} (service : Service S) (strconv : Strconv)
        (ep : Endpoint) (r : Request) (s : S) :
  writes_numbers strconv ->
  let st := serve (endpoint service strconv ep) r s in
  written (w st) = EmptyString \/ json.Valid (written (w st)) = true.
Proof.
  intros Hsc st. subst st.
  assert (Hone : forall product rw,
             written rw = EmptyString -> bodyAllowedForStatus (status rw) = true ->
             wroteHeader rw = true ->
             written (write_encoded (json.Encode_Product strconv product) rw)
             = EmptyString
             \/ json.Valid (written (write_encoded
                                      (json.Encode_Product strconv product) rw)) = true).
  { intros product rw Hw Hok Hwrote. unfold write_encoded.
    destruct (json.Encode_Product strconv product) as [b|] eqn:Hb; [|left; exact Hw].
    right. unfold Write, WriteHeader. rewrite Hwrote, Hok. cbn [written].
    rewrite Hw, append_nil_l. apply (Encode_Product_valid strconv product b Hsc Hb). }
  assert (Hmany : forall products rw,
             written rw = EmptyString -> bodyAllowedForStatus (status rw) = true ->
             wroteHeader rw = true ->
             written (write_encoded (json.Encode_Products strconv products) rw)
             = EmptyString
             \/ json.Valid (written (write_encoded
                                      (json.Encode_Products strconv products) rw)) = true).
  { intros products rw Hw Hok Hwrote. unfold write_encoded.
    destruct (json.Encode_Products strconv products) as [b|] eqn:Hb; [|left; exact Hw].
    right. unfold Write, WriteHeader. rewrite Hwrote, Hok. cbn [written].
    rewrite Hw, append_nil_l. apply (Encode_Products_valid strconv products b Hsc Hb). }
  destruct ep; cbn [endpoint].
  - rewrite CreateProduct_run.
    destruct (json.Decode_Product _ _ Product_zero) as [p [e|]]; [left; reflexivity|].
    destruct (svc_CreateProduct service p s) as [[product [e|]] s'];
      [left; reflexivity|].
    cbn [w]. apply Hone; reflexivity.
  - rewrite ListProducts_run, Decode_ProductFilter_ignoring.
    destruct (svc_ListProducts service mkProductFilter s) as [[products [e|]] s'];
      [left; reflexivity|].
    cbn [w]. unfold json_response. apply Hmany; reflexivity.
  - rewrite GetProduct_run; cbv zeta.
    destruct (svc_GetProduct service (idFromRequest r) s) as [[product [e|]] s'].
    + destruct (errors_Is_NotFound e); left; reflexivity.
    + cbn [w]. unfold json_response. apply Hone; reflexivity.
  - rewrite UpdateProduct_run; cbv zeta.
    destruct (json.Decode_ProductUpdate (Body r) mkProductUpdate) as [upd [e|]];
      [left; reflexivity|].
    destruct (svc_UpdateProduct service (idFromRequest r) upd s)
      as [[product [e|]] s'].
    + destruct (errors_Is_NotFound e); left; reflexivity.
    + cbn [w]. unfold json_response. apply Hone; reflexivity.
  - rewrite DeleteProduct_run; cbv zeta.
    destruct (svc_DeleteProduct service (idFromRequest r) s) as [[e|] s'].
    + destruct (errors_Is_NotFound e); left; reflexivity.
    + left. reflexivity.
Qed.

Lemma every_body_is_empty_or_valid_json_witness :
  let name := "<b>" +:+ String (zbyte 0xFF) (String json.newline "&") in
  let p := Product.mk "7" name EmptyString price_1_5 in
  let st := serve (endpoint (constant_service p) example_strconv EpListProducts)
                  (request_with_body EmptyString) tt in
  writes_numbers example_strconv
  /\ written (w st) <> EmptyString
  /\ json.Valid (written (w st)) = true.
Proof.
  intros name p st.
  assert (H1 : writes_numbers example_strconv) by (intros x _ _; reflexivity).
  assert (H2 : written (w st) <> EmptyString) by (vm_compute; discriminate).
  refine (conj H1 (conj H2 _)).
  destruct (every_body_is_empty_or_valid_json
              (constant_service p) example_strconv EpListProducts
              (request_with_body EmptyString) tt H1) as [H|H];
    [contradiction|exact H].
Defined.

(* ===================================================================== *)
(** * Bodies that are no object *)
(* ===================================================================== *)

(** The tokens read so far stay at the front of the result. *)
Lemma readValue_keeps_tokens (input : string) :
  forall s lit toks seen out,
    json.readValue s lit toks seen input = inr out ->
    exists more, out = (rev toks ++ more)%list.
Proof.
  assert (Hclose : forall lit toks,
             exists more, rev (json.close_literal lit toks) = (rev toks ++ more)%list).
  { intros [item|] toks; cbn [json.close_literal rev].
    - eexists. reflexivity.
    - exists []. rewrite app_nil_r. reflexivity. }
  assert (Hpush : forall (t : json.token) toks out,
             (exists more, out = (rev (t :: toks) ++ more)%list) ->
             exists more, out = (rev toks ++ more)%list).
  { intros t toks out (more & ->). cbn [rev]. rewrite <- app_assoc. eexists. reflexivity. }
  assert (Hclosed : forall lit toks out,
             (exists more, out = (rev (json.close_literal lit toks) ++ more)%list) ->
             exists more, out = (rev toks ++ more)%list).
  { intros [item|] toks out H; cbn [json.close_literal] in H;
      [apply (Hpush _ _ _ H)|exact H]. }
  assert (Hlast : forall (t : json.token) lit toks,
             exists more,
               rev (t :: json.close_literal lit toks) = (rev toks ++ more)%list).
  { intros t lit toks. destruct (Hclose lit toks) as (m & Hm).
    cbn [rev]. rewrite Hm, <- app_assoc. eexists. reflexivity. }
  induction input as [|c input IH]; intros s lit toks seen out.
  - cbn [json.readValue].
    destruct (fst (json.scan_step s " ")); try discriminate.
    intros H. inversion H. apply Hclose.
  - rewrite readValue_cons.
    destruct (json.scan_step s c) as [op s']. destruct op.
    + destruct (json.step s'); intros H; apply IH in H;
        try exact H; apply (Hclosed _ _ _ H).
    + apply IH.
    + intros H. apply IH in H. apply (Hpush _ _ _ H).
    + intros H. apply IH in H. apply (Hclosed _ _ _ H).
    + intros H. apply IH in H. apply (Hclosed _ _ _ H).
    + cbv zeta. destruct (json.parseState s').
      * intros H. inversion H. apply Hlast.
      * intros H. apply IH in H. apply Hpush in H. apply (Hclosed _ _ _ H).
    + intros H. apply IH in H. apply (Hpush _ _ _ H).
    + intros H. apply IH in H. apply (Hclosed _ _ _ H).
    + cbv zeta. destruct (json.parseState s').
      * intros H. inversion H. apply Hlast.
      * intros H. apply IH in H. apply Hpush in H. apply (Hclosed _ _ _ H).
    + intros H. apply IH in H. apply (Hclosed _ _ _ H).
    + intros H. inversion H. apply Hclose.
    + discriminate.
Qed.

(** Inside a literal the scanner goes on with the literal or ends it; it
    begins nothing. *)
Lemma in_literal_step (st : json.step_state) (ps : list json.parse_state)
      (c : ascii) (op : json.scan_op) (s' : json.scanner) :
  in_literal st = true ->
  json.scan_step (json.mkScanner st ps) c = (op, s') ->
  op <> json.scanBeginLiteral /\ op <> json.scanBeginObject
  /\ op <> json.scanBeginArray
  /\ (op = json.scanContinue ->
      json.step s' = json.stateEndValue \/ in_literal (json.step s') = true).
Proof.
  intros Hst.
  assert (Hend : forall s0 o s1,
             json.do_stateEndValue s0 c = (o, s1) ->
             o <> json.scanBeginLiteral /\ o <> json.scanBeginObject
             /\ o <> json.scanBeginArray /\ o <> json.scanContinue).
  { intros s0 o s1. unfold json.do_stateEndValue, json.do_stateEndTop, json.scan_error.
    destruct (json.parseState s0) as [|[] ?];
      repeat match goal with
             | |- context [if ?b then _ else _] => destruct b
             end;
      intros H; inversion H; subst; repeat split; discriminate. }
  destruct st; try discriminate Hst; clear Hst;
    unfold json.scan_step, json.do_state0, json.do_stateESign, json.goto, json.scan_error;
    cbn [json.step json.parseState];
    try (destruct rest as [|d [|d' rest']]);
    repeat match goal with
           | |- context [if ?b then _ else _] => destruct b
           end;
    intros H;
    first
      [ (inversion H; subst; repeat split; try discriminate;
         intros _; cbn [json.step]; first [left; reflexivity | right; reflexivity])
      | (destruct (Hend _ _ _ H) as (H1 & H2 & H3 & H4);
         repeat split; try assumption; intros E; contradiction) ].
Qed.

(** The literal being read ends up as one token, after the tokens read
    before it. *)
Lemma readValue_keeps_literal (input : string) :
  forall st ps item toks seen out,
    in_literal st = true ->
    json.readValue (json.mkScanner st ps) (Some item) toks seen input = inr out ->
    exists suffix more,
      out = (rev toks ++ json.TokLiteral (item +:+ suffix) :: more)%list.
Proof.
  assert (Hnow : forall item toks out,
             (exists more, out = (rev (json.TokLiteral item :: toks) ++ more)%list) ->
             exists suffix more,
               out = (rev toks ++ json.TokLiteral (item +:+ suffix) :: more)%list).
  { intros item toks out (more & ->). exists EmptyString, more.
    cbn [rev]. rewrite <- app_assoc, append_nil_r. reflexivity. }
  induction input as [|c input IH]; intros st ps item toks seen out Hst.
  - cbn [json.readValue].
    destruct (fst (json.scan_step (json.mkScanner st ps) " ")); try discriminate.
    intros H. inversion H. apply Hnow. exists []. rewrite app_nil_r. reflexivity.
  - rewrite readValue_cons.
    destruct (json.scan_step (json.mkScanner st ps) c) as [op s'] eqn:Hstep.
    destruct (in_literal_step st ps c op s' Hst Hstep) as (Hl & Ho & Ha & Hc).
    destruct op; try contradiction; cbn [option_map json.close_literal].
    + destruct (Hc eq_refl) as [Hend|Hin].
      * rewrite Hend. intros H. apply readValue_keeps_tokens in H.
        destruct H as (more & ->). exists (String c EmptyString), more.
        cbn [rev]. rewrite <- app_assoc. reflexivity.
      * destruct s' as [st' ps']. cbn [json.step] in *.
        assert (Hgo : json.readValue (json.mkScanner st' ps') (Some (json.snoc item c))
                        toks true input = inr out ->
                      exists suffix more,
                        out = (rev toks ++ json.TokLiteral (item +:+ suffix) :: more)%list).
        { intros H. destruct (IH st' ps' _ toks true out Hin H) as (suffix & more & ->).
          exists (String c suffix), more. unfold json.snoc.
          rewrite append_assoc. reflexivity. }
        destruct st'; try exact Hgo. discriminate Hin.
    + intros H. apply readValue_keeps_tokens in H. apply (Hnow _ _ _ H).
    + intros H. apply readValue_keeps_tokens in H. apply (Hnow _ _ _ H).
    + cbv zeta. destruct (json.parseState s').
      * intros H. inversion H. exists EmptyString, [json.TokEndObject].
        cbn [rev]. rewrite <- app_assoc, append_nil_r. reflexivity.
      * intros H. apply readValue_keeps_tokens in H. destruct H as (more & ->).
        exists EmptyString. eexists. cbn [rev]. rewrite <- !app_assoc, append_nil_r.
        reflexivity.
    + intros H. apply readValue_keeps_tokens in H. apply (Hnow _ _ _ H).
    + cbv zeta. destruct (json.parseState s').
      * intros H. inversion H. exists EmptyString, [json.TokEndArray].
        cbn [rev]. rewrite <- app_assoc, append_nil_r. reflexivity.
      * intros H. apply readValue_keeps_tokens in H. destruct H as (more & ->).
        exists EmptyString. eexists. cbn [rev]. rewrite <- !app_assoc, append_nil_r.
        reflexivity.
    + intros H. apply readValue_keeps_tokens in H. apply (Hnow _ _ _ H).
    + intros H. inversion H. apply Hnow. exists []. rewrite app_nil_r. reflexivity.
    + discriminate.
Qed.

(** The first token of a value tells the byte the value begins with: the
    brace, the bracket, or the first byte of a literal. *)
Lemma readValue_first_token (body : string) (c : ascii) (toks : list json.token) :
  first_value_byte body = Some c ->
  json.readValue json.scanner_reset None [] false body = inr toks ->
  exists more,
    if Ascii.eqb c "{" then toks = json.TokBeginObject :: more
    else if Ascii.eqb c "[" then toks = json.TokBeginArray :: more
    else exists item, toks = json.TokLiteral (String c item) :: more.
Proof.
  induction body as [|d body IH]; [discriminate|].
  cbn [first_value_byte]. destruct (json.isSpace d) eqn:Hsp.
  - intros Hc. rewrite readValue_cons. unfold json.scanner_reset, json.scan_step.
    cbn [json.step]. unfold json.do_stateBeginValue. rewrite Hsp.
    unfold json.goto. cbn [json.parseState]. cbv beta iota zeta.
    cbn [json.close_literal]. apply (IH Hc).
  - intros Hc. inversion Hc; subst d. clear Hc.
    rewrite readValue_cons. unfold json.scanner_reset, json.scan_step.
    cbn [json.step]. unfold json.do_stateBeginValue. rewrite Hsp.
    unfold json.byte_is.
    destruct (Ascii.eqb c "{") eqn:Hobj.
    { unfold json.pushParseState. cbn [json.parseState length].
      change (Z.of_nat 1 <=? json.maxNestingDepth) with true. cbv beta iota zeta.
      intros H. apply readValue_keeps_tokens in H. destruct H as (more & ->).
      exists more. reflexivity. }
    destruct (Ascii.eqb c "[") eqn:Harr.
    { unfold json.pushParseState. cbn [json.parseState length].
      change (Z.of_nat 1 <=? json.maxNestingDepth) with true. cbv beta iota zeta.
      intros H. apply readValue_keeps_tokens in H. destruct H as (more & ->).
      exists more. reflexivity. }
    assert (Hlit : forall st,
               in_literal st = true ->
               json.readValue (json.mkScanner st []) (Some (String c EmptyString)) []
                              true body = inr toks ->
               exists more item, toks = json.TokLiteral (String c item) :: more).
    { intros st Hst H.
      destruct (readValue_keeps_literal body st [] _ [] true toks Hst H)
        as (suffix & more & ->).
      exists more, suffix. reflexivity. }
    unfold json.goto, json.scan_error. cbn [json.parseState].
    repeat match goal with
           | |- context [if ?b then _ else _] => destruct b
           end;
      cbv beta iota zeta; first [apply Hlit; reflexivity | discriminate].
Qed.

(** X22.  A body whose first value is no object and not [null] (an array, a
    string, a number, [true] or [false], or no JSON at all) is answered by
    400 on Create and on Update, and the service is not called. *)
Theorem a_body_that_is_no_object_is_answered_400
        {S : Type} (service : Service S) (strconv : Strconv)
        (route : BodyRoute) (r : Request) (s : S) (c : ascii) :
  first_value_byte (Body r) = Some c ->
  c <> "{"%char -> c <> "n"%char ->
  let st := serve (body_handler service strconv route) r s in
  body_decode_error strconv route (Body r) <> None
  /\ status (w st) = StatusBadRequest
  /\ calls st = [] /\ service_state st = s.
Proof.
  intros Hfirst Hobj Hnull st. subst st.
  assert (Hbrace : Ascii.eqb c "{" = false) by (apply Ascii.eqb_neq; exact Hobj).
  assert (Hn : json.byte_is c "n" = false) by (apply Ascii.eqb_neq; exact Hnull).
  assert (Htoks : forall toks,
             json.readValue json.scanner_reset None [] false (Body r) = inr toks ->
             (exists more, toks = json.TokBeginArray :: more)
             \/ (exists item rest, toks = json.TokLiteral (String c item) :: rest)).
  { intros toks H.
    destruct (readValue_first_token (Body r) c toks Hfirst H) as (more & Hshape).
    rewrite Hbrace in Hshape.
    destruct (Ascii.eqb c "[") eqn:Harr; [left; exists more; exact Hshape|].
    right. destruct Hshape as (item & ->). exists item, more. reflexivity. }
  destruct route; cbn [body_handler body_decode_error].
  - rewrite CreateProduct_run. unfold json.Decode_Product.
    destruct (json.readValue json.scanner_reset None [] false (Body r)) as [e|toks];
      [repeat split; discriminate|].
    destruct (Htoks toks eq_refl) as [(more & ->)|(item & rest & ->)];
      cbn [json.unmarshal_Product json.is_null]; rewrite ?Hn; cbn [negb];
      repeat split; discriminate.
  - rewrite UpdateProduct_run. unfold json.Decode_ProductUpdate.
    destruct (json.readValue json.scanner_reset None [] false (Body r)) as [e|toks];
      [repeat split; discriminate|].
    destruct (Htoks toks eq_refl) as [(more & ->)|(item & rest & ->)];
      cbn [json.unmarshal_ProductUpdate json.is_null]; rewrite ?Hn; cbn [negb];
      repeat split; discriminate.
Qed.

Lemma a_body_that_is_no_object_is_answered_400_witness :
  let r := request_for "7" (" [{" +:+ quoted "name" +:+ ":" +:+ quoted "X" +:+ "}]") in
  let st := serve (body_handler memory_service example_strconv PostProducts) r ∅ in
  first_value_byte (Body r) = Some "["%char
  /\ json.Valid (Body r) = true
  /\ status (w st) = StatusBadRequest /\ calls st = [].
Proof.
  intros r st.
  assert (H1 : first_value_byte (Body r) = Some "["%char) by reflexivity.
  pose proof (a_body_that_is_no_object_is_answered_400
                memory_service example_strconv PostProducts r ∅ "["%char H1
                ltac:(discriminate) ltac:(discriminate)) as H.
  destruct H as (_ & Hs & Hc & _).
  refine (conj H1 (conj _ (conj Hs Hc))). vm_compute. reflexivity.
Defined.

(* ===================================================================== *)
(** * The keys of a body *)
(* ===================================================================== *)

Lemma ascii_letter_facts (c : ascii) :
  ascii_letter c = true ->
  plain_byte c = true /\ (byteZ c <? utf8.RuneSelf) = true
  /\ Ascii.eqb c json.backslash = false /\ Ascii.eqb c json.quote = false
  /\ (byteZ c <? 0x20) = false.
Proof.
  destruct c as [[] [] [] [] [] [] [] []]; intros H;
    first [discriminate H | repeat split].
Qed.

Lemma letters_scan (key : string) : ascii_letters key = true -> scans_in_string key.
Proof.
  induction key as [|c key IH]; intros H; [apply scans_nil|].
  cbn [ascii_letters] in H. apply andb_prop in H as [Hc Hkey].
  change (String c key) with (String c EmptyString +:+ key).
  apply scans_app; [|apply IH, Hkey].
  apply scans_plain. apply (ascii_letter_facts c Hc).
Qed.

Lemma letters_unquote (key : string) :
  ascii_letters key = true -> byte_loop json.unquote_step 0 key = Some key.
Proof.
  induction key as [|c key IH]; intros H; [reflexivity|].
  cbn [ascii_letters] in H. apply andb_prop in H as [Hc Hkey].
  destruct (ascii_letter_facts c Hc) as (_ & Hascii & Hb & Hq & Hctl).
  rewrite byte_loop_cons.
  assert (Hstep : json.unquote_step (String c key) = Some (String c EmptyString, 1%nat)).
  { unfold json.unquote_step. rewrite Hb, Hq, Hctl, Hascii. reflexivity. }
  rewrite Hstep. cbn [Nat.pred drop_bytes]. rewrite (IH Hkey). reflexivity.
Qed.

Lemma letters_foldName (key : string) :
  ascii_letters key = true -> json.foldName key = to_upper key.
Proof.
  intros H. unfold json.foldName.
  assert (Hloop : byte_loop json.foldName_step 0 key = Some (to_upper key)).
  { induction key as [|c key IH]; [reflexivity|].
    cbn [ascii_letters] in H. apply andb_prop in H as [Hc Hkey].
    destruct (ascii_letter_facts c Hc) as (_ & Hascii & _).
    rewrite byte_loop_cons.
    assert (Hstep : json.foldName_step (String c key)
                    = Some (String (json.upper c) EmptyString, 1%nat)).
    { unfold json.foldName_step. rewrite Hascii. reflexivity. }
    rewrite Hstep. cbn [Nat.pred drop_bytes]. rewrite (IH Hkey). reflexivity. }
  rewrite Hloop. reflexivity.
Qed.

(** The field a key of letters selects is the one whose name is the key
    without regard to case. *)
Lemma lookup_field_letters (key : string) :
  ascii_letters key = true -> json.lookup_field key = field_of_key key.
Proof.
  intros H. unfold json.lookup_field, field_of_key, json.fields.
  rewrite (letters_foldName key H). cbn [List.find json.field_name].
  change (json.foldName "id") with "ID".
  change (json.foldName "name") with "NAME".
  change (json.foldName "description") with "DESCRIPTION".
  change (json.foldName "price") with "PRICE".
  change (to_upper "id") with "ID".
  change (to_upper "name") with "NAME".
  change (to_upper "description") with "DESCRIPTION".
  change (to_upper "price") with "PRICE".
  destruct (String.eqb_spec "id" key) as [<-|_]; [reflexivity|].
  destruct (String.eqb_spec "name" key) as [<-|_]; [reflexivity|].
  destruct (String.eqb_spec "description" key) as [<-|_]; [reflexivity|].
  destruct (String.eqb_spec "price" key) as [<-|_]; [reflexivity|].
  reflexivity.
Qed.

(** Reading an object of one member whose value is a string. *)
Lemma readValue_one_member (key v tail : string) :
  ascii_letters key = true ->
  json.readValue json.scanner_reset None [] false
    ("{" +:+ quoted key +:+ ":" +:+ json.appendString v +:+ "}" +:+ tail)
  = inr [json.TokBeginObject; json.TokLiteral (quoted key);
         json.TokLiteral (json.appendString v); json.TokEndObject].
Proof.
  intros Hkey.
  replace ("{" +:+ quoted key +:+ ":" +:+ json.appendString v +:+ "}" +:+ tail)
    with (String "{" (String json.quote
            (key +:+ String json.quote
               (String ":" (json.appendString v +:+ String "}" tail))))).
  2:{ unfold quoted. rewrite !append_cons, !append_nil_l, append_assoc. reflexivity. }
  rewrite readValue_cons.
  change (json.scan_step json.scanner_reset "{")
    with (json.scanBeginObject,
          json.mkScanner json.stateBeginStringOrEmpty [json.parseObjectKey]).
  cbv beta iota zeta.
  rewrite (readValue_string_literal key json.stateBeginStringOrEmpty _ _ true _
             (letters_scan key Hkey) eq_refl).
  rewrite readValue_cons.
  change (json.scan_step (json.mkScanner json.stateEndValue [json.parseObjectKey]) ":")
    with (json.scanObjectKey,
          json.mkScanner json.stateBeginValue [json.parseObjectValue]).
  cbv beta iota zeta. cbn [json.close_literal].
  destruct (appendString_reads_as_value v) as (_ & Hend). rewrite Hend.
  reflexivity.
Qed.

(** X23.  The keys of a body are matched without regard to case, and a member
    with a key that matches no field is ignored.  For a body that is an
    object of one member, its key made of ASCII letters and its value a
    string, followed by anything: the string is stored in the field whose
    name is the key up to the case of the letters; with no such field the
    product stays as it was, without an error; and a string under the key
    of the price is an error. *)
Theorem the_keys_of_a_body_are_matched_without_regard_to_case
        (sc : Strconv) (key v tail : string) (p : Product) :
  ascii_letters key = true ->
  json.Decode_Product sc
    ("{" +:+ quoted key +:+ ":" +:+ json.appendString v +:+ "}" +:+ tail) p
  = match field_of_key key with
    | None => (p, None)
    | Some json.fPrice => (p, Some json.UnmarshalTypeError)
    | Some f => (json.set_field_string f (coerced v) p, None)
    end.
Proof.
  intros Hkey. unfold json.Decode_Product.
  rewrite (readValue_one_member key v tail Hkey).
  cbn [json.unmarshal_Product]. rewrite object_key.
  assert (Hunq : json.unquote (quoted key) = Some key).
  { unfold quoted, json.unquote. rewrite split_last_snoc, Ascii.eqb_refl.
    apply letters_unquote, Hkey. }
  rewrite Hunq, (lookup_field_letters key Hkey).
  destruct (field_of_key key) as [f|]; [|reflexivity].
  rewrite object_value.
  destruct f;
    try (rewrite literalStore_string_coerced by discriminate; reflexivity).
  destruct (appendString_first v) as (rest & Hshape).
  unfold json.literalStore. rewrite Hshape.
  change (json.byte_is json.quote "n") with false.
  change (json.byte_is json.quote "t" || json.byte_is json.quote "f") with false.
  rewrite Ascii.eqb_refl. reflexivity.
Qed.

Lemma the_keys_of_a_body_are_matched_without_regard_to_case_witness :
  let body key := "{" +:+ quoted key +:+ ":" +:+ quoted "Lamp" +:+ "}" in
  ascii_letters "NaMe" = true
  /\ ascii_letters "colour" = true
  /\ json.Decode_Product example_strconv (body "NaMe") Product_zero
     = (Product.mk EmptyString "Lamp" EmptyString (S754_zero false), None)
  /\ json.Decode_Product example_strconv (body "colour") Product_zero
     = (Product_zero, None).
Proof.
  intros body.
  assert (H1 : ascii_letters "NaMe" = true) by reflexivity.
  assert (H2 : ascii_letters "colour" = true) by reflexivity.
  pose proof (the_keys_of_a_body_are_matched_without_regard_to_case
                example_strconv "NaMe" "Lamp" EmptyString Product_zero H1) as Ha.
  pose proof (the_keys_of_a_body_are_matched_without_regard_to_case
                example_strconv "colour" "Lamp" EmptyString Product_zero H2) as Hb.
  exact (conj H1 (conj H2 (conj Ha Hb))).
Defined.
